(** * MySQL clone recovery tool: shallow embedding of [mysql-clone-tool.py]

    The tool drives a MySQL CLONE from a controlling machine: pre-flight
    checks in [main], dispatch in [execute_clone], reconnection and polling in
    [_monitor_clone_progress], and the final check in [validate_clone].

    The database, the SSH transport and the progress bar are external; what
    they answer is collected in a [world] record, one field per call site,
    and every function below is a computation in a small monad that threads
    the object's connection handles, writes a trace of observable events and
    propagates Python exceptions. *)

From Stdlib Require Import ZArith String Ascii List Bool Lia.
From Stdlib Require Import SpecFloat.
From stdpp Require Import gmap strings pretty.

Open Scope Z_scope.

(** ** Python values and dictionaries *)

(** The values a [DictCursor] hands back for the columns the tool reads:
    SQL NULL, integers and text. *)
Inductive pyval :=
| VNone
| VInt (z : Z)
| VStr (s : string).

#[global] Instance pyval_eq_dec : EqDecision pyval.
Proof. solve_decision. Defined.

(** A fetched row is a Python dict from column names to values. *)
Abbreviation row := (gmap string pyval).

(** [d.get(k)] and [d.get(k, dflt)]. *)
Definition dict_get (d : row) (k : string) : pyval := default VNone (d !! k).
Definition dict_get_default (d : row) (k : string) (dflt : pyval) : pyval :=
  default dflt (d !! k).

(** Truth value of a dict: empty dicts are falsy. *)
Definition dict_truthy (d : row) : bool := bool_decide (d ≠ ∅).

(** Truth value of what [fetchone()] returns: [None] or a dict. *)
Definition fetched_truthy (r : option row) : bool :=
  match r with
  | None => false
  | Some d => dict_truthy d
  end.

(** [v == z] and [v == s] for an integer and a string literal. *)
Definition py_eq_int (v : pyval) (z : Z) : bool :=
  match v with
  | VInt z' => bool_decide (z' = z)
  | _ => false
  end.

Definition py_eq_str (v : pyval) (s : string) : bool :=
  match v with
  | VStr s' => bool_decide (s' = s)
  | _ => false
  end.

(** [str(v)], as f-string interpolation applies it. *)
Definition py_str (v : pyval) : string :=
  match v with
  | VNone => "None"
  | VInt z => pretty z
  | VStr s => s
  end.

(** [pat in s] on strings. *)
Definition str_contains (pat s : string) : bool :=
  match String.index 0 pat s with
  | Some _ => true
  | None => false
  end.

(** ** Exceptions *)

Inductive exc_class :=
| OperationalError     (* pymysql.err.OperationalError *)
| OtherMySQLError      (* every other subclass of pymysql.MySQLError *)
| TypeError
| KeyError
| OverflowError
| OtherException       (* every other subclass of Exception *)
| KeyboardInterrupt.   (* a BaseException that is not an Exception *)

#[global] Instance exc_class_eq_dec : EqDecision exc_class.
Proof. solve_decision. Defined.

(** An exception object: its class, [args[0]] and [str(e)]. *)
Record exc := Exc {
  exc_cls : exc_class;
  exc_arg0 : pyval;
  exc_str : string
}.

#[global] Instance exc_eq_dec : EqDecision exc.
Proof. solve_decision. Defined.

(** [except pymysql.err.OperationalError] *)
Definition is_OperationalError (e : exc) : bool :=
  match exc_cls e with
  | OperationalError => true
  | _ => false
  end.

(** [except pymysql.MySQLError] *)
Definition is_MySQLError (e : exc) : bool :=
  match exc_cls e with
  | OperationalError | OtherMySQLError => true
  | _ => false
  end.

(** [except Exception] *)
Definition is_Exception (e : exc) : bool :=
  match exc_cls e with
  | KeyboardInterrupt => false
  | _ => true
  end.

(** [except KeyboardInterrupt] *)
Definition is_KeyboardInterrupt (e : exc) : bool :=
  match exc_cls e with
  | KeyboardInterrupt => true
  | _ => false
  end.

(** What an external call answers: a value or a raised exception. *)
Inductive result (A : Type) :=
| Ok (a : A)
| Err (e : exc).
Arguments Ok {A} a.
Arguments Err {A} e.

(** ** Integer and float arithmetic of the percentage

    [completed_work / total_work] is Python's true division of two ints: the
    correctly rounded binary64 quotient, [OverflowError] when it is out of
    range.  [* 100] is a binary64 product and [int(...)] truncates toward
    zero, raising on an infinity. *)

Definition prec64 : Z := 53.
Definition emax64 : Z := 1024.

Definition float_of_int (z : Z) : spec_float :=
  match z with
  | Z0 => S754_zero false
  | Zpos p => S754_finite false p 0
  | Zneg p => S754_finite true p 0
  end.

Definition overflow (msg : string) : exc := Exc OverflowError (VStr msg) msg.

(** [a / b] for ints with [b <> 0]. *)
Definition int_truediv (a b : Z) : result spec_float :=
  match SFdiv prec64 emax64 (float_of_int a) (float_of_int b) with
  | S754_infinity _ | S754_nan =>
      Err (overflow "integer division result too large for a float")
  | q => Ok q
  end.

Definition float_mul (x y : spec_float) : spec_float := SFmul prec64 emax64 x y.

(** [int(x)] for a float. *)
Definition int_of_float (x : spec_float) : result Z :=
  match x with
  | S754_zero _ => Ok 0
  | S754_finite s m e =>
      let a := match e with
               | Zneg p => Z.shiftr (Zpos m) (Zpos p)
               | _ => Z.shiftl (Zpos m) e
               end in
      Ok (if s then - a else a)
  | S754_infinity _ => Err (overflow "cannot convert float infinity to integer")
  | S754_nan => Err (Exc OtherException (VStr "cannot convert float NaN to integer")
                          "cannot convert float NaN to integer")
  end.

(** [min(int((completed_work / total_work) * 100), 100)] *)
Definition progress_percent_of (completed_work total_work : Z) : result Z :=
  match int_truediv completed_work total_work with
  | Err e => Err e
  | Ok q =>
      match int_of_float (float_mul q (float_of_int 100)) with
      | Err e => Err e
      | Ok p => Ok (Z.min p 100)
      end
  end.

(** ** Configuration, statements, printed lines, events *)

(** The eight constructor arguments of [MySQLCloneRecovery]. *)
Record config := {
  source_host : string;
  source_port : Z;
  source_user : string;
  source_password : string;
  target_host : string;
  target_port : Z;
  target_user : string;
  target_password : string
}.

(** The connection variables of the program. *)
Inductive conn :=
| SourceConn       (* self.source_conn *)
| TargetConn       (* self.target_conn *)
| MonitoringConn   (* monitoring_conn in _monitor_clone_progress *)
| NewConn.         (* new_conn in validate_clone *)

(** The SQL statements the tool sends. *)
Inductive stmt :=
| SelectPlugin                       (* ... FROM INFORMATION_SCHEMA.PLUGINS WHERE PLUGIN_NAME = 'clone' *)
| SelectProcesslist (user : string)  (* ... FROM INFORMATION_SCHEMA.PROCESSLIST WHERE ... USER != %s ... *)
| SelectDatadir                      (* SELECT @@datadir as datadir *)
| SetDonorList (host : string) (port : Z)
                                     (* SET GLOBAL clone_valid_donor_list = 'host:port' *)
| CloneInstance (user host : string) (port : Z) (password : string)
                                     (* CLONE INSTANCE FROM 'user'@'host':port IDENTIFIED BY 'password' *)
| SelectCloneProgress                (* SELECT * FROM performance_schema.clone_progress *)
| SelectCloneStatus                  (* SELECT * FROM performance_schema.clone_status *)
| SelectServerInfo.                  (* SELECT @@version as version, @@server_id as server_id *)

(** Which endpoint a message names. *)
Inductive side := Source | Target.

Definition side_name (sd : side) : string :=
  match sd with
  | Source => "source"
  | Target => "target"
  end.

(** Every line the tool prints. *)
Inductive line :=
| LConnected (sd : side) (host : string) (port : Z)
| LInvalidCredentials (sd : side)
| LCannotConnect (sd : side) (host : string) (port : Z)
| LErrorConnecting (sd : side) (err : exc)
| LPluginNotInstalled (host_type : string)
| LPluginNotActive (host_type : string)
| LPluginActive (host_type : string)
| LFoundActive (n : nat)
| LActiveConn (id user host db command time : pyval)
| LNoActive
| LSshConnected (host : string)
| LSshError (host : string) (err : exc)
| LStartingCloneOperation
| LStartingClone (src tgt : string)
| LConnectionLostExpected
| LMonitoring
| LCannotSsh
| LErrorDuringClone (err : exc)
| LCouldNotReconnect
| LFailedOrNoProgress
| LCloneFailed (msg : pyval)
| LCloneCompleted
| LErrorMonitoring (err : exc)
| LValidationSuccessful
| LTargetServerInformation
| LMySQLVersion (v : pyval)
| LServerId (v : pyval)
| LValidationFailed (msg : string)
| LErrorDuringValidation (err : exc)
| LPreflightChecks
| LAbortSourceConnect
| LAbortTargetConnect
| LAbortSourcePlugin
| LAbortTargetPlugin
| LAbortActiveConnections
| LUseForce
| LCloneOperationFailed
| LInterrupted
| LUnexpectedError (err : exc).

Definition nl : string := String "010" "".
Definition ok_mark : string := "✓".
Definition bad_mark : string := "❌".

(** The text of each line, as the f-strings build it. *)
Definition render (l : line) : string :=
  match l with
  | LConnected sd h p =>
      ok_mark +:+ " Successfully connected to " +:+ side_name sd +:+ " database at "
      +:+ h +:+ ":" +:+ pretty p
  | LInvalidCredentials sd =>
      bad_mark +:+ " Error: Invalid credentials for " +:+ side_name sd +:+ " database"
  | LCannotConnect sd h p =>
      bad_mark +:+ " Error: Cannot connect to " +:+ side_name sd +:+ " database at "
      +:+ h +:+ ":" +:+ pretty p
  | LErrorConnecting sd e =>
      bad_mark +:+ " Error connecting to " +:+ side_name sd +:+ " database: " +:+ exc_str e
  | LPluginNotInstalled t =>
      bad_mark +:+ " Clone plugin is not installed on " +:+ t +:+ " database"
  | LPluginNotActive t =>
      bad_mark +:+ " Clone plugin is installed but not active on " +:+ t +:+ " database"
  | LPluginActive t =>
      ok_mark +:+ " Clone plugin is active on " +:+ t +:+ " database"
  | LFoundActive n =>
      bad_mark +:+ " Found " +:+ pretty (Z.of_nat n) +:+ " active connections on target database:"
  | LActiveConn i u h d c t =>
      "  - ID: " +:+ py_str i +:+ ", User: " +:+ py_str u +:+ "@" +:+ py_str h
      +:+ ", DB: " +:+ py_str d +:+ ", Command: " +:+ py_str c
      +:+ ", Time: " +:+ py_str t +:+ "s"
  | LNoActive => ok_mark +:+ " No active connections found on target database"
  | LSshConnected h => ok_mark +:+ " Successfully connected to " +:+ h +:+ " via SSH"
  | LSshError h e =>
      bad_mark +:+ " Error connecting to " +:+ h +:+ " via SSH: " +:+ exc_str e
  | LStartingCloneOperation => nl +:+ "=== Starting Clone Operation ==="
  | LStartingClone s t => "Starting clone from " +:+ s +:+ " to " +:+ t +:+ "..."
  | LConnectionLostExpected => "Connection lost as expected during clone operation."
  | LMonitoring => nl +:+ "Monitoring clone progress..."
  | LCannotSsh => bad_mark +:+ " Cannot establish SSH connection to monitor progress"
  | LErrorDuringClone e => bad_mark +:+ " Error during clone operation: " +:+ exc_str e
  | LCouldNotReconnect =>
      bad_mark +:+ " Could not reconnect to target database after clone started"
  | LFailedOrNoProgress =>
      bad_mark +:+ " Clone operation failed or no progress data available"
  | LCloneFailed m => bad_mark +:+ " Clone operation failed: " +:+ py_str m
  | LCloneCompleted => ok_mark +:+ " Clone operation completed successfully"
  | LErrorMonitoring e => bad_mark +:+ " Error monitoring clone progress: " +:+ exc_str e
  | LValidationSuccessful => ok_mark +:+ " Clone validation successful"
  | LTargetServerInformation => nl +:+ "Target Server Information:"
  | LMySQLVersion v => "  - MySQL Version: " +:+ py_str v
  | LServerId v => "  - Server ID: " +:+ py_str v
  | LValidationFailed m => bad_mark +:+ " Clone validation failed: " +:+ m
  | LErrorDuringValidation e => bad_mark +:+ " Error during clone validation: " +:+ exc_str e
  | LPreflightChecks => nl +:+ "=== Pre-flight Checks ==="
  | LAbortSourceConnect => bad_mark +:+ " Aborting: Cannot connect to source database"
  | LAbortTargetConnect => bad_mark +:+ " Aborting: Cannot connect to target database"
  | LAbortSourcePlugin => bad_mark +:+ " Aborting: Clone plugin issue on source database"
  | LAbortTargetPlugin => bad_mark +:+ " Aborting: Clone plugin issue on target database"
  | LAbortActiveConnections =>
      bad_mark +:+ " Aborting: Active connections found on target database"
  | LUseForce => "   Use --force to proceed anyway"
  | LCloneOperationFailed => bad_mark +:+ " Clone operation failed"
  | LInterrupted => nl +:+ "⚠️ Operation interrupted by user"
  | LUnexpectedError e => bad_mark +:+ " Unexpected error: " +:+ exc_str e
  end.

(** The two progress bars. *)
Inductive bar :=
| WaitingBar   (* "Waiting for target database to come back online" *)
| CloneBar.    (* "Clone Progress" *)

(** What the outside can observe of a run, in order. *)
Inductive event :=
| Print (l : line)
| Sleep (secs : Z)
| Connect (c : conn)               (* pymysql.connect(...) is called *)
| Execute (c : conn) (q : stmt)    (* cursor.execute(q) is called *)
| Close (c : conn)                 (* connection.close() *)
| SshConnect (host : string)       (* ssh_client.connect(hostname=host, ...) *)
| SshExec (cmd : string)           (* ssh_client.exec_command(cmd) *)
| SshClose
| Bar (b : bar) (n : Z).           (* pbar.update(...) leaves bar b at position n *)

#[global] Instance side_eq_dec : EqDecision side.
Proof. solve_decision. Defined.

#[global] Instance line_eq_dec : EqDecision line.
Proof. solve_decision. Defined.

(** ** The monad: connection handles, trace, exceptions *)

(** The three handle attributes of the object; [true] when not [None]. *)
Record session := {
  source_conn : bool;
  target_conn : bool;
  ssh_client : bool
}.

Definition fresh_session : session :=
  {| source_conn := false; target_conn := false; ssh_client := false |}.

(** How a computation ends.  [Starved] is the polling loop asking for a poll
    answer beyond those the world supplies: the run is still going. *)
Inductive outcome (A : Type) :=
| Ret (a : A)
| Raise (e : exc)
| Exit (code : Z)      (* sys.exit(code) *)
| Starved.
Arguments Ret {A} a.
Arguments Raise {A} e.
Arguments Exit {A} code.
Arguments Starved {A}.

Definition M (A : Type) : Type := session → list event * session * outcome A.

Definition ret {A} (a : A) : M A := λ s, ([], s, Ret a).

Definition bind {A B} (m : M A) (f : A → M B) : M B := λ s,
  match m s with
  | (t, s1, Ret a) => let '(t', s2, o) := f a s1 in (t ++ t', s2, o)
  | (t, s1, Raise e) => (t, s1, Raise e)
  | (t, s1, Exit c) => (t, s1, Exit c)
  | (t, s1, Starved) => (t, s1, Starved)
  end.

#[global] Instance M_ret : MRet M := @ret.
#[global] Instance M_bind : MBind M := λ A B f m, bind m f.

Definition emit (e : event) : M unit := λ s, ([e], s, Ret tt).
Definition print (l : line) : M unit := emit (Print l).
Definition raise {A} (e : exc) : M A := λ s, ([], s, Raise e).
Definition sys_exit {A} (code : Z) : M A := λ s, ([], s, Exit code).
Definition starve {A} : M A := λ s, ([], s, Starved).
Definition get_session : M session := λ s, ([], s, Ret s).
Definition put_session (s' : session) : M unit := λ _, ([], s', Ret tt).

(** An external call answers with a value or raises. *)
Definition call {A} (r : result A) : M A :=
  match r with
  | Ok a => ret a
  | Err e => raise e
  end.

(** [try: m  except <classes> as e: h e]; state changes made before the
    exception stay. *)
Definition try_except {A} (m : M A) (catches : exc → bool) (h : exc → M A) : M A := λ s,
  match m s with
  | (t, s1, Raise e) =>
      if catches e then let '(t', s2, o) := h e s1 in (t ++ t', s2, o)
      else (t, s1, Raise e)
  | r => r
  end.

(** [try: m  finally: c]; an exception or exit from [c] replaces the pending
    outcome. *)
Definition finally {A} (m : M A) (c : M unit) : M A := λ s,
  match m s with
  | (t, s1, Starved) => (t, s1, Starved)
  | (t, s1, o) =>
      match c s1 with
      | (t', s2, Ret _) => (t ++ t', s2, o)
      | (t', s2, Raise e) => (t ++ t', s2, Raise e)
      | (t', s2, Exit code) => (t ++ t', s2, Exit code)
      | (t', s2, Starved) => (t ++ t', s2, Starved)
      end
  end.

Definition trace_of {A} (r : list event * session * outcome A) : list event := r.1.1.
Definition session_of {A} (r : list event * session * outcome A) : session := r.1.2.
Definition outcome_of {A} (r : list event * session * outcome A) : outcome A := r.2.

(** The process exit status an outcome of [main] stands for; an uncaught
    exception ends the interpreter with status 1. *)
Definition exit_status {A} (o : outcome A) : option Z :=
  match o with
  | Ret _ => Some 0
  | Exit code => Some code
  | Raise _ => Some 1
  | Starved => None
  end.

(** [d[k]] on a dict. *)
Definition getitem (d : row) (k : string) : M pyval :=
  match d !! k with
  | Some v => ret v
  | None => raise (Exc KeyError (VStr k) ("'" +:+ k +:+ "'"))
  end.

Definition not_subscriptable : exc :=
  Exc TypeError (VStr "'NoneType' object is not subscriptable")
      "'NoneType' object is not subscriptable".

(** [cursor.fetchone()[k]] *)
Definition fetched_getitem (r : option row) (k : string) : M pyval :=
  match r with
  | None => raise not_subscriptable
  | Some d => getitem d k
  end.

(** ** The world *)

(** One poll cycle's answers: the rows of [clone_progress] and the first row
    of [clone_status]. *)
Record sample := {
  progress : result (list row);
  status : result (option row)
}.

(** What the outside answers at each call site of the program. *)
Record world := {
  w_connect_source : result unit;          (* pymysql.connect in connect_to_source *)
  w_connect_target : result unit;          (* pymysql.connect in connect_to_target *)
  w_plugin : conn → result (option row);   (* plugin query + fetchone on that connection *)
  w_processlist : result (list row);       (* processlist query + fetchall *)
  w_datadir : result (option row);         (* SELECT @@datadir + fetchone *)
  w_set_donor : result unit;               (* SET GLOBAL clone_valid_donor_list *)
  w_ssh_connect : result unit;             (* ssh_client.connect *)
  w_ssh_exec : result unit;                (* ssh_client.exec_command *)
  w_clone : result unit;                   (* cursor.execute(clone_stmt) *)
  w_reconnect : nat → result unit;         (* k-th pymysql.connect of the monitor, from 0 *)
  w_samples : list sample;                 (* the answers of successive poll cycles *)
  w_validate_connect : result unit;        (* pymysql.connect in validate_clone *)
  w_validate_status : result (option row); (* clone_status + fetchone in validate_clone *)
  w_server_info : result (option row);     (* version/server_id + fetchone *)
  w_close : conn → result unit;            (* connection.close() in cleanup *)
  w_ssh_close : result unit                (* ssh_client.close() in cleanup *)
}.

(** ** class MySQLCloneRecovery *)

Section Recovery.

Variable cfg : config.
Variable w : world.

Definition set_source_conn : M unit :=
  s ← get_session;
  put_session {| source_conn := true; target_conn := target_conn s; ssh_client := ssh_client s |}.

Definition set_target_conn : M unit :=
  s ← get_session;
  put_session {| source_conn := source_conn s; target_conn := true; ssh_client := ssh_client s |}.

Definition set_ssh_client : M unit :=
  s ← get_session;
  put_session {| source_conn := source_conn s; target_conn := target_conn s; ssh_client := true |}.

(** The handler shared by [connect_to_source] and [connect_to_target]. *)
Definition report_connect_error (sd : side) (host : string) (port : Z) (err : exc) : M bool :=
  (if py_eq_int (exc_arg0 err) 1045 then print (LInvalidCredentials sd)
   else if py_eq_int (exc_arg0 err) 2003 then print (LCannotConnect sd host port)
   else print (LErrorConnecting sd err));;
  mret false.

Definition connect_to_source : M bool :=
  try_except
    (emit (Connect SourceConn);;
     call (w_connect_source w);;
     set_source_conn;;
     print (LConnected Source (source_host cfg) (source_port cfg));;
     mret true)
    is_MySQLError
    (report_connect_error Source (source_host cfg) (source_port cfg)).

Definition connect_to_target : M bool :=
  try_except
    (emit (Connect TargetConn);;
     call (w_connect_target w);;
     set_target_conn;;
     print (LConnected Target (target_host cfg) (target_port cfg));;
     mret true)
    is_MySQLError
    (report_connect_error Target (target_host cfg) (target_port cfg)).

(** [if not result] covers [None] and the empty dict. *)
Definition check_plugin_status (connection : conn) (host_type : string) : M bool :=
  emit (Execute connection SelectPlugin);;
  result ← call (w_plugin w connection);
  if negb (fetched_truthy result) then
    print (LPluginNotInstalled host_type);; mret false
  else
    plugin_status ← fetched_getitem result "PLUGIN_STATUS";
    if negb (py_eq_str plugin_status "ACTIVE") then
      print (LPluginNotActive host_type);; mret false
    else
      print (LPluginActive host_type);; mret true.

(** The [for conn in active_connections] loop. *)
Fixpoint print_active_connections (active_connections : list row) : M unit :=
  match active_connections with
  | [] => mret tt
  | c :: rest =>
      id ← getitem c "ID";
      user ← getitem c "USER";
      host ← getitem c "HOST";
      db ← getitem c "DB";
      command ← getitem c "COMMAND";
      time ← getitem c "TIME";
      print (LActiveConn id user host db command time);;
      print_active_connections rest
  end.

Definition check_active_connections : M bool :=
  emit (Execute TargetConn (SelectProcesslist (target_user cfg)));;
  active_connections ← call (w_processlist w);
  match active_connections with
  | _ :: _ =>
      print (LFoundActive (length active_connections));;
      print_active_connections active_connections;;
      mret false
  | [] =>
      print LNoActive;; mret true
  end.

Definition ssh_connect (host : string) : M bool :=
  try_except
    (set_ssh_client;;
     emit (SshConnect host);;
     call (w_ssh_connect w);;
     print (LSshConnected host);;
     mret true)
    is_Exception
    (λ e, print (LSshError host e);; mret false).

(** ** _monitor_clone_progress *)

Definition max_retries : nat := 30.

(** The reconnection loop [while retries < max_retries].  [budget] is
    [max_retries - retries]; the result tells whether [monitoring_conn] was
    set.  The bare [except:] retries on every exception. *)
Fixpoint wait_online (budget retries : nat) (waiting_n : Z) : M bool :=
  match budget with
  | O => mret false
  | S budget' =>
      emit (Connect MonitoringConn);;
      match w_reconnect w retries with
      | Ok _ => mret true
      | Err _ =>
          let retries' := S retries in
          let waiting_n' := waiting_n + Z.of_nat retries' * 3 in
          emit (Bar WaitingBar waiting_n');;
          emit (Sleep 2);;
          wait_online budget' retries' waiting_n'
      end
  end.

(** The local variables of the polling loop; [pbar_n] is [pbar.n]. *)
Record mon := {
  pbar_n : Z;
  completed : bool;
  error_reported : bool
}.

Definition mon_init : mon :=
  {| pbar_n := 0; completed := false; error_reported := false |}.

(** [pbar.update(k)]: tqdm adds [k] to [pbar.n], also when [k] is negative. *)
Definition pbar_update (st : mon) (k : Z) : M mon :=
  let n := pbar_n st + k in
  emit (Bar CloneBar n);;
  mret {| pbar_n := n; completed := completed st; error_reported := error_reported st |}.

Definition set_completed (st : mon) : mon :=
  {| pbar_n := pbar_n st; completed := true; error_reported := error_reported st |}.

Definition set_error_reported (st : mon) : mon :=
  {| pbar_n := pbar_n st; completed := completed st; error_reported := true |}.

Definition unsupported_operand (ty : string) : exc :=
  let msg := "unsupported operand type(s) for +=: 'int' and '" +:+ ty +:+ "'" in
  Exc TypeError (VStr msg) msg.

(** [acc += v] for an int accumulator. *)
Definition iadd (acc : Z) (v : pyval) : M Z :=
  match v with
  | VInt z => mret (acc + z)
  | VNone => raise (unsupported_operand "NoneType")
  | VStr _ => raise (unsupported_operand "str")
  end.

(** The [for task in progress_data] loop. *)
Fixpoint sum_work (progress_data : list row) (total_work completed_work : Z) : M (Z * Z) :=
  match progress_data with
  | [] => mret (total_work, completed_work)
  | task :: rest =>
      total_work' ← iadd total_work (dict_get_default task "WORK_ESTIMATED" (VInt 0));
      completed_work' ← iadd completed_work (dict_get_default task "WORK_COMPLETED" (VInt 0));
      sum_work rest total_work' completed_work'
  end.

(** [status and status.get('ERROR_NO') == 0] *)
Definition status_error_free (st : option row) : bool :=
  match st with
  | Some d => dict_truthy d && py_eq_int (dict_get d "ERROR_NO") 0
  | None => false
  end.

(** The branch [if not progress_data: ... continue]. *)
Definition poll_no_progress (smp : sample) (st : mon) : M mon :=
  emit (Execute MonitoringConn SelectCloneStatus);;
  st_row ← call (status smp);
  st' ← (if status_error_free st_row then
           st1 ← pbar_update st (100 - pbar_n st);
           mret (set_completed st1)
         else if negb (error_reported st) then
           print LFailedOrNoProgress;;
           mret (set_error_reported st)
         else mret st);
  emit (Sleep 2);;
  mret st'.

(** The rest of the loop body, reached when [progress_data] has rows. *)
Definition poll_with_progress (progress_data : list row) (smp : sample) (st : mon) : M mon :=
  '(total_work, completed_work) ← sum_work progress_data 0 0;
  st1 ← (if 0 <? total_work then
           progress_percent ← call (progress_percent_of completed_work total_work);
           pbar_update st (progress_percent - pbar_n st)
         else mret st);
  emit (Execute MonitoringConn SelectCloneStatus);;
  st_row ← call (status smp);
  st2 ← (if fetched_truthy st_row then
           let d := default ∅ st_row in
           if py_eq_str (dict_get d "STATE") "Completed" then
             st' ← pbar_update st1 (100 - pbar_n st1);
             mret (set_completed st')
           else if py_eq_str (dict_get d "STATE") "Failed" && negb (error_reported st1) then
             print (LCloneFailed (dict_get d "ERROR_MESSAGE"));;
             mret (set_error_reported st1)
           else mret st1
         else mret st1);
  emit (Sleep 2);;
  mret st2.

(** One pass through the body of [while not completed]. *)
Definition poll_cycle (smp : sample) (st : mon) : M mon :=
  emit (Execute MonitoringConn SelectCloneProgress);;
  progress_data ← call (progress smp);
  match progress_data with
  | [] => poll_no_progress smp st
  | _ :: _ => poll_with_progress progress_data smp st
  end.

(** [while not completed], fed with the poll answers in order. *)
Fixpoint monitor_loop (samples : list sample) (st : mon) : M mon :=
  if completed st then mret st
  else
    match samples with
    | [] => starve
    | smp :: rest =>
        st' ← poll_cycle smp st;
        monitor_loop rest st'
    end.

Definition _monitor_clone_progress : M unit :=
  try_except
    (emit (Sleep 5);;
     online ← wait_online max_retries 0 0;
     if negb online then
       print LCouldNotReconnect;; mret tt
     else
       st ← monitor_loop (w_samples w) mon_init;
       emit (Close MonitoringConn);;
       if completed st then print LCloneCompleted else mret tt)
    is_Exception
    (λ e, print (LErrorMonitoring e)).

(** ** execute_clone *)

Definition dq : string := String "034" "".

Definition monitor_cmd : string :=
  "watch -n 1 'mysql -u" +:+ target_user cfg +:+ " -p" +:+ target_password cfg
  +:+ " -e " +:+ dq +:+ "SELECT * FROM performance_schema.clone_progress" +:+ dq +:+ "'".

Definition watcher_command : string :=
  "nohup " +:+ monitor_cmd +:+ " > /tmp/clone_progress.log 2>&1 &".

Definition clone_stmt : stmt :=
  CloneInstance (source_user cfg) (source_host cfg) (source_port cfg) (source_password cfg).

Definition donor_stmt : stmt := SetDonorList (source_host cfg) (source_port cfg).

(** The inner [try: cursor.execute(clone_stmt) except OperationalError]. *)
Definition dispatch_clone : M unit :=
  try_except
    (emit (Execute TargetConn clone_stmt);;
     call (w_clone w))
    is_OperationalError
    (λ e, if str_contains "Lost connection" (exc_str e)
          then print LConnectionLostExpected
          else raise e).

Definition execute_clone : M bool :=
  try_except (A := bool)
    (print LStartingCloneOperation;;
     emit (Execute TargetConn SelectDatadir);;
     fetched ← call (w_datadir w);
     datadir ← fetched_getitem fetched "datadir";
     emit (Execute TargetConn donor_stmt);;
     call (w_set_donor w);;
     connected ← ssh_connect (target_host cfg);
     if (connected : bool) then
       emit (SshExec watcher_command);;
       call (w_ssh_exec w);;
       print (LStartingClone (source_host cfg) (target_host cfg));;
       dispatch_clone;;
       print LMonitoring;;
       _monitor_clone_progress;;
       mret true
     else
       print LCannotSsh;; mret false)
    is_MySQLError
    (λ err, print (LErrorDuringClone err);; mret false).

(** ** validate_clone *)

(** [status and status.get('STATE') == 'Completed' and status.get('ERROR_NO') == 0] *)
Definition status_successful (st : option row) : bool :=
  match st with
  | Some d =>
      dict_truthy d && py_eq_str (dict_get d "STATE") "Completed"
      && py_eq_int (dict_get d "ERROR_NO") 0
  | None => false
  end.

(** [status.get('ERROR_MESSAGE') if status else 'Unknown error'], formatted. *)
Definition failure_message (st : option row) : string :=
  if fetched_truthy st then py_str (dict_get (default ∅ st) "ERROR_MESSAGE")
  else "Unknown error".

Definition validate_clone : M bool :=
  try_except (A := bool)
    (emit (Connect NewConn);;
     call (w_validate_connect w);;
     emit (Execute NewConn SelectCloneStatus);;
     st_row ← call (w_validate_status w);
     if status_successful st_row then
       print LValidationSuccessful;;
       emit (Execute NewConn SelectServerInfo);;
       server_info ← call (w_server_info w);
       print LTargetServerInformation;;
       version ← fetched_getitem server_info "version";
       print (LMySQLVersion version);;
       server_id ← fetched_getitem server_info "server_id";
       print (LServerId server_id);;
       emit (Close NewConn);;
       mret true
     else
       print (LValidationFailed (failure_message st_row));;
       emit (Close NewConn);;
       mret false)
    is_MySQLError
    (λ err, print (LErrorDuringValidation err);; mret false).

(** ** cleanup *)

Definition cleanup : M unit :=
  s ← get_session;
  (if source_conn s then emit (Close SourceConn);; call (w_close w SourceConn) else mret tt);;
  (if target_conn s then emit (Close TargetConn);; call (w_close w TargetConn) else mret tt);;
  (if ssh_client s then emit SshClose;; call (w_ssh_close w) else mret tt).

(** ** main *)

Variable force : bool.   (* args.force *)

(** The five pre-flight checks, each followed by its [sys.exit(1)]. *)
Definition preflight : M unit :=
  ok ← connect_to_source;
  (if negb ok then print LAbortSourceConnect;; sys_exit 1 else mret tt);;
  ok ← connect_to_target;
  (if negb ok then print LAbortTargetConnect;; sys_exit 1 else mret tt);;
  ok ← check_plugin_status SourceConn "source";
  (if negb ok then print LAbortSourcePlugin;; sys_exit 1 else mret tt);;
  ok ← check_plugin_status TargetConn "target";
  (if negb ok then print LAbortTargetPlugin;; sys_exit 1 else mret tt);;
  ok ← check_active_connections;
  if negb ok && negb force then
    print LAbortActiveConnections;; print LUseForce;; sys_exit 1
  else mret tt.

(** [if recovery.execute_clone(): recovery.validate_clone() else: ...] *)
Definition clone_and_validate : M unit :=
  ok ← execute_clone;
  if (ok : bool) then
    validate_clone;; mret tt
  else
    print LCloneOperationFailed;; sys_exit 1.

(** The body of the [try] in [main]. *)
Definition main_body : M unit :=
  print LPreflightChecks;;
  preflight;;
  clone_and_validate.

(** [except KeyboardInterrupt: ...  except Exception as e: ...] *)
Definition main_handler (e : exc) : M unit :=
  if is_KeyboardInterrupt e then print LInterrupted;; sys_exit 1
  else print (LUnexpectedError e);; sys_exit 1.

Definition main : M unit :=
  finally
    (try_except main_body (λ e, is_KeyboardInterrupt e || is_Exception e) main_handler)
    cleanup.

End Recovery.

(** ** Observations on runs and traces *)

(** A run whose trace is extended in front by [t]. *)
Definition prepend {A} (t : list event) (r : list event * session * outcome A)
  : list event * session * outcome A :=
  (t ++ trace_of r, session_of r, outcome_of r).

(** The two failure diagnostics of the polling loop. *)
Definition is_failure_diagnostic (e : event) : bool :=
  match e with
  | Print LFailedOrNoProgress => true
  | Print (LCloneFailed _) => true
  | _ => false
  end.

Definition failure_diagnostics (t : list event) : nat :=
  length (List.filter is_failure_diagnostic t).

(** The diagnostic of the branch without progress rows alone. *)
Definition is_no_progress_diagnostic (e : event) : bool :=
  match e with
  | Print LFailedOrNoProgress => true
  | _ => false
  end.

Definition no_progress_diagnostics (t : list event) : nat :=
  length (List.filter is_no_progress_diagnostic t).

(** The successive positions of the "Clone Progress" bar. *)
Fixpoint bar_positions (t : list event) : list Z :=
  match t with
  | [] => []
  | Bar CloneBar n :: t' => n :: bar_positions t'
  | _ :: t' => bar_positions t'
  end.

(** Statements that change the target: the donor list and the clone
    directive. *)
Definition is_dispatch (e : event) : bool :=
  match e with
  | Execute _ (SetDonorList _ _) => true
  | Execute _ (CloneInstance _ _ _ _) => true
  | _ => false
  end.

Definition is_clone_directive (e : event) : bool :=
  match e with
  | Execute _ (CloneInstance _ _ _ _) => true
  | _ => false
  end.

(** Events only [_monitor_clone_progress] produces. *)
Definition is_monitor_event (e : event) : bool :=
  match e with
  | Connect MonitoringConn => true
  | Execute MonitoringConn _ => true
  | Close MonitoringConn => true
  | Bar _ _ => true
  | Sleep _ => true
  | _ => false
  end.

(** The events of [cleanup]. *)
Definition is_cleanup_event (e : event) : bool :=
  match e with
  | Close SourceConn => true
  | Close TargetConn => true
  | SshClose => true
  | _ => false
  end.

(** The events of the pre-flight checks. *)
Definition is_preflight_event (e : event) : bool :=
  match e with
  | Print _ => true
  | Connect SourceConn => true
  | Connect TargetConn => true
  | Execute SourceConn SelectPlugin => true
  | Execute TargetConn SelectPlugin => true
  | Execute TargetConn (SelectProcesslist _) => true
  | _ => false
  end.

(** The line the handlers of [main] print for an exception. *)
Definition handler_line (e : exc) : line :=
  if is_KeyboardInterrupt e then LInterrupted else LUnexpectedError e.

(** [True] when no event of the trace satisfies [p]. *)
Definition none_of (p : event → bool) (t : list event) : Prop :=
  Forall (λ e, p e = false) t.

(** The events of the reconnection loop when its first [k] attempts fail,
    counted from [retries] failures and bar position [n]. *)
Fixpoint failed_attempts (k retries : nat) (n : Z) : list event :=
  match k with
  | O => []
  | S k' =>
      let n' := n + Z.of_nat (S retries) * 3 in
      Connect MonitoringConn :: Bar WaitingBar n' :: Sleep 2
        :: failed_attempts k' (S retries) n'
  end.

(** The classification [execute_clone] applies to an exception of the clone
    statement: class [OperationalError] and "Lost connection" in its text. *)
Definition expected_disconnect (e : exc) : bool :=
  is_OperationalError e && str_contains "Lost connection" (exc_str e).

(** Everything before the clone statement in [execute_clone] goes through. *)
Definition reaches_dispatch (w : world) : Prop :=
  (∃ d v, w_datadir w = Ok (Some d) ∧ d !! "datadir" = Some v)
  ∧ w_set_donor w = Ok tt
  ∧ w_ssh_connect w = Ok tt
  ∧ w_ssh_exec w = Ok tt.

(** The session once [ssh_connect] has created its client. *)
Definition with_ssh (s : session) : session :=
  {| source_conn := source_conn s; target_conn := target_conn s; ssh_client := true |}.

(** The events of [execute_clone] up to and including the clone statement. *)
Definition dispatch_trace (cfg : config) : list event :=
  [Print LStartingCloneOperation;
   Execute TargetConn SelectDatadir;
   Execute TargetConn (donor_stmt cfg);
   SshConnect (target_host cfg);
   Print (LSshConnected (target_host cfg));
   SshExec (watcher_command cfg);
   Print (LStartingClone (source_host cfg) (target_host cfg));
   Execute TargetConn (clone_stmt cfg)].

(** The events of [execute_clone] when the SSH connection raises [e]. *)
Definition ssh_failure_trace (cfg : config) (e : exc) : list event :=
  [Print LStartingCloneOperation;
   Execute TargetConn SelectDatadir;
   Execute TargetConn (donor_stmt cfg);
   SshConnect (target_host cfg);
   Print (LSshError (target_host cfg) e);
   Print LCannotSsh].

Definition map_outcome {A B} (f : A → B) (o : outcome A) : outcome B :=
  match o with
  | Ret a => Ret (f a)
  | Raise e => Raise e
  | Exit c => Exit c
  | Starved => Starved
  end.

(** No run of [m] emits an event satisfying [p]. *)
Definition quiet {A} (p : event → bool) (m : M A) : Prop :=
  ∀ s, none_of p (trace_of (m s)).

(** [main] aborts: its body exits with status 1 after the trace [t], and the
    process ends with status 1 once [cleanup] has closed the handles. *)
Definition aborts_with (cfg : config) (w : world) (force : bool) (ses : session)
    (t : list event) : Prop :=
  (∃ s1, main_body cfg w force ses = (t, s1, Exit 1))
  ∧ exit_status (outcome_of (main cfg w force ses)) = Some 1
  ∧ ∃ tc, trace_of (main cfg w force ses) = t ++ tc ∧ none_of (λ e, negb (is_cleanup_event e)) tc.

(** ** Sample data *)

Definition cfg0 : config := {|
  source_host := "db-b"; source_port := 33306;
  source_user := "cloner"; source_password := "pw";
  target_host := "db-c"; target_port := 33306;
  target_user := "admin"; target_password := "secret"
|}.

Definition plugin_row (st : string) : row :=
  {[ "PLUGIN_NAME" := VStr "clone"; "PLUGIN_STATUS" := VStr st ]}.

Definition task (estimated done : Z) : row :=
  {[ "WORK_ESTIMATED" := VInt estimated; "WORK_COMPLETED" := VInt done ]}.

Definition status_row (state : string) (error_no : Z) (msg : pyval) : row :=
  {[ "STATE" := VStr state; "ERROR_NO" := VInt error_no; "ERROR_MESSAGE" := msg ]}.

Definition busy_session : row :=
  {[ "ID" := VInt 42; "USER" := VStr "app"; "HOST" := VStr "10.0.0.9:51234";
     "DB" := VStr "shop"; "COMMAND" := VStr "Query"; "TIME" := VInt 3;
     "STATE" := VStr "executing"; "INFO" := VStr "SELECT 1" ]}.

Definition lost_connection : exc :=
  Exc OperationalError (VInt 2013)
      "(2013, 'Lost connection to MySQL server during query')".

Definition connection_refused : exc :=
  Exc OperationalError (VInt 2003) "(2003, 'Connection refused')".

Definition access_denied : exc :=
  Exc OperationalError (VInt 1045) "(1045, 'Access denied for user')".

Definition clone_not_permitted : exc :=
  Exc OperationalError (VInt 3869) "(3869, 'Clone system configuration: donor not valid')".

Definition ssh_timeout : exc :=
  Exc OtherException (VStr "timed out") "timed out".

Definition in_progress : option row := Some (status_row "In Progress" 0 VNone).

Definition sample_40 : sample :=
  {| progress := Ok [task 100 40]; status := Ok in_progress |}.

Definition sample_50 : sample :=
  {| progress := Ok [task 100 50]; status := Ok in_progress |}.

Definition sample_25 : sample :=
  {| progress := Ok [task 100 25]; status := Ok in_progress |}.

Definition sample_empty : sample :=
  {| progress := Ok []; status := Ok None |}.

Definition sample_done : sample :=
  {| progress := Ok []; status := Ok (Some (status_row "Completed" 0 VNone)) |}.

Definition sample_failed : sample :=
  {| progress := Ok [task 100 40];
     status := Ok (Some (status_row "Failed" 3862 (VStr "disk full"))) |}.

Definition sample_failed_no_rows : sample :=
  {| progress := Ok [];
     status := Ok (Some (status_row "Failed" 3862 (VStr "disk full"))) |}.

(** A run in which everything goes well: the clone statement loses the
    connection, the target is back at the third attempt, three polls. *)
Definition healthy : world := {|
  w_connect_source := Ok tt;
  w_connect_target := Ok tt;
  w_plugin := λ _, Ok (Some (plugin_row "ACTIVE"));
  w_processlist := Ok [];
  w_datadir := Ok (Some {[ "datadir" := VStr "/var/lib/mysql/" ]});
  w_set_donor := Ok tt;
  w_ssh_connect := Ok tt;
  w_ssh_exec := Ok tt;
  w_clone := Err lost_connection;
  w_reconnect := λ k, if (k <? 2)%nat then Err connection_refused else Ok tt;
  w_samples := [sample_40; sample_50; sample_done];
  w_validate_connect := Ok tt;
  w_validate_status := Ok (Some (status_row "Completed" 0 VNone));
  w_server_info := Ok (Some {[ "version" := VStr "8.0.36"; "server_id" := VInt 7 ]});
  w_close := λ _, Ok tt;
  w_ssh_close := Ok tt
|}.

Definition with_samples (w : world) (ss : list sample) : world := {|
  w_connect_source := w_connect_source w;
  w_connect_target := w_connect_target w;
  w_plugin := w_plugin w;
  w_processlist := w_processlist w;
  w_datadir := w_datadir w;
  w_set_donor := w_set_donor w;
  w_ssh_connect := w_ssh_connect w;
  w_ssh_exec := w_ssh_exec w;
  w_clone := w_clone w;
  w_reconnect := w_reconnect w;
  w_samples := ss;
  w_validate_connect := w_validate_connect w;
  w_validate_status := w_validate_status w;
  w_server_info := w_server_info w;
  w_close := w_close w;
  w_ssh_close := w_ssh_close w
|}.

(** The SSH connection to the target host times out. *)
Definition ssh_down : world := {|
  w_connect_source := Ok tt;
  w_connect_target := Ok tt;
  w_plugin := λ _, Ok (Some (plugin_row "ACTIVE"));
  w_processlist := Ok [];
  w_datadir := Ok (Some {[ "datadir" := VStr "/var/lib/mysql/" ]});
  w_set_donor := Ok tt;
  w_ssh_connect := Err ssh_timeout;
  w_ssh_exec := Ok tt;
  w_clone := Err lost_connection;
  w_reconnect := λ _, Ok tt;
  w_samples := [sample_done];
  w_validate_connect := Ok tt;
  w_validate_status := Ok (Some (status_row "Completed" 0 VNone));
  w_server_info := Ok (Some {[ "version" := VStr "8.0.36"; "server_id" := VInt 7 ]});
  w_close := λ _, Ok tt;
  w_ssh_close := Ok tt
|}.

(** The target never accepts a connection again after the clone statement. *)
Definition never_back : world := {|
  w_connect_source := Ok tt;
  w_connect_target := Ok tt;
  w_plugin := λ _, Ok (Some (plugin_row "ACTIVE"));
  w_processlist := Ok [];
  w_datadir := Ok (Some {[ "datadir" := VStr "/var/lib/mysql/" ]});
  w_set_donor := Ok tt;
  w_ssh_connect := Ok tt;
  w_ssh_exec := Ok tt;
  w_clone := Err lost_connection;
  w_reconnect := λ _, Err connection_refused;
  w_samples := [];
  w_validate_connect := Err connection_refused;
  w_validate_status := Ok None;
  w_server_info := Ok None;
  w_close := λ _, Ok tt;
  w_ssh_close := Ok tt
|}.

(** The clone statement is rejected by the server. *)
Definition clone_rejected : world := {|
  w_connect_source := Ok tt;
  w_connect_target := Ok tt;
  w_plugin := λ _, Ok (Some (plugin_row "ACTIVE"));
  w_processlist := Ok [];
  w_datadir := Ok (Some {[ "datadir" := VStr "/var/lib/mysql/" ]});
  w_set_donor := Ok tt;
  w_ssh_connect := Ok tt;
  w_ssh_exec := Ok tt;
  w_clone := Err clone_not_permitted;
  w_reconnect := λ _, Ok tt;
  w_samples := [sample_done];
  w_validate_connect := Ok tt;
  w_validate_status := Ok None;
  w_server_info := Ok None;
  w_close := λ _, Ok tt;
  w_ssh_close := Ok tt
|}.

(** Neither database can be reached and no plugin is installed. *)
Definition all_down : world := {|
  w_connect_source := Err connection_refused;
  w_connect_target := Err access_denied;
  w_plugin := λ _, Ok None;
  w_processlist := Ok [busy_session];
  w_datadir := Ok None;
  w_set_donor := Ok tt;
  w_ssh_connect := Err ssh_timeout;
  w_ssh_exec := Ok tt;
  w_clone := Err lost_connection;
  w_reconnect := λ _, Err connection_refused;
  w_samples := [];
  w_validate_connect := Err connection_refused;
  w_validate_status := Ok None;
  w_server_info := Ok None;
  w_close := λ _, Ok tt;
  w_ssh_close := Ok tt
|}.

(** Healthy, but the target has a busy session. *)
Definition busy_target : world := {|
  w_connect_source := Ok tt;
  w_connect_target := Ok tt;
  w_plugin := λ _, Ok (Some (plugin_row "ACTIVE"));
  w_processlist := Ok [busy_session; busy_session];
  w_datadir := Ok (Some {[ "datadir" := VStr "/var/lib/mysql/" ]});
  w_set_donor := Ok tt;
  w_ssh_connect := Ok tt;
  w_ssh_exec := Ok tt;
  w_clone := Err lost_connection;
  w_reconnect := λ _, Ok tt;
  w_samples := [sample_done];
  w_validate_connect := Ok tt;
  w_validate_status := Ok (Some (status_row "Completed" 0 VNone));
  w_server_info := Ok (Some {[ "version" := VStr "8.0.36"; "server_id" := VInt 7 ]});
  w_close := λ _, Ok tt;
  w_ssh_close := Ok tt
|}.

(** Healthy connections, but the plugin is disabled on the target. *)
Definition plugin_disabled : world := {|
  w_connect_source := Ok tt;
  w_connect_target := Ok tt;
  w_plugin := λ c, match c with
                   | TargetConn => Ok (Some (plugin_row "DISABLED"))
                   | _ => Ok (Some (plugin_row "ACTIVE"))
                   end;
  w_processlist := Ok [busy_session];
  w_datadir := Ok (Some {[ "datadir" := VStr "/var/lib/mysql/" ]});
  w_set_donor := Ok tt;
  w_ssh_connect := Ok tt;
  w_ssh_exec := Ok tt;
  w_clone := Err lost_connection;
  w_reconnect := λ _, Ok tt;
  w_samples := [sample_done];
  w_validate_connect := Ok tt;
  w_validate_status := Ok (Some (status_row "Completed" 0 VNone));
  w_server_info := Ok (Some {[ "version" := VStr "8.0.36"; "server_id" := VInt 7 ]});
  w_close := λ _, Ok tt;
  w_ssh_close := Ok tt
|}.

(** The session and the trace of [preflight] when every check passes. *)
Definition connected : session :=
  {| source_conn := true; target_conn := true; ssh_client := false |}.

Definition preflight_passed : list event :=
  [Connect SourceConn; Print (LConnected Source "db-b" 33306);
   Connect TargetConn; Print (LConnected Target "db-c" 33306);
   Execute SourceConn SelectPlugin; Print (LPluginActive "source");
   Execute TargetConn SelectPlugin; Print (LPluginActive "target");
   Execute TargetConn (SelectProcesslist "admin"); Print LNoActive].

(** The first poll finds neither progress rows nor a status record; the
    second finds rows and a failed status. *)
Definition ambiguous_then_failed : world :=
  with_samples busy_target [sample_empty; sample_failed].

(** ** Further observations *)

(** The line the handler of [connect_to_source] and [connect_to_target]
    chooses for an exception. *)
Definition connect_error_line (sd : side) (host : string) (port : Z) (err : exc) : line :=
  if py_eq_int (exc_arg0 err) 1045 then LInvalidCredentials sd
  else if py_eq_int (exc_arg0 err) 2003 then LCannotConnect sd host port
  else LErrorConnecting sd err.

(** The keys the report of an active connection reads, in the order the
    f-string evaluates them. *)
Definition conn_keys : list string := ["ID"; "USER"; "HOST"; "DB"; "COMMAND"; "TIME"].

(** The first of those keys a row lacks. *)
Definition missing_key (c : row) : option string :=
  List.find (λ k, match c !! k with Some _ => false | None => true end) conn_keys.

(** The report line of a row that has them all. *)
Definition active_conn_line (c : row) : line :=
  LActiveConn (dict_get c "ID") (dict_get c "USER") (dict_get c "HOST")
              (dict_get c "DB") (dict_get c "COMMAND") (dict_get c "TIME").

Definition key_error (k : string) : exc := Exc KeyError (VStr k) ("'" +:+ k +:+ "'").

(** The close events [cleanup] owes a session. *)
Definition close_events (s : session) : list event :=
  (if source_conn s then [Close SourceConn] else [])
  ++ (if target_conn s then [Close TargetConn] else [])
  ++ (if ssh_client s then [SshClose] else []).

(** Number of events of a trace that satisfy [p]. *)
Definition count_events (p : event → bool) (t : list event) : nat :=
  length (List.filter p t).

Definition is_monitor_connect (e : event) : bool :=
  match e with
  | Connect MonitoringConn => true
  | _ => false
  end.

(** Seconds slept over a trace. *)
Fixpoint sleep_total (t : list event) : Z :=
  match t with
  | [] => 0
  | Sleep n :: t' => n + sleep_total t'
  | _ :: t' => sleep_total t'
  end.

(** The successive positions of the waiting bar. *)
Fixpoint waiting_positions (t : list event) : list Z :=
  match t with
  | [] => []
  | Bar WaitingBar n :: t' => n :: waiting_positions t'
  | _ :: t' => waiting_positions t'
  end.

(** Where [pbar.update(retries * 3)] has brought the waiting bar after [j]
    failures: 3 * (1 + ... + j). *)
Definition bar_after_failures (j : nat) : Z := 3 * (Z.of_nat j * (Z.of_nat j + 1) / 2).

(** The events of the polling loop. *)
Definition is_polling_event (e : event) : bool :=
  match e with
  | Print LFailedOrNoProgress | Print (LCloneFailed _) => true
  | Sleep _ => true
  | Execute MonitoringConn SelectCloneProgress => true
  | Execute MonitoringConn SelectCloneStatus => true
  | Bar CloneBar _ => true
  | _ => false
  end.

(** An integer work column of a progress row: absent counts as 0, NULL and
    text have no value. *)
Definition work (k : string) (r : row) : option Z :=
  match dict_get_default r k (VInt 0) with
  | VInt z => Some z
  | _ => None
  end.

Definition work_or_zero (k : string) (r : row) : Z := default 0 (work k r).

Definition total_of (k : string) (rows : list row) : Z :=
  foldr (λ r acc, work_or_zero k r + acc) 0 rows.

(** The statements the monitor may send and the other events it may
    produce. *)
Definition is_monitoring_event (e : event) : bool :=
  match e with
  | Print LCouldNotReconnect | Print LFailedOrNoProgress | Print (LCloneFailed _)
  | Print LCloneCompleted | Print (LErrorMonitoring _) => true
  | Sleep _ => true
  | Connect MonitoringConn => true
  | Execute MonitoringConn SelectCloneProgress => true
  | Execute MonitoringConn SelectCloneStatus => true
  | Close MonitoringConn => true
  | Bar _ _ => true
  | _ => false
  end.

(** Handles are only ever set, never cleared. *)
Definition session_le (s s' : session) : Prop :=
  (source_conn s = true → source_conn s' = true)
  ∧ (target_conn s = true → target_conn s' = true)
  ∧ (ssh_client s = true → ssh_client s' = true).

(** Every run of [m] relates the session before to the session after. *)
Definition keeps {A} (R : session → session → Prop) (m : M A) : Prop :=
  ∀ s, R s (session_of (m s)).

(** What a computation may do besides returning or raising: exit with a
    code satisfying [E], and wait for a further poll answer only if [S]. *)
Definition abnormal_ok {A} (E : Z → Prop) (S : Prop) (o : outcome A) : Prop :=
  match o with
  | Exit c => E c
  | Starved => S
  | _ => True
  end.

Definition ends {A} (E : Z → Prop) (S : Prop) (m : M A) : Prop :=
  ∀ s, abnormal_ok E S (outcome_of (m s)).

(** A float that is not negative (a NaN or infinity counts: [int] raises on
    them). *)
Definition nonneg_float (x : spec_float) : Prop :=
  match x with
  | S754_finite true _ _ => False
  | _ => True
  end.

(** The two lines with which [validate_clone] reports a failure. *)
Definition is_validation_failure (e : event) : bool :=
  match e with
  | Print (LValidationFailed _) | Print (LErrorDuringValidation _) => true
  | _ => false
  end.

(** The line of the handler of [validate_clone]. *)
Definition is_validation_error (e : event) : bool :=
  match e with
  | Print (LErrorDuringValidation _) => true
  | _ => false
  end.

(** Every [close()] of [cleanup] goes through. *)
Definition closes_fine (w : world) : Prop :=
  (∀ c, w_close w c = Ok tt) ∧ w_ssh_close w = Ok tt.

(** The clone is monitored to its end, but the status table then holds a
    failure. *)
Definition validation_fails : world := {|
  w_connect_source := Ok tt;
  w_connect_target := Ok tt;
  w_plugin := λ _, Ok (Some (plugin_row "ACTIVE"));
  w_processlist := Ok [];
  w_datadir := Ok (Some {[ "datadir" := VStr "/var/lib/mysql/" ]});
  w_set_donor := Ok tt;
  w_ssh_connect := Ok tt;
  w_ssh_exec := Ok tt;
  w_clone := Err lost_connection;
  w_reconnect := λ _, Ok tt;
  w_samples := [sample_done];
  w_validate_connect := Ok tt;
  w_validate_status := Ok (Some (status_row "Failed" 3862 (VStr "disk full")));
  w_server_info := Ok None;
  w_close := λ _, Ok tt;
  w_ssh_close := Ok tt
|}.

(** A process-list row without its DB column. *)
Definition truncated_session : row :=
  {[ "ID" := VInt 43; "USER" := VStr "app"; "HOST" := VStr "10.0.0.9:51300";
     "COMMAND" := VStr "Sleep"; "TIME" := VInt 9 ]}.

Definition truncated_processlist : world := {|
  w_connect_source := Ok tt;
  w_connect_target := Ok tt;
  w_plugin := λ _, Ok (Some (plugin_row "ACTIVE"));
  w_processlist := Ok [busy_session; truncated_session; busy_session];
  w_datadir := Ok (Some {[ "datadir" := VStr "/var/lib/mysql/" ]});
  w_set_donor := Ok tt;
  w_ssh_connect := Ok tt;
  w_ssh_exec := Ok tt;
  w_clone := Err lost_connection;
  w_reconnect := λ _, Ok tt;
  w_samples := [sample_done];
  w_validate_connect := Ok tt;
  w_validate_status := Ok (Some (status_row "Completed" 0 VNone));
  w_server_info := Ok (Some {[ "version" := VStr "8.0.36"; "server_id" := VInt 7 ]});
  w_close := λ _, Ok tt;
  w_ssh_close := Ok tt
|}.

(** A stage whose estimate is still NULL. *)
Definition null_estimate : row :=
  {[ "WORK_ESTIMATED" := VNone; "WORK_COMPLETED" := VInt 0 ]}.

Definition sample_null : sample :=
  {| progress := Ok [task 100 40; null_estimate]; status := Ok in_progress |}.

Definition null_stage : world := with_samples busy_target [sample_null].

(** * Properties *)

(** ** The model at work *)

(** The percentage goes through binary64: 29/100 is just below 0.29, so the
    product is just below 29 and truncates to 28. *)
Example percent_truncates : progress_percent_of 29 100 = Ok 28.
Proof. vm_compute. reflexivity. Qed.

Example percent_is_capped : progress_percent_of 250 100 = Ok 100.
Proof. vm_compute. reflexivity. Qed.

Example healthy_run :
  exit_status (outcome_of (main cfg0 healthy false fresh_session)) = Some 0
  ∧ bar_positions (trace_of (main cfg0 healthy false fresh_session)) = [40; 50; 100]
  ∧ In (Print LCloneCompleted) (trace_of (main cfg0 healthy false fresh_session)).
Proof. vm_compute. repeat split. tauto. Qed.

Example could_not_reconnect_text :
  render LCouldNotReconnect
  = "❌ Could not reconnect to target database after clone started".
Proof. reflexivity. Qed.

Example unknown_error_text :
  render (LValidationFailed (failure_message None))
  = "❌ Clone validation failed: Unknown error".
Proof. reflexivity. Qed.

Example clone_failed_text :
  render (LCloneFailed (VStr "disk full")) = "❌ Clone operation failed: disk full".
Proof. reflexivity. Qed.

(** ** Dictionaries *)

Lemma dict_truthy_lookup (d : row) k v : d !! k = Some v → dict_truthy d = true.
Proof.
  intros H. apply bool_decide_eq_true. intros ->. by rewrite lookup_empty in H.
Qed.

Lemma dict_get_lookup (d : row) k v : d !! k = Some v → dict_get d k = v.
Proof. unfold dict_get. by intros ->. Qed.

Lemma py_eq_int_true v z : py_eq_int v z = true ↔ v = VInt z.
Proof.
  destruct v; simpl; try (split; [done | congruence]).
  rewrite bool_decide_eq_true. split; congruence.
Qed.

Lemma py_eq_str_true v s : py_eq_str v s = true ↔ v = VStr s.
Proof.
  destruct v; simpl; try (split; [done | congruence]).
  rewrite bool_decide_eq_true. split; congruence.
Qed.

Lemma dict_get_int (d : row) k z : dict_get d k = VInt z ↔ d !! k = Some (VInt z).
Proof.
  unfold dict_get. destruct (d !! k); simpl; split; congruence.
Qed.

Lemma dict_get_str (d : row) k s : dict_get d k = VStr s ↔ d !! k = Some (VStr s).
Proof.
  unfold dict_get. destruct (d !! k); simpl; split; congruence.
Qed.

Lemma status_error_free_spec st_row :
  status_error_free st_row = true ↔ ∃ d, st_row = Some d ∧ d !! "ERROR_NO" = Some (VInt 0).
Proof.
  unfold status_error_free. split.
  - destruct st_row as [d|]; [|done]. intros [_ H]%andb_true_iff.
    exists d. split; [done|]. by apply dict_get_int, py_eq_int_true.
  - intros (d & -> & H). apply andb_true_iff. split.
    + by eapply dict_truthy_lookup.
    + by apply py_eq_int_true, dict_get_int.
Qed.

(** ** Counting in traces *)

Lemma failure_diagnostics_app t1 t2 :
  failure_diagnostics (t1 ++ t2) = (failure_diagnostics t1 + failure_diagnostics t2)%nat.
Proof. unfold failure_diagnostics. by rewrite List.filter_app, length_app. Qed.

Lemma no_progress_le_failure t : (no_progress_diagnostics t ≤ failure_diagnostics t)%nat.
Proof.
  unfold no_progress_diagnostics, failure_diagnostics.
  induction t as [|e t IH]; simpl; [lia|].
  destruct e as [l| | | | | | | |]; simpl; try lia. destruct l; simpl; lia.
Qed.

Lemma failure_diagnostics_zero t :
  failure_diagnostics t = 0%nat → none_of is_failure_diagnostic t.
Proof.
  unfold failure_diagnostics, none_of. induction t as [|e t IH]; simpl; [constructor|].
  destruct (is_failure_diagnostic e) eqn:E; simpl; [lia|]. intros H. constructor; auto.
Qed.

(** ** The polling loop *)

Ltac munfold :=
  unfold poll_cycle, poll_no_progress, poll_with_progress, pbar_update, print, call,
    iadd, mbind, M_bind, mret, M_ret, bind, ret, emit, raise, starve in *.

Lemma monitor_loop_completed samples st ses :
  completed st = true → monitor_loop samples st ses = ([], ses, Ret st).
Proof. intros H. destruct samples; simpl; by rewrite H. Qed.

(** Summing the work columns prints nothing and either returns or raises. *)
Lemma sum_work_run progress_data total_work completed_work ses :
  (∃ tw cw, sum_work progress_data total_work completed_work ses = ([], ses, Ret (tw, cw)))
  ∨ (∃ e, sum_work progress_data total_work completed_work ses = ([], ses, Raise e)).
Proof.
  revert total_work completed_work.
  induction progress_data as [|task rest IH]; intros tw cw; cbn [sum_work].
  - left. by exists tw, cw.
  - munfold.
    destruct (dict_get_default task "WORK_ESTIMATED" (VInt 0)) as [|z1|]; simpl;
      [right; eexists; reflexivity| |right; eexists; reflexivity].
    destruct (dict_get_default task "WORK_COMPLETED" (VInt 0)) as [|z2|]; simpl;
      [right; eexists; reflexivity| |right; eexists; reflexivity].
    destruct (IH (tw + z1) (cw + z2)) as [(a & b & ->)|(e & ->)]; simpl;
      [left; by exists a, b | right; by exists e].
Qed.

Arguments sum_work : simpl never.

Ltac diag_close :=
  unfold trace_of, session_of, outcome_of, failure_diagnostics; simpl;
  split; [reflexivity | split; [lia | try done; intros ? [= <-]; reflexivity]].

Ltac poll_split :=
  repeat match goal with
  | |- context [0 <? ?tw] => destruct (0 <? tw); simpl
  | |- context [progress_percent_of ?a ?b] => destruct (progress_percent_of a b); simpl
  | |- context [match ?sr with Ok _ => _ | Err _ => _ end] =>
      is_var sr; destruct sr; simpl
  | |- context [fetched_truthy ?r] => destruct (fetched_truthy r); simpl
  | |- context [status_error_free ?r] => destruct (status_error_free r); simpl
  | |- context [py_eq_str ?v ?s] => destruct (py_eq_str v s); simpl
  end.

(** What one poll cycle can do to the failure flag and how many failure
    diagnostics it prints. *)
Lemma poll_cycle_diagnostics smp st ses :
  let r := poll_cycle smp st ses in
  session_of r = ses
  ∧ (failure_diagnostics (trace_of r) ≤ if error_reported st then 0 else 1)%nat
  ∧ ∀ st', outcome_of r = Ret st' →
      error_reported st' = (error_reported st || (0 <? failure_diagnostics (trace_of r))%nat).
Proof.
  destruct smp as [pr sr], st as [n c er]. munfold. simpl.
  destruct pr as [[|task rest]|e]; simpl.
  - destruct sr as [st_row|e]; simpl; [|destruct er; diag_close].
    destruct (status_error_free st_row); simpl; destruct er; diag_close.
  - destruct (sum_work_run (task :: rest) 0 0 ses) as [(tw & cw & Hs)|(e & Hs)];
      unfold mbind, M_bind, bind, mret, M_ret, ret in Hs; rewrite Hs; simpl;
      [|destruct er; diag_close].
    destruct er; poll_split; diag_close.
  - destruct er; diag_close.
Qed.

Lemma monitor_loop_diagnostics samples st ses :
  (failure_diagnostics (trace_of (monitor_loop samples st ses))
   ≤ if error_reported st then 0 else 1)%nat.
Proof.
  revert st ses. induction samples as [|smp rest IH]; intros st ses; simpl.
  - destruct (completed st), (error_reported st); unfold failure_diagnostics; simpl; lia.
  - destruct (completed st) eqn:Hc.
    { destruct (error_reported st); unfold failure_diagnostics; simpl; lia. }
    destruct (poll_cycle_diagnostics smp st ses) as (Hs & Hn & Hf).
    unfold mbind, M_bind, bind.
    destruct (poll_cycle smp st ses) as [[t s1] o] eqn:Hp.
    unfold trace_of, session_of, outcome_of in *; simpl in *.
    destruct o as [st'| | |]; simpl; try done.
    specialize (IH st' s1). specialize (Hf st' eq_refl).
    destruct (monitor_loop rest st' s1) as [[t' s2] o'] eqn:Hm. simpl in *.
    rewrite failure_diagnostics_app. rewrite Hf in IH.
    destruct (error_reported st); simpl in *; [lia|].
    destruct (failure_diagnostics t) as [|[|k]]; simpl in *; lia.
Qed.

Lemma failed_attempts_diagnostics k retries n :
  failure_diagnostics (failed_attempts k retries n) = 0%nat.
Proof. revert retries n. induction k as [|k IH]; intros retries n; [done|]. apply IH. Qed.

(** The reconnection loop: some attempts fail, then one succeeds or the
    budget is used up. *)
Lemma wait_online_run w budget retries n ses :
  ∃ (k : nat) (b : bool),
    (k ≤ budget)%nat
    ∧ wait_online w budget retries n ses
      = (failed_attempts k retries n ++ (if b then [Connect MonitoringConn] else []),
         ses, Ret b).
Proof.
  revert retries n. induction budget as [|budget IH]; intros retries n; simpl.
  - exists 0%nat, false. split; [lia|done].
  - munfold. destruct (w_reconnect w retries) as [u|e]; simpl.
    + exists 0%nat, true. split; [lia|done].
    + destruct (IH (S retries) (n + Z.of_nat (S retries) * 3)) as (k & b & Hk & ->).
      exists (S k), b. split; [lia|done].
Qed.

Lemma wait_online_all_fail w budget retries n ses :
  (∀ k : nat, (retries ≤ k < retries + budget)%nat → ∃ e, w_reconnect w k = Err e) →
  wait_online w budget retries n ses = (failed_attempts budget retries n, ses, Ret false).
Proof.
  revert retries n. induction budget as [|budget IH]; intros retries n H; simpl; [done|].
  munfold. destruct (H retries) as [e ->]; [lia|]. simpl.
  rewrite IH; [done|]. intros k Hk. apply H. lia.
Qed.

Arguments wait_online : simpl never.

Lemma monitor_diagnostics w ses :
  (failure_diagnostics (trace_of (_monitor_clone_progress w ses)) ≤ 1)%nat.
Proof.
  unfold _monitor_clone_progress, try_except. munfold.
  destruct (wait_online_run w max_retries 0 0 ses) as (k & b & _ & ->). simpl.
  pose proof (failed_attempts_diagnostics k 0 0) as Hk.
  destruct b; simpl.
  - pose proof (monitor_loop_diagnostics (w_samples w) mon_init ses) as Hl.
    destruct (monitor_loop (w_samples w) mon_init ses) as [[t s] o]. simpl in *.
    unfold trace_of in *; simpl in *.
    destruct o as [st| | |]; simpl; [destruct (completed st)| destruct (is_Exception e) | |];
      simpl; change (Sleep 5 :: ?l) with ([Sleep 5] ++ l);
      rewrite !failure_diagnostics_app, ?Hk; unfold failure_diagnostics at 1; simpl;
      rewrite ?failure_diagnostics_app; unfold failure_diagnostics in *; simpl; lia.
  - unfold trace_of; simpl. rewrite app_nil_r.
    change (Sleep 5 :: ?l) with ([Sleep 5] ++ l).
    rewrite !failure_diagnostics_app, ?Hk. unfold failure_diagnostics; simpl. lia.
Qed.

(** ** Poll cycles without progress rows *)

(** C8.  In a poll cycle whose progress query returns no rows the status
    query follows at once.  A status record with [ERROR_NO] 0 ends the loop
    as completed with the bar at 100.  In every other case the diagnostic
    "Clone operation failed or no progress data available" is printed unless
    the failure flag is already set, and the loop goes on with the next
    cycle; over any run of the loop that diagnostic is printed at most
    once. *)
Theorem no_progress_rows_resolved_by_status smp st ses st_row rest :
  completed st = false →
  progress smp = Ok [] →
  status smp = Ok st_row →
  let queries := [Execute MonitoringConn SelectCloneProgress;
                  Execute MonitoringConn SelectCloneStatus] in
  ((∃ d, st_row = Some d ∧ d !! "ERROR_NO" = Some (VInt 0)) →
     monitor_loop (smp :: rest) st ses
     = (queries ++ [Bar CloneBar 100; Sleep 2], ses,
        Ret {| pbar_n := 100; completed := true; error_reported := error_reported st |}))
  ∧ (¬ (∃ d, st_row = Some d ∧ d !! "ERROR_NO" = Some (VInt 0)) →
     monitor_loop (smp :: rest) st ses
     = prepend (queries
                ++ (if error_reported st then [] else [Print LFailedOrNoProgress])
                ++ [Sleep 2])
               (monitor_loop rest (set_error_reported st) ses))
  ∧ (∀ samples st0 ses0,
       (no_progress_diagnostics (trace_of (monitor_loop samples st0 ses0)) ≤ 1)%nat).
Proof.
  intros Hc Hp Hs queries. split; [|split].
  - intros He%status_error_free_spec. simpl. rewrite Hc. munfold.
    rewrite Hp. simpl. rewrite Hs. simpl. rewrite He. simpl.
    rewrite monitor_loop_completed by done.
    replace (pbar_n st + (100 - pbar_n st)) with 100 by lia. done.
  - intros He. assert (status_error_free st_row = false) as He'.
    { destruct (status_error_free st_row) eqn:E; [|done].
      by apply status_error_free_spec in E. }
    simpl. rewrite Hc. munfold. rewrite Hp. simpl. rewrite Hs. simpl. rewrite He'.
    destruct st as [n c [|]]; simpl in *; subst c; unfold prepend, set_error_reported; simpl;
      by destruct (monitor_loop rest _ ses) as [[t s] o].
  - intros samples st0 ses0.
    etrans; [apply no_progress_le_failure|].
    etrans; [apply monitor_loop_diagnostics|]. destruct (error_reported st0); lia.
Qed.

(** A completed status ends the loop at once; an absent one is reported and
    the next cycle is polled. *)
Lemma no_progress_rows_resolved_by_status_witness :
  monitor_loop [sample_done] mon_init fresh_session
  = ([Execute MonitoringConn SelectCloneProgress; Execute MonitoringConn SelectCloneStatus;
      Bar CloneBar 100; Sleep 2],
     fresh_session,
     Ret {| pbar_n := 100; completed := true; error_reported := false |})
  ∧ monitor_loop [sample_empty; sample_done] mon_init fresh_session
    = prepend [Execute MonitoringConn SelectCloneProgress;
               Execute MonitoringConn SelectCloneStatus;
               Print LFailedOrNoProgress; Sleep 2]
              (monitor_loop [sample_done] (set_error_reported mon_init) fresh_session).
Proof.
  split.
  - apply (proj1 (no_progress_rows_resolved_by_status sample_done mon_init fresh_session
                    (Some (status_row "Completed" 0 VNone)) [] eq_refl eq_refl eq_refl)).
    exists (status_row "Completed" 0 VNone). split; reflexivity.
  - apply (proj1 (proj2 (no_progress_rows_resolved_by_status sample_empty mon_init
                    fresh_session None [sample_done] eq_refl eq_refl eq_refl))).
    intros (d & Hd & _). discriminate Hd.
Defined.

(** ** The shared failure flag *)

Lemma failure_diagnostics_split t1 e t2 :
  is_failure_diagnostic e = true →
  (failure_diagnostics (t1 ++ e :: t2) ≤ 1)%nat →
  none_of is_failure_diagnostic (t1 ++ t2).
Proof.
  intros He H. apply failure_diagnostics_zero.
  change (e :: t2) with ([e] ++ t2) in H.
  rewrite !failure_diagnostics_app in *.
  unfold failure_diagnostics at 2 in H. simpl in H. rewrite He in H. simpl in H. lia.
Qed.

(** C10.  One flag, [error_reported], guards both failure diagnostics of the
    polling loop: a run of [_monitor_clone_progress] prints at most one of
    them in total; when the diagnostic of the branch without rows is in the
    trace, no error message of a failed status record is printed anywhere in
    it; and a loop entered with the flag set prints neither. *)
Theorem single_flag_governs_failure_reports w ses :
  let t := trace_of (_monitor_clone_progress w ses) in
  (failure_diagnostics t ≤ 1)%nat
  ∧ (∀ t1 t2, t = t1 ++ Print LFailedOrNoProgress :: t2 →
       ∀ msg, ¬ In (Print (LCloneFailed msg)) (t1 ++ t2))
  ∧ (∀ samples st ses',
       error_reported st = true →
       failure_diagnostics (trace_of (monitor_loop samples st ses')) = 0%nat).
Proof.
  intros t. split; [apply monitor_diagnostics|split].
  - intros t1 t2 Ht msg Hin.
    pose proof (monitor_diagnostics w ses) as Hle. fold t in Hle. rewrite Ht in Hle.
    apply failure_diagnostics_split in Hle; [|done].
    unfold none_of in Hle. rewrite List.Forall_forall in Hle.
    specialize (Hle _ Hin). done.
  - intros samples st ses' Her.
    pose proof (monitor_loop_diagnostics samples st ses') as H. rewrite Her in H. lia.
Qed.

(** The ambiguous read comes first, the failed status after it: its message
    is not printed. *)
Lemma single_flag_governs_failure_reports_witness :
  let t1 := [Sleep 5; Connect MonitoringConn; Execute MonitoringConn SelectCloneProgress;
             Execute MonitoringConn SelectCloneStatus] in
  let t2 := [Sleep 2; Execute MonitoringConn SelectCloneProgress; Bar CloneBar 40;
             Execute MonitoringConn SelectCloneStatus; Sleep 2] in
  trace_of (_monitor_clone_progress ambiguous_then_failed fresh_session)
  = t1 ++ Print LFailedOrNoProgress :: t2
  ∧ (failure_diagnostics
       (trace_of (_monitor_clone_progress ambiguous_then_failed fresh_session)) ≤ 1)%nat
  ∧ ∀ msg, ¬ In (Print (LCloneFailed msg)) (t1 ++ t2).
Proof.
  intros t1 t2.
  destruct (single_flag_governs_failure_reports ambiguous_then_failed fresh_session)
    as (H1 & H2 & _).
  split; [reflexivity|]. split; [exact H1|].
  exact (H2 t1 t2 eq_refl).
Defined.

(** ** A failed status record *)

Lemma poll_cycle_step smp st ses t ses' st' rest :
  completed st = false →
  poll_cycle smp st ses = (t, ses', Ret st') →
  monitor_loop (smp :: rest) st ses = prepend t (monitor_loop rest st' ses').
Proof.
  intros Hc Hp. simpl. rewrite Hc. unfold mbind, M_bind, bind. rewrite Hp.
  unfold prepend. by destruct (monitor_loop rest st' ses') as [[t' s2] o].
Qed.

(** C1, as stated, fails: after three cycles that each read a status record
    with STATE 'Failed' the loop still asks for the next poll, and when the
    progress query returns no rows the record's error message is not printed
    at all. *)
Lemma failed_status_does_not_end_monitoring :
  let r := monitor_loop [sample_failed; sample_failed; sample_failed] mon_init fresh_session in
  let r' := monitor_loop [sample_failed_no_rows; sample_failed_no_rows] mon_init fresh_session in
  outcome_of r = Starved
  ∧ failure_diagnostics (trace_of r) = 1%nat
  ∧ outcome_of r' = Starved
  ∧ ¬ In (Print (LCloneFailed (VStr "disk full"))) (trace_of r').
Proof.
  vm_compute. repeat split. intuition discriminate.
Qed.

(** C1, amended.  In a poll cycle that returns, with progress rows and a
    status record whose STATE is 'Failed', the record's error message is
    printed exactly when no failure diagnostic was printed before, the
    failure flag is set afterwards, [completed] is unchanged and the loop goes
    on with the next cycle. *)
Theorem failed_status_reported_once_polling_continues
    smp st ses rows d t ses' st' :
  progress smp = Ok rows →
  rows ≠ [] →
  status smp = Ok (Some d) →
  d !! "STATE" = Some (VStr "Failed") →
  poll_cycle smp st ses = (t, ses', Ret st') →
  completed st' = completed st
  ∧ error_reported st' = true
  ∧ (if error_reported st
     then failure_diagnostics t = 0%nat
     else ∃ t1, t = t1 ++ [Print (LCloneFailed (dict_get d "ERROR_MESSAGE")); Sleep 2]
                ∧ failure_diagnostics t1 = 0%nat)
  ∧ (completed st = false →
     ∀ rest, monitor_loop (smp :: rest) st ses = prepend t (monitor_loop rest st' ses')).
Proof.
  intros Hp Hrows Hs Hd Hrun.
  assert (completed st' = completed st ∧ error_reported st' = true
          ∧ (if error_reported st
             then failure_diagnostics t = 0%nat
             else ∃ t1, t = t1 ++ [Print (LCloneFailed (dict_get d "ERROR_MESSAGE")); Sleep 2]
                        ∧ failure_diagnostics t1 = 0%nat)) as (H1 & H2 & H3).
  { revert Hrun. munfold. rewrite Hp. simpl.
    destruct rows as [|task rest]; [done|].
    destruct (sum_work_run (task :: rest) 0 0 ses) as [(tw & cw & Hw)|(e & Hw)];
      unfold mbind, M_bind, bind, mret, M_ret, ret in Hw; rewrite Hw; simpl; [|done].
    rewrite Hs. unfold fetched_truthy. rewrite (dict_truthy_lookup _ _ _ Hd).
    cbn [default from_option id]. rewrite (dict_get_lookup _ _ _ Hd).
    change (py_eq_str (VStr "Failed") "Completed") with false.
    change (py_eq_str (VStr "Failed") "Failed") with true.
    destruct st as [n c er]. simpl.
    destruct (0 <? tw); simpl;
      [destruct (progress_percent_of cw tw) as [p|e]; simpl; [|done]|];
      destruct er; simpl; intros [= <- <- <-]; simpl; repeat split; try done.
    - by exists [Execute MonitoringConn SelectCloneProgress; Bar CloneBar (n + (p - n));
                 Execute MonitoringConn SelectCloneStatus].
    - by exists [Execute MonitoringConn SelectCloneProgress;
                 Execute MonitoringConn SelectCloneStatus]. }
  repeat split; try done.
  intros Hc rest. by apply poll_cycle_step.
Qed.

(** The first failed cycle prints the message and polling goes on. *)
Lemma failed_status_reported_once_polling_continues_witness :
  let st' := {| pbar_n := 40; completed := false; error_reported := true |} in
  let t := [Execute MonitoringConn SelectCloneProgress; Bar CloneBar 40;
            Execute MonitoringConn SelectCloneStatus;
            Print (LCloneFailed (VStr "disk full")); Sleep 2] in
  poll_cycle sample_failed mon_init fresh_session = (t, fresh_session, Ret st')
  ∧ completed st' = false
  ∧ error_reported st' = true
  ∧ monitor_loop [sample_failed; sample_failed] mon_init fresh_session
    = prepend t (monitor_loop [sample_failed] st' fresh_session).
Proof.
  intros st' t.
  assert (poll_cycle sample_failed mon_init fresh_session = (t, fresh_session, Ret st')) as Hrun
    by reflexivity.
  destruct (failed_status_reported_once_polling_continues
              sample_failed mon_init fresh_session [task 100 40]
              (status_row "Failed" 3862 (VStr "disk full")) t fresh_session st'
              eq_refl ltac:(discriminate) eq_refl eq_refl Hrun) as (H1 & H2 & _ & H4).
  split; [exact Hrun|]. split; [exact H1|]. split; [exact H2|].
  exact (H4 eq_refl [sample_failed]).
Defined.

(** ** The displayed percentage *)

(** C2, as stated, fails: a sample at 50% followed by one at 25% moves the
    bar from 50 back to 25. *)
Lemma displayed_percentage_moves_backward :
  bar_positions (trace_of (monitor_loop [sample_50; sample_25] mon_init fresh_session))
  = [50; 25].
Proof. vm_compute. reflexivity. Qed.

Lemma progress_percent_le p cw tw : progress_percent_of cw tw = Ok p → p ≤ 100.
Proof.
  unfold progress_percent_of. destruct (int_truediv cw tw); [|done].
  destruct (int_of_float _); [|done]. intros [= <-]. lia.
Qed.

(** What it takes for the branch [status.get('STATE') == 'Completed'] to be
    taken: a status record that holds that very STATE. *)
Lemma says_completed_spec st_row :
  fetched_truthy st_row && py_eq_str (dict_get (default ∅ st_row) "STATE") "Completed" = true
  ↔ ∃ d, st_row = Some d ∧ d !! "STATE" = Some (VStr "Completed").
Proof.
  split.
  - intros [Ht He]%andb_true_iff. destruct st_row as [d|]; [|done].
    exists d. split; [done|]. by apply dict_get_str, py_eq_str_true.
  - intros (d & -> & Hd). simpl. apply andb_true_iff. split.
    + by eapply dict_truthy_lookup.
    + by apply py_eq_str_true, dict_get_str.
Qed.

(** C2, amended.  After a poll cycle with progress rows whose estimated work
    sums to a positive total, the bar stands at that sample's percentage
    [min(int(completed / total * 100), 100)], whatever it showed before, and
    at 100 when the status record says 'Completed': the cycle sets the
    completed flag exactly when the record is there with STATE 'Completed',
    and then the bar is moved on to 100; the percentage is never above 100. *)
Theorem displayed_percentage_follows_latest_sample
    smp st ses rows tw cw p st_row :
  completed st = false →
  progress smp = Ok rows →
  rows ≠ [] →
  sum_work rows 0 0 ses = ([], ses, Ret (tw, cw)) →
  0 < tw →
  progress_percent_of cw tw = Ok p →
  status smp = Ok st_row →
  ∃ t st',
    poll_cycle smp st ses = (t, ses, Ret st')
    ∧ (completed st' = true
       ↔ ∃ d, st_row = Some d ∧ d !! "STATE" = Some (VStr "Completed"))
    ∧ bar_positions t = (if completed st' then [p; 100] else [p])
    ∧ pbar_n st' = (if completed st' then 100 else p)
    ∧ p ≤ 100.
Proof.
  intros Hc Hp Hrows Hw Htw Hpc Hs.
  pose proof (progress_percent_le _ _ _ Hpc) as Hle.
  pose proof (says_completed_spec st_row) as Hsays.
  munfold. rewrite Hp. simpl. destruct rows as [|task rest]; [done|].
  unfold mbind, M_bind, bind, mret, M_ret, ret in Hw; rewrite Hw; simpl.
  apply Z.ltb_lt in Htw. rewrite Htw, Hpc, Hs. simpl.
  destruct st as [n c er]. simpl in *. subst c.
  replace (n + (p - n)) with p by lia.
  destruct (fetched_truthy st_row); simpl in *.
  - destruct (py_eq_str _ "Completed"); simpl.
    + eexists _, _. split; [reflexivity|]. simpl.
      replace (p + (100 - p)) with 100 by lia. done.
    + destruct (py_eq_str _ "Failed" && negb er); simpl;
        eexists _, _; (split; [reflexivity|]); done.
  - eexists _, _. split; [reflexivity|]. done.
Qed.

(** A bar at 50 is set to 25 by a sample at 25% whose status record says
    'In Progress'. *)
Lemma displayed_percentage_follows_latest_sample_witness :
  ∃ t st',
    poll_cycle sample_25 {| pbar_n := 50; completed := false; error_reported := false |}
      fresh_session = (t, fresh_session, Ret st')
    ∧ (completed st' = true
       ↔ ∃ d, in_progress = Some d ∧ d !! "STATE" = Some (VStr "Completed"))
    ∧ bar_positions t = (if completed st' then [25; 100] else [25])
    ∧ pbar_n st' = (if completed st' then 100 else 25)
    ∧ 25 ≤ 100.
Proof.
  apply (displayed_percentage_follows_latest_sample
           sample_25 {| pbar_n := 50; completed := false; error_reported := false |}
           fresh_session [task 100 25] 100 25 25 in_progress);
    try reflexivity.
  discriminate.
Defined.

(** ** Runs of composed computations *)

Lemma prepend_nil {A} (r : list event * session * outcome A) : prepend [] r = r.
Proof. by destruct r as [[t s] o]. Qed.

Lemma prepend_prepend {A} t1 t2 (r : list event * session * outcome A) :
  prepend t1 (prepend t2 r) = prepend (t1 ++ t2) r.
Proof.
  destruct r as [[t s] o]. unfold prepend, trace_of, session_of, outcome_of; simpl.
  by rewrite app_assoc.
Qed.

Lemma bind_run_ret {A B} (m : M A) (f : A → M B) s t s1 a :
  m s = (t, s1, Ret a) → (m ≫= f) s = prepend t (f a s1).
Proof.
  intros H. unfold mbind, M_bind, bind. rewrite H.
  unfold prepend. by destruct (f a s1) as [[t' s2] o].
Qed.

Lemma mret_bind {A B} (a : A) (f : A → M B) s : (mret a ≫= f) s = f a s.
Proof. unfold mbind, M_bind, bind, mret, M_ret, ret. by destruct (f a s) as [[t s1] o]. Qed.

(** ** Trace safety *)

Section Quiet.
Variable p : event → bool.

Lemma quiet_ret {A} (a : A) : quiet p (mret a).
Proof. intros s. constructor. Qed.

Lemma quiet_emit e : p e = false → quiet p (emit e).
Proof. intros H s. by repeat constructor. Qed.

Lemma quiet_raise {A} e : quiet p (raise (A := A) e).
Proof. intros s. constructor. Qed.

Lemma quiet_sys_exit {A} c : quiet p (sys_exit (A := A) c).
Proof. intros s. constructor. Qed.

Lemma quiet_call {A} (r : result A) : quiet p (call r).
Proof. intros s. destruct r; constructor. Qed.

Lemma quiet_get_session : quiet p get_session.
Proof. intros s. constructor. Qed.

Lemma quiet_put_session s' : quiet p (put_session s').
Proof. intros s. constructor. Qed.

Lemma quiet_bind {A B} (m : M A) (f : A → M B) :
  quiet p m → (∀ a, quiet p (f a)) → quiet p (m ≫= f).
Proof.
  intros Hm Hf s. specialize (Hm s). unfold mbind, M_bind, bind, none_of, trace_of in *.
  destruct (m s) as [[t s1] [a|e|c|]]; simpl in *; try done.
  specialize (Hf a s1). unfold none_of, trace_of in Hf.
  destruct (f a s1) as [[t' s2] o]. simpl in *. by apply Forall_app.
Qed.

Lemma quiet_try_except {A} (m : M A) catches h :
  quiet p m → (∀ e, quiet p (h e)) → quiet p (try_except m catches h).
Proof.
  intros Hm Hh s. specialize (Hm s). unfold try_except, none_of, trace_of in *.
  destruct (m s) as [[t s1] [a|e|c|]]; simpl in *; try done.
  destruct (catches e); simpl; [|done].
  specialize (Hh e s1). unfold none_of, trace_of in Hh.
  destruct (h e s1) as [[t' s2] o]. simpl in *. by apply Forall_app.
Qed.

Lemma quiet_finally {A} (m : M A) c :
  quiet p m → quiet p c → quiet p (finally m c).
Proof.
  intros Hm Hc s. specialize (Hm s). unfold finally, none_of, trace_of in *.
  destruct (m s) as [[t s1] o]. simpl in *. specialize (Hc s1).
  unfold none_of, trace_of in Hc.
  destruct o as [a|e|c'|]; try done;
    destruct (c s1) as [[t' s2] [u|e'|c''|]]; simpl in *; by apply Forall_app.
Qed.
End Quiet.

Ltac quiet_step :=
  first
    [ apply quiet_ret | apply quiet_raise | apply quiet_sys_exit | apply quiet_call
    | apply quiet_get_session | apply quiet_put_session
    | apply quiet_emit; reflexivity
    | apply quiet_bind; [|intros ?]
    | apply quiet_try_except; [|intros ?]
    | apply quiet_finally
    | match goal with
      | |- quiet _ (if ?b then _ else _) => destruct b
      | |- quiet _ (match ?x with _ => _ end) => destruct x
      end ].

Ltac quiet_solve := repeat quiet_step.

Lemma connect_to_source_quiet cfg w : quiet is_dispatch (connect_to_source cfg w).
Proof.
  unfold connect_to_source, report_connect_error, set_source_conn, print. quiet_solve.
Qed.

Lemma connect_to_target_quiet cfg w : quiet is_dispatch (connect_to_target cfg w).
Proof.
  unfold connect_to_target, report_connect_error, set_target_conn, print. quiet_solve.
Qed.

Lemma getitem_quiet p d k : quiet p (getitem d k).
Proof. unfold getitem. quiet_solve. Qed.

Lemma fetched_getitem_quiet p r k : quiet p (fetched_getitem r k).
Proof. unfold fetched_getitem. destruct r; [apply getitem_quiet|apply quiet_raise]. Qed.

Lemma check_plugin_status_quiet w c host_type :
  quiet is_dispatch (check_plugin_status w c host_type).
Proof.
  unfold check_plugin_status, print.
  repeat first [apply fetched_getitem_quiet | quiet_step].
Qed.

Lemma cleanup_quiet w p :
  (∀ e, is_cleanup_event e = true → p e = false) → quiet p (cleanup w).
Proof.
  intros H. unfold cleanup.
  repeat first [apply quiet_emit; apply H; reflexivity | quiet_step].
Qed.

(** ** cleanup and the wrappers of main *)

Lemma cleanup_run w s :
  ∃ tc o,
    cleanup w s = (tc, s, o)
    ∧ none_of (λ e, negb (is_cleanup_event e)) tc
    ∧ (o = Ret tt ∨ ∃ e, o = Raise e).
Proof.
  unfold cleanup. munfold. unfold get_session. simpl.
  destruct s as [[|] [|] [|]]; simpl;
    destruct (w_close w SourceConn) as [[]|e1];
    destruct (w_close w TargetConn) as [[]|e2];
    destruct (w_ssh_close w) as [[]|e3]; simpl;
    eexists _, _; (split; [reflexivity|]); (split; [by repeat constructor|]); eauto.
Qed.

Lemma main_body_exit cfg w force ses t s1 :
  main_body cfg w force ses = (t, s1, Exit 1) → aborts_with cfg w force ses t.
Proof.
  intros H. split; [by exists s1|].
  unfold main, finally, try_except. rewrite H.
  destruct (cleanup_run w s1) as (tc & o & -> & Hq & Ho).
  unfold outcome_of, trace_of; simpl.
  destruct Ho as [->|[e ->]]; simpl; (split; [done|]); by exists tc.
Qed.

(** ** The pre-flight sequence *)

Ltac run_close :=
  rewrite ?prepend_prepend;
  unfold prepend, trace_of, session_of, outcome_of, mbind, M_bind, bind, mret, M_ret, ret,
    print, emit, sys_exit;
  simpl; rewrite <- ?app_assoc, ?app_nil_r.


Lemma preflight_run cfg w force ses t1 s1 ok1 :
  connect_to_source cfg w ses = (t1, s1, Ret ok1) →
  if ok1 then
    ∀ t2 s2 ok2, connect_to_target cfg w s1 = (t2, s2, Ret ok2) →
    if ok2 then
      ∀ t3 s3 ok3, check_plugin_status w SourceConn "source" s2 = (t3, s3, Ret ok3) →
      if ok3 then
        ∀ t4 s4 ok4, check_plugin_status w TargetConn "target" s3 = (t4, s4, Ret ok4) →
        if ok4 then
          ∀ t5 s5 ok5, check_active_connections cfg w s4 = (t5, s5, Ret ok5) →
          if ok5 || force then
            preflight cfg w force ses = (t1 ++ t2 ++ t3 ++ t4 ++ t5, s5, Ret tt)
          else
            preflight cfg w force ses
            = (t1 ++ t2 ++ t3 ++ t4 ++ t5 ++ [Print LAbortActiveConnections; Print LUseForce],
               s5, Exit 1)
        else
          preflight cfg w force ses
          = (t1 ++ t2 ++ t3 ++ t4 ++ [Print LAbortTargetPlugin], s4, Exit 1)
      else
        preflight cfg w force ses = (t1 ++ t2 ++ t3 ++ [Print LAbortSourcePlugin], s3, Exit 1)
    else
      preflight cfg w force ses = (t1 ++ t2 ++ [Print LAbortTargetConnect], s2, Exit 1)
  else
    preflight cfg w force ses = (t1 ++ [Print LAbortSourceConnect], s1, Exit 1).
Proof.
  intros H1. unfold preflight.
  rewrite (bind_run_ret _ _ _ _ _ _ H1).
  destruct ok1; [|by run_close]. cbn [negb]. rewrite mret_bind.
  intros t2 s2 ok2 H2. rewrite (bind_run_ret _ _ _ _ _ _ H2).
  destruct ok2; [|by run_close]. cbn [negb]. rewrite mret_bind.
  intros t3 s3 ok3 H3. rewrite (bind_run_ret _ _ _ _ _ _ H3).
  destruct ok3; [|by run_close]. cbn [negb]. rewrite mret_bind.
  intros t4 s4 ok4 H4. rewrite (bind_run_ret _ _ _ _ _ _ H4).
  destruct ok4; [|by run_close]. cbn [negb]. rewrite mret_bind.
  intros t5 s5 ok5 H5. rewrite (bind_run_ret _ _ _ _ _ _ H5).
  destruct ok5, force; by run_close.
Qed.

Lemma main_body_preflight_exit cfg w force ses t s1 c :
  preflight cfg w force ses = (t, s1, Exit c) →
  main_body cfg w force ses = (Print LPreflightChecks :: t, s1, Exit c).
Proof.
  intros H. unfold main_body, mbind, M_bind, bind, print, emit. by rewrite H.
Qed.

Lemma main_body_preflight_pass cfg w force ses t s1 :
  preflight cfg w force ses = (t, s1, Ret tt) →
  main_body cfg w force ses
  = prepend (Print LPreflightChecks :: t) (clone_and_validate cfg w s1).
Proof.
  intros H. unfold main_body, mbind at 1 2, M_bind, bind, print, emit. rewrite H.
  unfold prepend, trace_of, session_of, outcome_of.
  by destruct (clone_and_validate cfg w s1) as [[t' s2] o].
Qed.

Lemma close_not_dispatch tc :
  none_of (λ e, negb (is_cleanup_event e)) tc → none_of is_dispatch tc.
Proof.
  unfold none_of. intros H. eapply Forall_impl; [exact H|].
  intros [] He; try done; simpl in He; done.
Qed.

(** ** Order and short-circuit of the checks *)

(** C6, as stated, fails: with both databases unreachable and no plugin
    installed, only the source connection failure is reported and the target
    is never contacted. *)
Lemma first_failure_only_is_reported :
  main cfg0 all_down false fresh_session
  = ([Print LPreflightChecks; Connect SourceConn;
      Print (LCannotConnect Source "db-b" 33306); Print LAbortSourceConnect],
     fresh_session, Exit 1).
Proof. vm_compute. reflexivity. Qed.

(** C6, amended.  The checks run in the order source connection, target
    connection, plugin on source, plugin on target, active sessions.  The
    first one that returns [False] (the last one only without [force]) ends
    the run with status 1: the trace holds the checks run so far, the abort
    line of the failing check and the closing of the handles, nothing of the
    later checks. *)
Theorem preflight_stops_at_first_failure cfg w force ses :
  (∀ t1 s1,
     connect_to_source cfg w ses = (t1, s1, Ret false) →
     aborts_with cfg w force ses (Print LPreflightChecks :: t1 ++ [Print LAbortSourceConnect]))
  ∧ (∀ t1 s1 t2 s2,
     connect_to_source cfg w ses = (t1, s1, Ret true) →
     connect_to_target cfg w s1 = (t2, s2, Ret false) →
     aborts_with cfg w force ses
       (Print LPreflightChecks :: t1 ++ t2 ++ [Print LAbortTargetConnect]))
  ∧ (∀ t1 s1 t2 s2 t3 s3,
     connect_to_source cfg w ses = (t1, s1, Ret true) →
     connect_to_target cfg w s1 = (t2, s2, Ret true) →
     check_plugin_status w SourceConn "source" s2 = (t3, s3, Ret false) →
     aborts_with cfg w force ses
       (Print LPreflightChecks :: t1 ++ t2 ++ t3 ++ [Print LAbortSourcePlugin]))
  ∧ (∀ t1 s1 t2 s2 t3 s3 t4 s4,
     connect_to_source cfg w ses = (t1, s1, Ret true) →
     connect_to_target cfg w s1 = (t2, s2, Ret true) →
     check_plugin_status w SourceConn "source" s2 = (t3, s3, Ret true) →
     check_plugin_status w TargetConn "target" s3 = (t4, s4, Ret false) →
     aborts_with cfg w force ses
       (Print LPreflightChecks :: t1 ++ t2 ++ t3 ++ t4 ++ [Print LAbortTargetPlugin]))
  ∧ (∀ t1 s1 t2 s2 t3 s3 t4 s4 t5 s5,
     connect_to_source cfg w ses = (t1, s1, Ret true) →
     connect_to_target cfg w s1 = (t2, s2, Ret true) →
     check_plugin_status w SourceConn "source" s2 = (t3, s3, Ret true) →
     check_plugin_status w TargetConn "target" s3 = (t4, s4, Ret true) →
     check_active_connections cfg w s4 = (t5, s5, Ret false) →
     force = false →
     aborts_with cfg w force ses
       (Print LPreflightChecks :: t1 ++ t2 ++ t3 ++ t4 ++ t5
          ++ [Print LAbortActiveConnections; Print LUseForce])).
Proof.
  split; [|split; [|split; [|split]]].
  - intros t1 s1 H1. eapply main_body_exit, main_body_preflight_exit.
    exact (preflight_run _ _ force _ _ _ _ H1).
  - intros t1 s1 t2 s2 H1 H2. eapply main_body_exit, main_body_preflight_exit.
    exact (preflight_run _ _ force _ _ _ _ H1 _ _ _ H2).
  - intros t1 s1 t2 s2 t3 s3 H1 H2 H3. eapply main_body_exit, main_body_preflight_exit.
    exact (preflight_run _ _ force _ _ _ _ H1 _ _ _ H2 _ _ _ H3).
  - intros t1 s1 t2 s2 t3 s3 t4 s4 H1 H2 H3 H4.
    eapply main_body_exit, main_body_preflight_exit.
    exact (preflight_run _ _ force _ _ _ _ H1 _ _ _ H2 _ _ _ H3 _ _ _ H4).
  - intros t1 s1 t2 s2 t3 s3 t4 s4 t5 s5 H1 H2 H3 H4 H5 ->.
    eapply main_body_exit, main_body_preflight_exit.
    exact (preflight_run _ _ false _ _ _ _ H1 _ _ _ H2 _ _ _ H3 _ _ _ H4 _ _ _ H5).
Qed.

(** The source connection is refused: the run aborts there. *)
Lemma preflight_stops_at_first_failure_witness :
  connect_to_source cfg0 all_down fresh_session
  = ([Connect SourceConn; Print (LCannotConnect Source "db-b" 33306)], fresh_session, Ret false)
  ∧ aborts_with cfg0 all_down false fresh_session
      (Print LPreflightChecks
         :: [Connect SourceConn; Print (LCannotConnect Source "db-b" 33306)]
         ++ [Print LAbortSourceConnect]).
Proof.
  split; [reflexivity|].
  exact (proj1 (preflight_stops_at_first_failure cfg0 all_down false fresh_session)
           _ _ eq_refl).
Defined.

(** ** From the pre-flight checks to the end of main *)

Section PreflightEvents.
Variable p : event → bool.
Hypothesis p_preflight : ∀ e, is_preflight_event e = true → p e = false.

Ltac quiet_pre :=
  repeat first
    [ apply quiet_emit; apply p_preflight; reflexivity
    | apply getitem_quiet | apply fetched_getitem_quiet
    | quiet_step ].

Lemma print_active_connections_quiet rows : quiet p (print_active_connections rows).
Proof.
  induction rows as [|c rest IH]; simpl; [apply quiet_ret|].
  unfold print. quiet_pre. exact IH.
Qed.

Lemma preflight_quiet cfg w force : quiet p (preflight cfg w force).
Proof.
  unfold preflight, connect_to_source, connect_to_target, report_connect_error,
    set_source_conn, set_target_conn, check_plugin_status, check_active_connections, print.
  repeat first [apply print_active_connections_quiet | progress quiet_pre].
Qed.
End PreflightEvents.

Lemma main_catches_all e : is_KeyboardInterrupt e || is_Exception e = true.
Proof. unfold is_KeyboardInterrupt, is_Exception. by destruct (exc_cls e). Qed.

Lemma main_body_raise cfg w force ses t s1 e :
  main_body cfg w force ses = (t, s1, Raise e) →
  exit_status (outcome_of (main cfg w force ses)) = Some 1
  ∧ ∃ tc, trace_of (main cfg w force ses) = t ++ Print (handler_line e) :: tc
          ∧ none_of (λ e, negb (is_cleanup_event e)) tc.
Proof.
  intros H. unfold main, finally, try_except. rewrite H, main_catches_all.
  unfold main_handler, handler_line.
  destruct (cleanup_run w s1) as (tc & o & Hc & Hq & Ho).
  destruct (is_KeyboardInterrupt e); unfold mbind, M_bind, bind, print, emit, sys_exit;
    simpl; rewrite Hc; unfold outcome_of, trace_of; simpl;
    (destruct Ho as [->|[e' ->]]; simpl; (split; [done|]); exists tc;
     by rewrite <- app_assoc).
Qed.

Lemma close_not_monitor tc :
  none_of (λ e, negb (is_cleanup_event e)) tc → none_of is_monitor_event tc.
Proof.
  unfold none_of. intros H. eapply Forall_impl; [exact H|].
  intros [] He; try done; simpl in *; try done. by destruct c.
Qed.

Lemma preflight_pass_abort cfg w force ses tp s1 t s2 :
  preflight cfg w force ses = (tp, s1, Ret tt) →
  clone_and_validate cfg w s1 = (t, s2, Exit 1) →
  aborts_with cfg w force ses (Print LPreflightChecks :: tp ++ t).
Proof.
  intros Hp Hc. eapply main_body_exit.
  rewrite (main_body_preflight_pass _ _ _ _ _ _ Hp), Hc. reflexivity.
Qed.

Lemma preflight_pass_raise cfg w force ses tp s1 t s2 e :
  preflight cfg w force ses = (tp, s1, Ret tt) →
  clone_and_validate cfg w s1 = (t, s2, Raise e) →
  exit_status (outcome_of (main cfg w force ses)) = Some 1
  ∧ ∃ tc, trace_of (main cfg w force ses)
          = (Print LPreflightChecks :: tp ++ t) ++ Print (handler_line e) :: tc
          ∧ none_of (λ e, negb (is_cleanup_event e)) tc.
Proof.
  intros Hp Hc. eapply main_body_raise.
  rewrite (main_body_preflight_pass _ _ _ _ _ _ Hp), Hc. reflexivity.
Qed.

Lemma preflight_not_monitor cfg w force ses :
  none_of is_monitor_event (trace_of (preflight cfg w force ses)).
Proof.
  apply preflight_quiet.
  intros [l|z|[]|[] []|c|h|cmd| |b n]; simpl; done.
Qed.

Lemma dispatch_trace_not_monitor cfg : none_of is_monitor_event (dispatch_trace cfg).
Proof. unfold none_of, dispatch_trace. by repeat constructor. Qed.

(** ** execute_clone *)

Arguments is_OperationalError : simpl never.
Arguments is_MySQLError : simpl never.
Arguments is_Exception : simpl never.
Arguments is_KeyboardInterrupt : simpl never.
Arguments str_contains : simpl never.


Lemma not_Exception_not_MySQLError x : is_Exception x = false → is_MySQLError x = false.
Proof. unfold is_Exception, is_MySQLError. by destruct (exc_cls x). Qed.

(** [_monitor_clone_progress] lets only non-[Exception] exceptions through. *)
Lemma monitor_outcome w s x :
  outcome_of (_monitor_clone_progress w s) = Raise x → is_Exception x = false.
Proof.
  unfold _monitor_clone_progress, try_except.
  match goal with |- context [match ?m s with _ => _ end] => destruct (m s) as [[t s1] o] end.
  destruct o as [a|e|c|]; try done. destruct (is_Exception e) eqn:E.
  - unfold print, emit, outcome_of. simpl. done.
  - unfold outcome_of. simpl. by intros [= <-].
Qed.

Arguments _monitor_clone_progress : simpl never.

Ltac clone_unfold :=
  unfold execute_clone, clone_and_validate, ssh_connect, dispatch_clone,
    set_ssh_client, fetched_getitem, getitem, get_session, put_session, try_except;
  munfold.

Lemma execute_clone_monitoring cfg w ses :
  reaches_dispatch w →
  (w_clone w = Ok tt ∨ ∃ e, w_clone w = Err e ∧ expected_disconnect e = true) →
  execute_clone cfg w ses
  = let '(tm, sm, om) := _monitor_clone_progress w (with_ssh ses) in
    (dispatch_trace cfg
       ++ (match w_clone w with Ok _ => [] | Err _ => [Print LConnectionLostExpected] end)
       ++ [Print LMonitoring] ++ tm,
     sm, map_outcome (λ _, true) om).
Proof.
  intros ((d & v & Hd & Hv) & Hdonor & Hssh & Hexec) Hclone.
  pose proof (monitor_outcome w (with_ssh ses)) as Hm.
  clone_unfold. rewrite Hd, Hv, Hdonor, Hssh, Hexec. simpl.
  destruct Hclone as [->|(e & -> & He)]; simpl.
  - fold (with_ssh ses).
    destruct (_monitor_clone_progress w (with_ssh ses)) as [[tm sm] [a|x|c|]]; simpl;
      rewrite ?app_nil_r; try done.
    by rewrite (not_Exception_not_MySQLError x (Hm x eq_refl)).
  - unfold expected_disconnect in He. apply andb_true_iff in He as [He1 He2].
    rewrite He1, He2. simpl. fold (with_ssh ses).
    destruct (_monitor_clone_progress w (with_ssh ses)) as [[tm sm] [a|x|c|]]; simpl;
      rewrite ?app_nil_r; try done.
    by rewrite (not_Exception_not_MySQLError x (Hm x eq_refl)).
Qed.

(** ** Errors of the clone statement *)

(** C5.  When the clone statement raises [e]: an [OperationalError] whose
    text contains "Lost connection" is absorbed and [execute_clone] goes on
    into [_monitor_clone_progress]; every other exception ends
    [execute_clone] right after the statement, with the diagnostic and
    [False] for a [MySQLError] and by propagating otherwise.  A run of
    [main] that got there then ends with status 1 after a diagnostic, and
    its whole trace holds no event of the monitor. *)
Theorem dispatch_error_classification cfg w ses e :
  reaches_dispatch w →
  w_clone w = Err e →
  if expected_disconnect e then
    execute_clone cfg w ses
    = let '(tm, sm, om) := _monitor_clone_progress w (with_ssh ses) in
      (dispatch_trace cfg ++ [Print LConnectionLostExpected; Print LMonitoring] ++ tm,
       sm, map_outcome (λ _, true) om)
  else
    execute_clone cfg w ses
    = (dispatch_trace cfg ++ (if is_MySQLError e then [Print (LErrorDuringClone e)] else []),
       with_ssh ses,
       if is_MySQLError e then Ret false else Raise e)
    ∧ ∀ force ses0 tp,
        preflight cfg w force ses0 = (tp, ses, Ret tt) →
        exit_status (outcome_of (main cfg w force ses0)) = Some 1
        ∧ none_of is_monitor_event (trace_of (main cfg w force ses0))
        ∧ ∃ tc, trace_of (main cfg w force ses0)
                = Print LPreflightChecks :: tp ++ dispatch_trace cfg
                    ++ (if is_MySQLError e
                        then [Print (LErrorDuringClone e); Print LCloneOperationFailed]
                        else [Print (handler_line e)])
                    ++ tc
                ∧ none_of (λ e, negb (is_cleanup_event e)) tc.
Proof.
  intros Hr Hc. destruct (expected_disconnect e) eqn:He.
  - rewrite execute_clone_monitoring; [|done|right; by exists e].
    rewrite Hc. by destruct (_monitor_clone_progress w (with_ssh ses)) as [[tm sm] om].
  - destruct Hr as ((d & v & Hd & Hv) & Hdonor & Hssh & Hexec).
    assert (execute_clone cfg w ses
            = (dispatch_trace cfg
                 ++ (if is_MySQLError e then [Print (LErrorDuringClone e)] else []),
               with_ssh ses, if is_MySQLError e then Ret false else Raise e)) as Heq.
    { clone_unfold. rewrite Hd, Hv, Hdonor, Hssh, Hexec, Hc. simpl.
      unfold expected_disconnect in He.
      destruct (is_OperationalError e) eqn:E1; simpl in *.
      - rewrite He. simpl. by destruct (is_MySQLError e).
      - by destruct (is_MySQLError e). }
    split; [done|]. intros force ses0 tp Hp.
    pose proof (preflight_not_monitor cfg w force ses0) as Hq. rewrite Hp in Hq.
    unfold trace_of in Hq; simpl in Hq.
    assert (∃ tc, trace_of (main cfg w force ses0)
                  = Print LPreflightChecks :: tp ++ dispatch_trace cfg
                      ++ (if is_MySQLError e
                          then [Print (LErrorDuringClone e); Print LCloneOperationFailed]
                          else [Print (handler_line e)])
                      ++ tc
                  ∧ none_of (λ e, negb (is_cleanup_event e)) tc
                  ∧ exit_status (outcome_of (main cfg w force ses0)) = Some 1)
      as (tc & Ht & Hc' & Hx).
    { destruct (is_MySQLError e) eqn:Em.
      - assert (clone_and_validate cfg w ses
                = (dispatch_trace cfg
                     ++ [Print (LErrorDuringClone e); Print LCloneOperationFailed],
                   with_ssh ses, Exit 1)) as Hcv.
        { unfold clone_and_validate, mbind, M_bind, bind. rewrite Heq.
          unfold print, emit, sys_exit, dispatch_trace. simpl. done. }
        destruct (preflight_pass_abort _ _ _ _ _ _ _ _ Hp Hcv) as (_ & Hx & tc & Ht & Hc').
        exists tc. split; [|done]. rewrite Ht. simpl. by rewrite <- !app_assoc.
      - assert (clone_and_validate cfg w ses
                = (dispatch_trace cfg, with_ssh ses, Raise e)) as Hcv.
        { unfold clone_and_validate, mbind, M_bind, bind. rewrite Heq.
          by rewrite app_nil_r. }
        destruct (preflight_pass_raise _ _ _ _ _ _ _ _ _ Hp Hcv) as (Hx & tc & Ht & Hc').
        exists tc. split; [|done]. rewrite Ht. simpl. by rewrite <- !app_assoc. }
    split; [done|]. split; [|by exists tc].
    rewrite Ht. unfold none_of in *.
    apply Forall_cons; split; [done|].
    repeat (apply Forall_app; split); try done.
    + apply dispatch_trace_not_monitor.
    + destruct (is_MySQLError e); by repeat constructor.
    + by apply close_not_monitor.
Qed.

(** A rejected clone statement is fatal; a lost connection leads into the
    monitor. *)
Lemma dispatch_error_classification_witness :
  (execute_clone cfg0 clone_rejected connected
   = (dispatch_trace cfg0 ++ [Print (LErrorDuringClone clone_not_permitted)],
      with_ssh connected, Ret false)
   ∧ exit_status (outcome_of (main cfg0 clone_rejected false fresh_session)) = Some 1
   ∧ none_of is_monitor_event (trace_of (main cfg0 clone_rejected false fresh_session)))
  ∧ execute_clone cfg0 healthy connected
    = let '(tm, sm, om) := _monitor_clone_progress healthy (with_ssh connected) in
      (dispatch_trace cfg0 ++ [Print LConnectionLostExpected; Print LMonitoring] ++ tm,
       sm, map_outcome (λ _, true) om).
Proof.
  split.
  - destruct (dispatch_error_classification cfg0 clone_rejected connected
                clone_not_permitted ltac:(split; [exists {[ "datadir" := VStr "/var/lib/mysql/" ]}, (VStr "/var/lib/mysql/"); split; reflexivity | repeat split]) eq_refl) as (H1 & H2).
    split; [exact H1|].
    destruct (H2 false fresh_session preflight_passed eq_refl) as (H3 & H4 & _).
    split; [exact H3 | exact H4].
  - exact (dispatch_error_classification cfg0 healthy connected
             lost_connection ltac:(split; [exists {[ "datadir" := VStr "/var/lib/mysql/" ]}, (VStr "/var/lib/mysql/"); split; reflexivity | repeat split]) eq_refl).
Defined.

(** ** A failed SSH connection *)

(** C3, as stated, fails: when the SSH connection to the target times out,
    [execute_clone] returns [False], the run never sends the clone directive
    and ends with status 1. *)
Lemma clone_not_issued_without_ssh :
  execute_clone cfg0 ssh_down fresh_session
  = (ssh_failure_trace cfg0 ssh_timeout, with_ssh fresh_session, Ret false)
  ∧ ¬ In (Execute TargetConn (clone_stmt cfg0))
        (trace_of (main cfg0 ssh_down false fresh_session))
  ∧ outcome_of (main cfg0 ssh_down false fresh_session) = Exit 1.
Proof.
  vm_compute. repeat split. intuition discriminate.
Qed.

(** C3, amended.  When the SSH connection to the target host fails,
    [execute_clone] sends no clone directive, does not enter the monitor and
    does not return [True]; when the steps before it went through, it prints
    "Cannot establish SSH connection to monitor progress" and returns
    [False], and a run of [main] that got there prints "Clone operation
    failed" and ends with status 1. *)
Theorem ssh_failure_stops_before_clone cfg w ses e :
  w_ssh_connect w = Err e →
  let r := execute_clone cfg w ses in
  none_of is_clone_directive (trace_of r)
  ∧ none_of is_monitor_event (trace_of r)
  ∧ outcome_of r ≠ Ret true
  ∧ (is_Exception e = true →
     (∃ d v, w_datadir w = Ok (Some d) ∧ d !! "datadir" = Some v) →
     w_set_donor w = Ok tt →
     r = (ssh_failure_trace cfg e, with_ssh ses, Ret false)
     ∧ ∀ force ses0 tp,
         preflight cfg w force ses0 = (tp, ses, Ret tt) →
         aborts_with cfg w force ses0
           (Print LPreflightChecks :: tp ++ ssh_failure_trace cfg e
              ++ [Print LCloneOperationFailed])).
Proof.
  intros Hssh r. subst r. split; [|split; [|split]].
  - clone_unfold. rewrite Hssh.
    destruct (w_datadir w) as [[d|]|e1]; simpl;
      [destruct (d !! "datadir"); simpl;
         [destruct (w_set_donor w) as [[]|e2]; simpl; [destruct (is_Exception e); simpl|] |]
      | |];
      repeat match goal with
        | |- context [is_MySQLError ?x] => destruct (is_MySQLError x); simpl
        end;
      unfold none_of, trace_of; simpl; by repeat constructor.
  - clone_unfold. rewrite Hssh.
    destruct (w_datadir w) as [[d|]|e1]; simpl;
      [destruct (d !! "datadir"); simpl;
         [destruct (w_set_donor w) as [[]|e2]; simpl; [destruct (is_Exception e); simpl|] |]
      | |];
      repeat match goal with
        | |- context [is_MySQLError ?x] => destruct (is_MySQLError x); simpl
        end;
      unfold none_of, trace_of; simpl; by repeat constructor.
  - clone_unfold. rewrite Hssh.
    destruct (w_datadir w) as [[d|]|e1]; simpl;
      [destruct (d !! "datadir"); simpl;
         [destruct (w_set_donor w) as [[]|e2]; simpl; [destruct (is_Exception e); simpl|] |]
      | |];
      repeat match goal with
        | |- context [is_MySQLError ?x] => destruct (is_MySQLError x); simpl
        end;
      unfold outcome_of; simpl; done.
  - intros He (d & v & Hd & Hv) Hdonor.
    assert (execute_clone cfg w ses = (ssh_failure_trace cfg e, with_ssh ses, Ret false)) as Heq.
    { clone_unfold. rewrite Hd, Hv, Hdonor, Hssh. simpl. by rewrite He. }
    split; [done|]. intros force ses0 tp Hp.
    eapply preflight_pass_abort; [exact Hp|].
    unfold clone_and_validate, mbind, M_bind, bind. rewrite Heq. done.
Qed.

(** The SSH timeout of [ssh_down]. *)
Lemma ssh_failure_stops_before_clone_witness :
  w_ssh_connect ssh_down = Err ssh_timeout
  ∧ none_of is_clone_directive (trace_of (execute_clone cfg0 ssh_down connected))
  ∧ execute_clone cfg0 ssh_down connected
    = (ssh_failure_trace cfg0 ssh_timeout, with_ssh connected, Ret false)
  ∧ aborts_with cfg0 ssh_down false fresh_session
      (Print LPreflightChecks :: preflight_passed ++ ssh_failure_trace cfg0 ssh_timeout
         ++ [Print LCloneOperationFailed]).
Proof.
  destruct (ssh_failure_stops_before_clone cfg0 ssh_down connected ssh_timeout eq_refl)
    as (H1 & _ & _ & H4).
  split; [reflexivity|]. split; [exact H1|].
  destruct H4 as (H5 & H6); [reflexivity| |reflexivity|].
  - exists {[ "datadir" := VStr "/var/lib/mysql/" ]}, (VStr "/var/lib/mysql/"). split; reflexivity.
  - split; [exact H5|]. exact (H6 false fresh_session preflight_passed eq_refl).
Defined.

(** ** Reconnection attempts used up *)

(** C4, as stated, fails: when no reconnection attempt succeeds the reason
    is printed, but [execute_clone] returns [True] and the run ends with
    status 0. *)
Lemma exhausted_reconnection_treated_as_success :
  outcome_of (execute_clone cfg0 never_back fresh_session) = Ret true
  ∧ exit_status (outcome_of (main cfg0 never_back false fresh_session)) = Some 0
  ∧ In (Print LCouldNotReconnect) (trace_of (main cfg0 never_back false fresh_session)).
Proof.
  vm_compute. repeat split. tauto.
Qed.

Lemma monitor_reconnect_exhausted w ses :
  (∀ k : nat, (k < max_retries)%nat → ∃ e, w_reconnect w k = Err e) →
  _monitor_clone_progress w ses
  = (Sleep 5 :: failed_attempts max_retries 0 0 ++ [Print LCouldNotReconnect], ses, Ret tt).
Proof.
  intros H. unfold _monitor_clone_progress, try_except. munfold.
  rewrite wait_online_all_fail; [|intros k Hk; apply H; lia]. simpl. done.
Qed.

(** C4, amended.  When all 30 reconnection attempts fail,
    [_monitor_clone_progress] prints "Could not reconnect to target database
    after clone started" and returns without polling; the failure is not
    propagated: [execute_clone] still returns [True] and a run of [main]
    that got there goes on to [validate_clone]. *)
Theorem reconnect_exhaustion_reported_not_propagated cfg w ses :
  (∀ k : nat, (k < max_retries)%nat → ∃ e, w_reconnect w k = Err e) →
  _monitor_clone_progress w ses
  = (Sleep 5 :: failed_attempts max_retries 0 0 ++ [Print LCouldNotReconnect], ses, Ret tt)
  ∧ (reaches_dispatch w →
     (w_clone w = Ok tt ∨ ∃ e, w_clone w = Err e ∧ expected_disconnect e = true) →
     ∃ t,
       execute_clone cfg w ses = (t ++ [Print LCouldNotReconnect], with_ssh ses, Ret true)
       ∧ ∀ force ses0 tp,
           preflight cfg w force ses0 = (tp, ses, Ret tt) →
           main_body cfg w force ses0
           = prepend (Print LPreflightChecks :: tp ++ t ++ [Print LCouldNotReconnect])
                     ((validate_clone w ≫= λ _, mret tt) (with_ssh ses))).
Proof.
  intros H. split; [by apply monitor_reconnect_exhausted|].
  intros Hr Hc.
  pose proof (execute_clone_monitoring cfg w ses Hr Hc) as Heq.
  rewrite monitor_reconnect_exhausted in Heq by done. simpl in Heq.
  eexists (dispatch_trace cfg
             ++ match w_clone w with Ok _ => [] | Err _ => [Print LConnectionLostExpected] end
             ++ [Print LMonitoring] ++ Sleep 5 :: failed_attempts max_retries 0 0).
  assert (execute_clone cfg w ses
          = ((dispatch_trace cfg
                ++ match w_clone w with Ok _ => [] | Err _ => [Print LConnectionLostExpected] end
                ++ [Print LMonitoring] ++ Sleep 5 :: failed_attempts max_retries 0 0)
               ++ [Print LCouldNotReconnect], with_ssh ses, Ret true)) as Heq'.
  { rewrite Heq. f_equal. f_equal. rewrite <- !app_assoc. simpl.
    by rewrite <- ?app_assoc. }
  split; [done|]. intros force ses0 tp Hp.
  rewrite (main_body_preflight_pass _ _ _ _ _ _ Hp).
  unfold clone_and_validate. rewrite (bind_run_ret _ _ _ _ _ _ Heq').
  rewrite prepend_prepend. reflexivity.
Qed.

(** The target of [never_back] refuses every attempt. *)
Lemma reconnect_exhaustion_reported_not_propagated_witness :
  (∀ k : nat, (k < max_retries)%nat → ∃ e, w_reconnect never_back k = Err e)
  ∧ _monitor_clone_progress never_back connected
    = (Sleep 5 :: failed_attempts max_retries 0 0 ++ [Print LCouldNotReconnect],
       connected, Ret tt)
  ∧ ∃ t,
      execute_clone cfg0 never_back connected
      = (t ++ [Print LCouldNotReconnect], with_ssh connected, Ret true)
      ∧ main_body cfg0 never_back false fresh_session
        = prepend (Print LPreflightChecks :: preflight_passed ++ t ++ [Print LCouldNotReconnect])
                  ((validate_clone never_back ≫= λ _, mret tt) (with_ssh connected)).
Proof.
  assert (∀ k : nat, (k < max_retries)%nat → ∃ e, w_reconnect never_back k = Err e) as Hall.
  { intros k _. exists connection_refused. reflexivity. }
  destruct (reconnect_exhaustion_reported_not_propagated cfg0 never_back connected Hall)
    as (H1 & H2).
  split; [exact Hall|]. split; [exact H1|].
  destruct H2 as (t & H3 & H4).
  - split; [|repeat split].
    exists {[ "datadir" := VStr "/var/lib/mysql/" ]}, (VStr "/var/lib/mysql/"). split; reflexivity.
  - right. exists lost_connection. split; reflexivity.
  - exists t. split; [exact H3|].
    exact (H4 false fresh_session preflight_passed eq_refl).
Defined.

(** ** validate_clone *)

Lemma status_successful_spec st_row :
  status_successful st_row = true
  ↔ ∃ d, st_row = Some d ∧ d !! "STATE" = Some (VStr "Completed")
         ∧ d !! "ERROR_NO" = Some (VInt 0).
Proof.
  unfold status_successful. split.
  - destruct st_row as [d|]; [|done].
    intros [[_ H1]%andb_true_iff H2]%andb_true_iff.
    exists d. split; [done|]. split.
    + by apply dict_get_str, py_eq_str_true.
    + by apply dict_get_int, py_eq_int_true.
  - intros (d & -> & H1 & H2). rewrite !andb_true_iff. split; [split|].
    + by eapply dict_truthy_lookup.
    + by apply py_eq_str_true, dict_get_str.
    + by apply py_eq_int_true, dict_get_int.
Qed.

Ltac validate_unfold :=
  unfold validate_clone, fetched_getitem, getitem, try_except; munfold.

(** C9.  Once [validate_clone] has connected and read the status row, it
    prints "Clone validation successful" exactly when the row is present
    with STATE 'Completed' and ERROR_NO 0, and it returns [True] only then;
    in that case it goes on to print the version and server id of the
    target.  In every other case it prints "Clone validation failed: "
    followed by the row's ERROR_MESSAGE, or by "Unknown error" when there is
    no row, and returns [False]. *)
Theorem validation_succeeds_iff_completed_without_error w ses st_row :
  w_validate_connect w = Ok tt →
  w_validate_status w = Ok st_row →
  let ok := ∃ d, st_row = Some d ∧ d !! "STATE" = Some (VStr "Completed")
                 ∧ d !! "ERROR_NO" = Some (VInt 0) in
  let r := validate_clone w ses in
  (In (Print LValidationSuccessful) (trace_of r) ↔ ok)
  ∧ (outcome_of r = Ret true → ok)
  ∧ (ok → ∀ info version server_id,
       w_server_info w = Ok (Some info) →
       info !! "version" = Some version →
       info !! "server_id" = Some server_id →
       r = ([Connect NewConn; Execute NewConn SelectCloneStatus;
             Print LValidationSuccessful; Execute NewConn SelectServerInfo;
             Print LTargetServerInformation; Print (LMySQLVersion version);
             Print (LServerId server_id); Close NewConn],
            ses, Ret true))
  ∧ (¬ ok →
       r = ([Connect NewConn; Execute NewConn SelectCloneStatus;
             Print (LValidationFailed (failure_message st_row)); Close NewConn],
            ses, Ret false))
  ∧ failure_message None = "Unknown error"
  ∧ (∀ d, d ≠ ∅ → failure_message (Some d) = py_str (dict_get d "ERROR_MESSAGE")).
Proof.
  intros Hconn Hst ok r. subst r.
  assert (status_successful st_row = false →
          validate_clone w ses
          = ([Connect NewConn; Execute NewConn SelectCloneStatus;
              Print (LValidationFailed (failure_message st_row)); Close NewConn],
             ses, Ret false)) as Hfail.
  { intros Hs. validate_unfold. rewrite Hconn, Hst. simpl. by rewrite Hs. }
  assert (status_successful st_row = true →
          ∃ t o, validate_clone w ses
                 = (Connect NewConn :: Execute NewConn SelectCloneStatus
                      :: Print LValidationSuccessful :: t, ses, o)) as Hsucc.
  { intros Hs. validate_unfold. rewrite Hconn, Hst. simpl. rewrite Hs. simpl.
    destruct (w_server_info w) as [[info|]|e]; simpl;
      [destruct (info !! "version"); simpl; [destruct (info !! "server_id"); simpl| ] | |];
      repeat match goal with
        | |- context [is_MySQLError ?x] => destruct (is_MySQLError x); simpl
        end;
      by eexists _, _. }
  split; [|split; [|split; [|split; [|split]]]].
  - split.
    + intros Hin. apply status_successful_spec.
      destruct (status_successful st_row) eqn:Hs; [done|].
      rewrite (Hfail eq_refl) in Hin. unfold trace_of in Hin; simpl in Hin.
      intuition discriminate.
    + intros Hok%status_successful_spec. destruct (Hsucc Hok) as (t & o & ->).
      unfold trace_of; simpl. tauto.
  - intros Hret. apply status_successful_spec.
    destruct (status_successful st_row) eqn:Hs; [done|].
    rewrite (Hfail eq_refl) in Hret. done.
  - intros Hok%status_successful_spec info version server_id Hi Hv Hid.
    validate_unfold. rewrite Hconn, Hst. simpl. rewrite Hok. simpl.
    rewrite Hi. simpl. rewrite Hv. simpl. rewrite Hid. done.
  - intros Hno. apply Hfail. destruct (status_successful st_row) eqn:Hs; [|done].
    by apply status_successful_spec in Hs.
  - done.
  - intros d Hd. unfold failure_message, fetched_truthy, dict_truthy.
    by rewrite bool_decide_eq_true_2.
Qed.

(** A completed clone validates; a missing status row is an unknown error. *)
Lemma validation_succeeds_iff_completed_without_error_witness :
  validate_clone healthy fresh_session
  = ([Connect NewConn; Execute NewConn SelectCloneStatus;
      Print LValidationSuccessful; Execute NewConn SelectServerInfo;
      Print LTargetServerInformation; Print (LMySQLVersion (VStr "8.0.36"));
      Print (LServerId (VInt 7)); Close NewConn],
     fresh_session, Ret true)
  ∧ validate_clone clone_rejected fresh_session
    = ([Connect NewConn; Execute NewConn SelectCloneStatus;
        Print (LValidationFailed "Unknown error"); Close NewConn],
       fresh_session, Ret false).
Proof.
  split.
  - destruct (validation_succeeds_iff_completed_without_error healthy fresh_session
                (Some (status_row "Completed" 0 VNone)) eq_refl eq_refl)
      as (_ & _ & H & _).
    apply (H ltac:(exists (status_row "Completed" 0 VNone); repeat split)
             {[ "version" := VStr "8.0.36"; "server_id" := VInt 7 ]});
      reflexivity.
  - destruct (validation_succeeds_iff_completed_without_error clone_rejected fresh_session
                None eq_refl eq_refl) as (_ & _ & _ & H & _).
    apply H. intros (d & Hd & _). discriminate Hd.
Defined.

(** ** The force flag *)

(** ** Traces of composed runs *)

Lemma trace_prepend {A} t (r : list event * session * outcome A) :
  trace_of (prepend t r) = t ++ trace_of r.
Proof. by destruct r as [[t' s] o]. Qed.

Lemma trace_emit_bind {A} e (m : M A) s :
  trace_of ((emit e;; m) s) = e :: trace_of (m s).
Proof.
  unfold mbind, M_bind, bind, emit, trace_of. simpl. by destruct (m s) as [[t s1] o].
Qed.

Lemma trace_bind_prefix {A B} (m : M A) (f : A → M B) s :
  ∃ rest, trace_of ((m ≫= f) s) = trace_of (m s) ++ rest.
Proof.
  unfold mbind, M_bind, bind, trace_of. destruct (m s) as [[t s1] [a|e|c|]]; simpl;
    try (exists []; by rewrite app_nil_r).
  destruct (f a s1) as [[t' s2] o]. by exists t'.
Qed.

Lemma trace_try_except_prefix {A} (m : M A) catches h s :
  ∃ rest, trace_of (try_except m catches h s) = trace_of (m s) ++ rest.
Proof.
  unfold try_except, trace_of. destruct (m s) as [[t s1] [a|e|c|]]; simpl;
    try (exists []; by rewrite app_nil_r).
  destruct (catches e); [|exists []; by rewrite app_nil_r].
  destruct (h e s1) as [[t' s2] o]. by exists t'.
Qed.

Lemma trace_finally_prefix {A} (m : M A) (f : M unit) s :
  ∃ rest, trace_of (finally m f s) = trace_of (m s) ++ rest.
Proof.
  unfold finally, trace_of. destruct (m s) as [[t s1] o]; simpl.
  destruct o; try (destruct (f s1) as [[t' s2] [| | |]]; by exists t').
  exists []. by rewrite app_nil_r.
Qed.

Lemma main_trace_extends_body cfg w force ses :
  ∃ rest, trace_of (main cfg w force ses) = trace_of (main_body cfg w force ses) ++ rest.
Proof.
  unfold main.
  destruct (trace_finally_prefix
              (try_except (main_body cfg w force)
                 (λ e, is_KeyboardInterrupt e || is_Exception e) main_handler)
              (cleanup w) ses) as [r1 ->].
  destruct (trace_try_except_prefix (main_body cfg w force)
              (λ e, is_KeyboardInterrupt e || is_Exception e) main_handler ses) as [r2 ->].
  exists (r2 ++ r1). by rewrite app_assoc.
Qed.

(** [execute_clone] begins with its banner and the data-directory query. *)
Lemma execute_clone_starts cfg w s :
  ∃ rest, trace_of (execute_clone cfg w s)
          = Print LStartingCloneOperation :: Execute TargetConn SelectDatadir :: rest.
Proof.
  unfold execute_clone.
  match goal with |- context [try_except ?m ?c ?h s] =>
    destruct (trace_try_except_prefix m c h s) as [r1 ->];
    assert (∃ r, trace_of (m s)
                 = Print LStartingCloneOperation :: Execute TargetConn SelectDatadir :: r)
      as [r ->]
  end.
  { unfold print. rewrite !trace_emit_bind. by eexists. }
  by eexists.
Qed.

(** When the steps before it go through, the donor list and the clone
    statement are sent, whatever the clone statement then answers. *)
Lemma execute_clone_dispatches cfg w s :
  reaches_dispatch w →
  ∃ rest, trace_of (execute_clone cfg w s) = dispatch_trace cfg ++ rest.
Proof.
  intros ((d & v & Hd & Hv) & Hdonor & Hssh & Hexec).
  clone_unfold. rewrite Hd, Hv, Hdonor, Hssh, Hexec. simpl.
  destruct (w_clone w) as [[]|e]; simpl;
    [|destruct (is_OperationalError e); simpl;
      [destruct (str_contains "Lost connection" (exc_str e)); simpl|]];
    try match goal with
    | |- context [_monitor_clone_progress w ?s] =>
        destruct (_monitor_clone_progress w s) as [[tm sm] om];
        destruct om as [[]|e'|c|]; simpl; [| destruct (is_MySQLError e'); simpl | |]
    end;
    try (destruct (is_MySQLError e); simpl);
    unfold trace_of; simpl; by eexists.
Qed.

Lemma clone_and_validate_extends cfg w s :
  ∃ rest, trace_of (clone_and_validate cfg w s) = trace_of (execute_clone cfg w s) ++ rest.
Proof. unfold clone_and_validate. apply trace_bind_prefix. Qed.

(** C7.  Once both connections are up: a plugin check that returns [False],
    on the source or on the target, aborts the run with status 1 whatever
    [force] is, and the whole trace holds neither the donor-list statement nor
    the clone directive; with [force] set, the run does not stop at the
    active-session check whatever it returns: [execute_clone] is entered
    right after the checks (its banner and the data-directory query
    follow), and when the steps before the clone statement go through, the
    donor list and the clone statement are sent. *)
Theorem force_overrides_sessions_not_capability cfg w ses t1 s1 t2 s2 :
  connect_to_source cfg w ses = (t1, s1, Ret true) →
  connect_to_target cfg w s1 = (t2, s2, Ret true) →
  (∀ force t3 s3,
     check_plugin_status w SourceConn "source" s2 = (t3, s3, Ret false) →
     aborts_with cfg w force ses
       (Print LPreflightChecks :: t1 ++ t2 ++ t3 ++ [Print LAbortSourcePlugin])
     ∧ none_of is_dispatch (trace_of (main cfg w force ses)))
  ∧ (∀ force t3 s3 t4 s4,
     check_plugin_status w SourceConn "source" s2 = (t3, s3, Ret true) →
     check_plugin_status w TargetConn "target" s3 = (t4, s4, Ret false) →
     aborts_with cfg w force ses
       (Print LPreflightChecks :: t1 ++ t2 ++ t3 ++ t4 ++ [Print LAbortTargetPlugin])
     ∧ none_of is_dispatch (trace_of (main cfg w force ses)))
  ∧ (∀ t3 s3 t4 s4 t5 s5 ok,
     check_plugin_status w SourceConn "source" s2 = (t3, s3, Ret true) →
     check_plugin_status w TargetConn "target" s3 = (t4, s4, Ret true) →
     check_active_connections cfg w s4 = (t5, s5, Ret ok) →
     main_body cfg w true ses
     = prepend (Print LPreflightChecks :: t1 ++ t2 ++ t3 ++ t4 ++ t5)
               (clone_and_validate cfg w s5)
     ∧ (∃ rest,
          trace_of (main cfg w true ses)
          = (Print LPreflightChecks :: t1 ++ t2 ++ t3 ++ t4 ++ t5)
            ++ Print LStartingCloneOperation :: Execute TargetConn SelectDatadir :: rest)
     ∧ (reaches_dispatch w →
        ∃ rest,
          trace_of (main cfg w true ses)
          = (Print LPreflightChecks :: t1 ++ t2 ++ t3 ++ t4 ++ t5)
            ++ dispatch_trace cfg ++ rest)).
Proof.
  intros H1 H2.
  pose proof (connect_to_source_quiet cfg w ses) as Q1. rewrite H1 in Q1.
  pose proof (connect_to_target_quiet cfg w s1) as Q2. rewrite H2 in Q2.
  unfold trace_of in Q1, Q2; simpl in Q1, Q2.
  split; [|split].
  - intros force t3 s3 H3.
    assert (aborts_with cfg w force ses
              (Print LPreflightChecks :: t1 ++ t2 ++ t3 ++ [Print LAbortSourcePlugin])) as Ha.
    { eapply main_body_exit, main_body_preflight_exit.
      exact (preflight_run _ _ force _ _ _ _ H1 _ _ _ H2 _ _ _ H3). }
    split; [done|]. destruct Ha as (_ & _ & tc & -> & Hc).
    pose proof (check_plugin_status_quiet w SourceConn "source" s2) as Q3. rewrite H3 in Q3.
    unfold trace_of in Q3; simpl in Q3. unfold none_of in *.
    repeat first [apply Forall_app; split | apply Forall_cons; split]; try done.
    by apply close_not_dispatch.
  - intros force t3 s3 t4 s4 H3 H4.
    assert (aborts_with cfg w force ses
              (Print LPreflightChecks :: t1 ++ t2 ++ t3 ++ t4 ++ [Print LAbortTargetPlugin]))
      as Ha.
    { eapply main_body_exit, main_body_preflight_exit.
      exact (preflight_run _ _ force _ _ _ _ H1 _ _ _ H2 _ _ _ H3 _ _ _ H4). }
    split; [done|]. destruct Ha as (_ & _ & tc & -> & Hc).
    pose proof (check_plugin_status_quiet w SourceConn "source" s2) as Q3. rewrite H3 in Q3.
    pose proof (check_plugin_status_quiet w TargetConn "target" s3) as Q4. rewrite H4 in Q4.
    unfold trace_of in Q3, Q4; simpl in Q3, Q4. unfold none_of in *.
    repeat first [apply Forall_app; split | apply Forall_cons; split]; try done.
    by apply close_not_dispatch.
  - intros t3 s3 t4 s4 t5 s5 ok H3 H4 H5.
    assert (main_body cfg w true ses
            = prepend (Print LPreflightChecks :: t1 ++ t2 ++ t3 ++ t4 ++ t5)
                      (clone_and_validate cfg w s5)) as Hb.
    { apply main_body_preflight_pass.
      pose proof (preflight_run _ _ true _ _ _ _ H1 _ _ _ H2 _ _ _ H3 _ _ _ H4 _ _ _ H5) as H.
      by rewrite orb_true_r in H. }
    split; [exact Hb|].
    destruct (main_trace_extends_body cfg w true ses) as [r1 Hm].
    destruct (clone_and_validate_extends cfg w s5) as [r2 Hcv].
    rewrite Hm, Hb, trace_prepend, Hcv. split.
    + destruct (execute_clone_starts cfg w s5) as [r3 ->].
      exists (r3 ++ r2 ++ r1). by rewrite <- !app_assoc.
    + intros Hr. destruct (execute_clone_dispatches cfg w s5 Hr) as [r3 ->].
      exists (r3 ++ r2 ++ r1). by rewrite <- !app_assoc.
Qed.

(** A disabled plugin aborts a forced run; two busy sessions do not: the
    donor list and the clone statement are sent. *)
Lemma force_overrides_sessions_not_capability_witness :
  let s2 := {| source_conn := true; target_conn := true; ssh_client := false |} in
  let t1 := [Connect SourceConn; Print (LConnected Source "db-b" 33306)] in
  let t2 := [Connect TargetConn; Print (LConnected Target "db-c" 33306)] in
  let t3 := [Execute SourceConn SelectPlugin; Print (LPluginActive "source")] in
  let t4 := [Execute TargetConn SelectPlugin; Print (LPluginActive "target")] in
  let t4' := [Execute TargetConn SelectPlugin; Print (LPluginNotActive "target")] in
  let found := LActiveConn (VInt 42) (VStr "app") (VStr "10.0.0.9:51234") (VStr "shop")
                           (VStr "Query") (VInt 3) in
  let t5 := [Execute TargetConn (SelectProcesslist "admin"); Print (LFoundActive 2);
             Print found; Print found] in
  (aborts_with cfg0 plugin_disabled true fresh_session
     (Print LPreflightChecks :: t1 ++ t2 ++ t3 ++ t4' ++ [Print LAbortTargetPlugin])
   ∧ none_of is_dispatch (trace_of (main cfg0 plugin_disabled true fresh_session)))
  ∧ main_body cfg0 busy_target true fresh_session
    = prepend (Print LPreflightChecks :: t1 ++ t2 ++ t3 ++ t4 ++ t5)
              (clone_and_validate cfg0 busy_target s2)
  ∧ ∃ rest,
      trace_of (main cfg0 busy_target true fresh_session)
      = (Print LPreflightChecks :: t1 ++ t2 ++ t3 ++ t4 ++ t5)
        ++ dispatch_trace cfg0 ++ rest.
Proof.
  intros s2 t1 t2 t3 t4 t4' found t5.
  split.
  - destruct (force_overrides_sessions_not_capability cfg0 plugin_disabled fresh_session
                t1 {| source_conn := true; target_conn := false; ssh_client := false |}
                t2 s2 eq_refl eq_refl) as (_ & H2 & _).
    exact (H2 true t3 s2 t4' s2 eq_refl eq_refl).
  - destruct (force_overrides_sessions_not_capability cfg0 busy_target fresh_session
                t1 {| source_conn := true; target_conn := false; ssh_client := false |}
                t2 s2 eq_refl eq_refl) as (_ & _ & H3).
    destruct (H3 t3 s2 t4 s2 t5 s2 false eq_refl eq_refl eq_refl) as (Hb & _ & Hd).
    split; [exact Hb|]. apply Hd.
    split; [by exists {[ "datadir" := VStr "/var/lib/mysql/" ]}, (VStr "/var/lib/mysql/")|].
    by repeat split.
Defined.

(** * Further properties of the program *)

(** ** Connecting to the two databases *)

Ltac connect_unfold :=
  unfold connect_to_source, connect_to_target, report_connect_error, connect_error_line,
    set_source_conn, set_target_conn, get_session, put_session, try_except;
  munfold.

(** X1.  [connect_to_source] and [connect_to_target] return [True] exactly when
    [pymysql.connect] succeeds, and only then store the handle; a
    [MySQLError] leaves the object as it was, prints the one line its code
    selects (1045, 2003, otherwise the error text) and returns [False]; any
    other exception leaves the function right after the connection attempt. *)
Theorem connect_reports_and_sets_handle cfg w ses :
  let r := connect_to_source cfg w ses in
  let r' := connect_to_target cfg w ses in
  ((outcome_of r = Ret true ↔ w_connect_source w = Ok tt)
   ∧ (outcome_of r = Ret true →
      session_of r = {| source_conn := true; target_conn := target_conn ses;
                        ssh_client := ssh_client ses |})
   ∧ (outcome_of r ≠ Ret true → session_of r = ses)
   ∧ (∀ e, w_connect_source w = Err e →
        r = if is_MySQLError e
            then ([Connect SourceConn;
                   Print (connect_error_line Source (source_host cfg) (source_port cfg) e)],
                  ses, Ret false)
            else ([Connect SourceConn], ses, Raise e)))
  ∧ ((outcome_of r' = Ret true ↔ w_connect_target w = Ok tt)
     ∧ (outcome_of r' = Ret true →
        session_of r' = {| source_conn := source_conn ses; target_conn := true;
                           ssh_client := ssh_client ses |})
     ∧ (outcome_of r' ≠ Ret true → session_of r' = ses)
     ∧ (∀ e, w_connect_target w = Err e →
          r' = if is_MySQLError e
               then ([Connect TargetConn;
                      Print (connect_error_line Target (target_host cfg) (target_port cfg) e)],
                     ses, Ret false)
               else ([Connect TargetConn], ses, Raise e))).
Proof.
  intros r r'. subst r r'. split.
  - connect_unfold. destruct (w_connect_source w) as [[]|e]; simpl.
    + unfold outcome_of, session_of; simpl. repeat split; try done.
    + destruct (is_MySQLError e) eqn:Em; simpl;
        [destruct (py_eq_int (exc_arg0 e) 1045) eqn:E1; simpl;
           [|destruct (py_eq_int (exc_arg0 e) 2003) eqn:E2; simpl]|];
        unfold outcome_of, session_of; simpl;
        (split; [split; intros; discriminate|]);
        (split; [intros; discriminate|]); (split; [done|]);
        intros ? [= <-]; by rewrite ?Em, ?E1, ?E2.
  - connect_unfold. destruct (w_connect_target w) as [[]|e]; simpl.
    + unfold outcome_of, session_of; simpl. repeat split; try done.
    + destruct (is_MySQLError e) eqn:Em; simpl;
        [destruct (py_eq_int (exc_arg0 e) 1045) eqn:E1; simpl;
           [|destruct (py_eq_int (exc_arg0 e) 2003) eqn:E2; simpl]|];
        unfold outcome_of, session_of; simpl;
        (split; [split; intros; discriminate|]);
        (split; [intros; discriminate|]); (split; [done|]);
        intros ? [= <-]; by rewrite ?Em, ?E1, ?E2.
Qed.

(** ** The plugin check *)

Ltac plugin_unfold :=
  unfold check_plugin_status, fetched_getitem, getitem, fetched_truthy; munfold.

(** X2.  When the plugin query answers, [check_plugin_status] leaves the
    object unchanged and returns [True] exactly when the row has
    PLUGIN_STATUS 'ACTIVE'; no row or an empty row is reported as not
    installed, another status as not active, and a non-empty row without
    the PLUGIN_STATUS column raises [KeyError] with nothing printed. *)
Theorem check_plugin_status_true_iff_active w c host_type ses r :
  w_plugin w c = Ok r →
  let run := check_plugin_status w c host_type ses in
  session_of run = ses
  ∧ (outcome_of run = Ret true
     ↔ ∃ d, r = Some d ∧ d !! "PLUGIN_STATUS" = Some (VStr "ACTIVE"))
  ∧ (r = None ∨ r = Some ∅ →
     run = ([Execute c SelectPlugin; Print (LPluginNotInstalled host_type)], ses, Ret false))
  ∧ (∀ d v, r = Some d → d !! "PLUGIN_STATUS" = Some v → v ≠ VStr "ACTIVE" →
     run = ([Execute c SelectPlugin; Print (LPluginNotActive host_type)], ses, Ret false))
  ∧ (∀ d, r = Some d → d ≠ ∅ → d !! "PLUGIN_STATUS" = None →
     run = ([Execute c SelectPlugin], ses, Raise (key_error "PLUGIN_STATUS"))).
Proof.
  intros Hw run. subst run. plugin_unfold. rewrite Hw. simpl.
  destruct r as [d|]; simpl.
  - destruct (dict_truthy d) eqn:Ht; simpl.
    + destruct (d !! "PLUGIN_STATUS") as [v|] eqn:Hv; simpl.
      * destruct (py_eq_str v "ACTIVE") eqn:Ha; simpl;
          unfold session_of, outcome_of; simpl.
        -- apply py_eq_str_true in Ha. subst v.
           split; [done|]. split; [split; [intros _; by exists d | done]|].
           split; [intros [|[= ->]]; [done|]; by rewrite lookup_empty in Hv|].
           split; [intros d' v' [= <-] Hv' Hne; congruence|].
           intros d' [= <-] _ Hv'. congruence.
        -- assert (v ≠ VStr "ACTIVE") as Hne.
           { intros ->. assert (py_eq_str (VStr "ACTIVE") "ACTIVE" = true) as Ht'
               by (by apply py_eq_str_true).
             congruence. }
           split; [done|].
           split; [split; [done | intros (d' & [= <-] & Hv'); congruence]|].
           split; [intros [|[= ->]]; [done|]; by rewrite lookup_empty in Hv|].
           split; [done|]. intros d' [= <-] _ Hv'. congruence.
      * unfold session_of, outcome_of; simpl.
        split; [done|].
        split; [split; [done | intros (d' & [= <-] & Hv'); congruence]|].
        split; [intros [|[= ->]]; [done|];
                apply bool_decide_eq_true in Ht; done|].
        split; [intros d' v' [= <-] Hv'; congruence|]. done.
    + apply bool_decide_eq_false in Ht. assert (d = ∅) as -> by (by apply dec_stable).
      unfold session_of, outcome_of; simpl.
      split; [done|].
      split; [split; [done | intros (d' & [= <-] & Hv'); by rewrite lookup_empty in Hv']|].
      split; [done|].
      split; [intros d' v' [= <-] Hv'; by rewrite lookup_empty in Hv'|].
      intros d' [= <-] Hne. done.
  - unfold session_of, outcome_of; simpl.
    split; [done|]. split; [split; [done | intros (d' & [=] & _)]|].
    split; [done|]. split; [intros d' v' [=]|intros d' [=]].
Qed.

Lemma check_plugin_status_true_iff_active_witness :
  w_plugin plugin_disabled TargetConn = Ok (Some (plugin_row "DISABLED"))
  ∧ check_plugin_status plugin_disabled TargetConn "target" connected
    = ([Execute TargetConn SelectPlugin; Print (LPluginNotActive "target")],
       connected, Ret false).
Proof.
  split; [reflexivity|].
  refine (proj1 (proj2 (proj2 (proj2
            (check_plugin_status_true_iff_active plugin_disabled TargetConn "target"
               connected _ eq_refl))))
            _ (VStr "DISABLED") eq_refl _ _); [reflexivity|discriminate].
Defined.

(** ** The active-session check *)

Lemma missing_key_none (c : row) :
  missing_key c = None →
  ∃ i u h d co t,
    c !! "ID" = Some i ∧ c !! "USER" = Some u ∧ c !! "HOST" = Some h
    ∧ c !! "DB" = Some d ∧ c !! "COMMAND" = Some co ∧ c !! "TIME" = Some t.
Proof.
  unfold missing_key, conn_keys. simpl.
  destruct (c !! "ID") as [i|]; [|done].
  destruct (c !! "USER") as [u|]; [|done].
  destruct (c !! "HOST") as [h|]; [|done].
  destruct (c !! "DB") as [d|]; [|done].
  destruct (c !! "COMMAND") as [co|]; [|done].
  destruct (c !! "TIME") as [t|]; [|done].
  intros _. by exists i, u, h, d, co, t.
Qed.

(** The report of one row: its line, or the [KeyError] of its first missing
    key before anything of the row is printed. *)
Lemma print_active_connections_cons c rest ses :
  print_active_connections (c :: rest) ses
  = match missing_key c with
    | None => prepend [Print (active_conn_line c)] (print_active_connections rest ses)
    | Some k => ([], ses, Raise (key_error k))
    end.
Proof.
  unfold missing_key, conn_keys, active_conn_line, dict_get. cbn [print_active_connections].
  unfold getitem, key_error. munfold. simpl.
  destruct (c !! "ID") as [i|]; [|done].
  destruct (c !! "USER") as [u|]; [|done].
  destruct (c !! "HOST") as [h|]; [|done].
  destruct (c !! "DB") as [d|]; [|done].
  destruct (c !! "COMMAND") as [co|]; [|done].
  destruct (c !! "TIME") as [t|]; [|done].
  simpl. unfold prepend, trace_of, session_of, outcome_of.
  by destruct (print_active_connections rest ses) as [[t' s'] o].
Qed.

Lemma print_active_connections_all rows ses :
  Forall (λ c, missing_key c = None) rows →
  print_active_connections rows ses
  = (map (λ c, Print (active_conn_line c)) rows, ses, Ret tt).
Proof.
  induction 1 as [|c rest Hc _ IH]; [done|].
  by rewrite print_active_connections_cons, Hc, IH.
Qed.

Lemma print_active_connections_stops pre c post k ses :
  Forall (λ c, missing_key c = None) pre →
  missing_key c = Some k →
  print_active_connections (pre ++ c :: post) ses
  = (map (λ c, Print (active_conn_line c)) pre, ses, Raise (key_error k)).
Proof.
  intros Hpre Hk. induction Hpre as [|c' pre' Hc' _ IH]; simpl app.
  - by rewrite print_active_connections_cons, Hk.
  - by rewrite print_active_connections_cons, Hc', IH.
Qed.

Arguments print_active_connections : simpl never.

(** X3.  When every row of the process list has the six columns the report
    reads, [check_active_connections] prints the count and then one line
    per row, in order, and returns [True] exactly when the list is empty
    (then it prints the no-connections line instead). *)
Theorem check_active_connections_reports_every_session cfg w ses rows :
  w_processlist w = Ok rows →
  Forall (λ c, missing_key c = None) rows →
  check_active_connections cfg w ses
  = (Execute TargetConn (SelectProcesslist (target_user cfg))
       :: match rows with
          | [] => [Print LNoActive]
          | _ :: _ => Print (LFoundActive (length rows))
                        :: map (λ c, Print (active_conn_line c)) rows
          end,
     ses, Ret (bool_decide (rows = []))).
Proof.
  intros Hw Hrows. unfold check_active_connections. munfold. rewrite Hw. simpl.
  destruct rows as [|c rest]; [done|].
  rewrite print_active_connections_all by done. simpl.
  by rewrite app_nil_r.
Qed.

Lemma check_active_connections_reports_every_session_witness :
  w_processlist busy_target = Ok [busy_session; busy_session]
  ∧ Forall (λ c, missing_key c = None) [busy_session; busy_session]
  ∧ check_active_connections cfg0 busy_target connected
    = ([Execute TargetConn (SelectProcesslist "admin");
        Print (LFoundActive 2);
        Print (active_conn_line busy_session);
        Print (active_conn_line busy_session)],
       connected, Ret false).
Proof.
  assert (Forall (λ c, missing_key c = None) [busy_session; busy_session]) as H
    by (repeat constructor).
  split; [reflexivity|]. split; [exact H|].
  exact (check_active_connections_reports_every_session cfg0 busy_target connected
           _ eq_refl H).
Defined.

(** X4.  A process-list row that lacks one of the columns of the report makes
    [check_active_connections] raise [KeyError] for the first missing
    column, after the count and the lines of the rows before it; no verdict
    is returned. *)
Theorem check_active_connections_key_error cfg w ses pre c post k :
  w_processlist w = Ok (pre ++ c :: post) →
  Forall (λ c, missing_key c = None) pre →
  missing_key c = Some k →
  check_active_connections cfg w ses
  = (Execute TargetConn (SelectProcesslist (target_user cfg))
       :: Print (LFoundActive (length (pre ++ c :: post)))
       :: map (λ c, Print (active_conn_line c)) pre,
     ses, Raise (key_error k)).
Proof.
  intros Hw Hpre Hk. unfold check_active_connections. munfold. rewrite Hw. simpl.
  destruct (pre ++ c :: post) as [|c0 rest] eqn:E; [by destruct pre|].
  rewrite <- E. rewrite (print_active_connections_stops _ _ _ _ _ Hpre Hk). done.
Qed.

Lemma check_active_connections_key_error_witness :
  w_processlist truncated_processlist = Ok ([busy_session] ++ truncated_session :: [busy_session])
  ∧ missing_key truncated_session = Some "DB"
  ∧ check_active_connections cfg0 truncated_processlist connected
    = ([Execute TargetConn (SelectProcesslist "admin");
        Print (LFoundActive 3);
        Print (active_conn_line busy_session)],
       connected, Raise (key_error "DB")).
Proof.
  split; [reflexivity|]. split; [reflexivity|].
  refine (check_active_connections_key_error cfg0 truncated_processlist connected
            [busy_session] truncated_session [busy_session] "DB" eq_refl _ eq_refl).
  repeat constructor.
Defined.

(** ** ssh_connect *)

(** X5.  [ssh_connect] stores the SSH client before it connects, so the client
    is set whether or not the connection succeeds; it returns [True]
    exactly when the connection succeeds, turns every [Exception] into a
    printed line and [False], and lets only non-[Exception] errors out. *)
Theorem ssh_connect_always_sets_client w host ses :
  let r := ssh_connect w host ses in
  session_of r = with_ssh ses
  ∧ (outcome_of r = Ret true ↔ w_ssh_connect w = Ok tt)
  ∧ (∀ e, outcome_of r = Raise e → is_Exception e = false)
  ∧ (∀ e, w_ssh_connect w = Err e → is_Exception e = true →
       r = ([SshConnect host; Print (LSshError host e)], with_ssh ses, Ret false)).
Proof.
  intros r. subst r.
  unfold ssh_connect, set_ssh_client, get_session, put_session, try_except, with_ssh. munfold.
  simpl. destruct (w_ssh_connect w) as [[]|e]; simpl.
  - unfold session_of, outcome_of; simpl. repeat split; try done.
  - destruct (is_Exception e) eqn:E; simpl; unfold session_of, outcome_of; simpl.
    + split; [done|]. split; [split; intros; discriminate|].
      split; [intros; discriminate|]. by intros ? [= <-].
    + split; [done|]. split; [split; intros; discriminate|].
      split; [by intros ? [= <-]|]. intros ? [= <-]. congruence.
Qed.

(** ** cleanup *)

Ltac cleanup_unfold := unfold cleanup, get_session, close_events; munfold.

(** X6.  When the closes it attempts succeed, [cleanup] closes exactly the
    handles that are set, in the order source, target, SSH, returns, and
    leaves the handles set. *)
Theorem cleanup_closes_what_is_set w s :
  (source_conn s = true → w_close w SourceConn = Ok tt) →
  (target_conn s = true → w_close w TargetConn = Ok tt) →
  (ssh_client s = true → w_ssh_close w = Ok tt) →
  cleanup w s = (close_events s, s, Ret tt).
Proof.
  intros H1 H2 H3. cleanup_unfold. simpl.
  destruct s as [[|] [|] [|]]; simpl in *;
    rewrite ?H1, ?H2, ?H3 by done; done.
Qed.

Lemma cleanup_closes_what_is_set_witness :
  cleanup healthy connected = ([Close SourceConn; Close TargetConn], connected, Ret tt).
Proof.
  refine (cleanup_closes_what_is_set healthy connected _ _ _); reflexivity.
Defined.

(** X7.  A close that raises ends [cleanup] there: when closing the source
    connection raises, neither the target connection nor the SSH client is
    closed; when closing the target connection raises, the SSH client is
    not closed; the exception propagates. *)
Theorem cleanup_stops_at_first_failing_close w s e :
  (source_conn s = true →
   w_close w SourceConn = Err e →
   cleanup w s = ([Close SourceConn], s, Raise e))
  ∧ ((source_conn s = true → w_close w SourceConn = Ok tt) →
     target_conn s = true →
     w_close w TargetConn = Err e →
     cleanup w s
     = ((if source_conn s then [Close SourceConn] else []) ++ [Close TargetConn],
        s, Raise e)).
Proof.
  split.
  - intros H1 H2. cleanup_unfold. simpl. rewrite H1, H2. done.
  - intros H1 H2 H3. cleanup_unfold. simpl. rewrite H2, H3.
    destruct (source_conn s); simpl; [rewrite H1 by done|]; done.
Qed.

(** ** The reconnection loop *)

Lemma failed_attempts_counts k retries n :
  count_events is_monitor_connect (failed_attempts k retries n) = k
  ∧ sleep_total (failed_attempts k retries n) = 2 * Z.of_nat k.
Proof.
  revert retries n. induction k as [|k IH]; intros retries n; [done|].
  destruct (IH (S retries) (n + Z.of_nat (S retries) * 3)) as [IH1 IH2].
  cbn [failed_attempts]. unfold count_events in *. cbn [List.filter is_monitor_connect length].
  cbn [sleep_total]. rewrite IH1, IH2. split; [done|lia].
Qed.

Lemma wait_online_S w budget retries n ses :
  wait_online w (S budget) retries n ses
  = match w_reconnect w retries with
    | Ok _ => ([Connect MonitoringConn], ses, Ret true)
    | Err _ =>
        let n' := n + Z.of_nat (S retries) * 3 in
        prepend [Connect MonitoringConn; Bar WaitingBar n'; Sleep 2]
                (wait_online w budget (S retries) n' ses)
    end.
Proof.
  unfold wait_online at 1; fold (wait_online w). munfold.
  destruct (w_reconnect w retries); [done|].
  cbv zeta. unfold prepend, trace_of, session_of, outcome_of.
  destruct (wait_online w budget (S retries) (n + Z.of_nat (S retries) * 3) ses)
    as [[t s] o]. done.
Qed.

Lemma wait_online_first_success w budget retries n ses (k : nat) :
  (k < budget)%nat →
  (∀ j : nat, (j < k)%nat → ∃ e, w_reconnect w (retries + j)%nat = Err e) →
  w_reconnect w (retries + k)%nat = Ok tt →
  wait_online w budget retries n ses
  = (failed_attempts k retries n ++ [Connect MonitoringConn], ses, Ret true).
Proof.
  revert budget retries n. induction k as [|k IH]; intros budget retries n Hk Hfail Hok.
  - destruct budget as [|budget]; [lia|]. rewrite wait_online_S.
    rewrite Nat.add_0_r in Hok. rewrite Hok. done.
  - destruct budget as [|budget]; [lia|]. rewrite wait_online_S.
    destruct (Hfail 0%nat) as [e He]; [lia|]. rewrite Nat.add_0_r in He. rewrite He.
    cbv zeta. rewrite (IH budget (S retries)); [done|lia| |].
    + intros j Hj. replace (S retries + j)%nat with (retries + S j)%nat by lia.
      apply Hfail. lia.
    + by replace (S retries + k)%nat with (retries + S k)%nat by lia.
Qed.

(** X8.  If the first [k] reconnection attempts fail and attempt [k] (below the
    budget of 30) succeeds, the waiting loop makes exactly [k + 1]
    connection attempts, sleeps 2 seconds after each failure ([2 * k]
    seconds in all), leaves the object unchanged and yields a connection. *)
Theorem reconnect_stops_at_first_success w ses (k : nat) :
  (k < max_retries)%nat →
  (∀ j : nat, (j < k)%nat → ∃ e, w_reconnect w j = Err e) →
  w_reconnect w k = Ok tt →
  let r := wait_online w max_retries 0 0 ses in
  r = (failed_attempts k 0 0 ++ [Connect MonitoringConn], ses, Ret true)
  ∧ count_events is_monitor_connect (trace_of r) = S k
  ∧ sleep_total (trace_of r) = 2 * Z.of_nat k.
Proof.
  intros Hk Hfail Hok r. subst r.
  rewrite (wait_online_first_success w max_retries 0 0 ses k) by done.
  split; [done|]. unfold trace_of; simpl.
  destruct (failed_attempts_counts k 0 0) as [H1 H2].
  split.
  - unfold count_events in *. rewrite List.filter_app, length_app, H1. simpl. lia.
  - clear H1. revert H2. generalize (failed_attempts k 0 0). intros l.
    assert (∀ l x, sleep_total (l ++ [Connect MonitoringConn]) = x ↔ sleep_total l = x) as H.
    { clear. induction l as [|[] l IH]; intros x; simpl; try apply IH; try done.
      split; intros <-; f_equal; by apply IH. }
    intros H2. by apply H.
Qed.

Lemma reconnect_stops_at_first_success_witness :
  (2 < max_retries)%nat
  ∧ w_reconnect healthy 2 = Ok tt
  ∧ count_events is_monitor_connect
      (trace_of (wait_online healthy max_retries 0 0 connected)) = 3%nat
  ∧ sleep_total (trace_of (wait_online healthy max_retries 0 0 connected)) = 4.
Proof.
  assert (2 < max_retries)%nat as H by (unfold max_retries; lia).
  split; [exact H|]. split; [reflexivity|].
  refine (proj2 (reconnect_stops_at_first_success healthy connected 2 H _ eq_refl)).
  intros j Hj. exists connection_refused. destruct j as [|[|j]]; [reflexivity|reflexivity|lia].
Defined.

Lemma bar_after_failures_succ j :
  bar_after_failures j + Z.of_nat (S j) * 3 = bar_after_failures (S j).
Proof.
  unfold bar_after_failures.
  replace (Z.of_nat (S j) * (Z.of_nat (S j) + 1))
    with (Z.of_nat j * (Z.of_nat j + 1) + (Z.of_nat j + 1) * 2) by lia.
  rewrite Z.div_add by lia. lia.
Qed.

Lemma failed_attempts_positions k retries :
  waiting_positions (failed_attempts k retries (bar_after_failures retries))
  = map bar_after_failures (seq (S retries) k).
Proof.
  revert retries. induction k as [|k IH]; intros retries; [done|].
  cbn [failed_attempts waiting_positions seq map].
  rewrite bar_after_failures_succ. by rewrite IH.
Qed.

Lemma waiting_positions_app t1 t2 :
  waiting_positions (t1 ++ t2) = waiting_positions t1 ++ waiting_positions t2.
Proof.
  induction t1 as [|e t1 IH]; [done|].
  destruct e as [| | | | | | | |[] n]; simpl; by rewrite ?IH.
Qed.

Lemma bar_after_failures_grows (j : nat) : (8 ≤ j)%nat → 100 < bar_after_failures j.
Proof.
  intros Hj. unfold bar_after_failures.
  assert (36 ≤ Z.of_nat j * (Z.of_nat j + 1) / 2); [|lia].
  apply Z.div_le_lower_bound; nia.
Qed.

(** X9.  Each failed attempt advances the waiting bar by three times the
    number of failures so far, so after [j] failures it stands at
    [3 * (1 + ... + j)]; from the eighth failure on that is past the bar's
    total of 100. *)
Theorem waiting_bar_overshoots w ses (k : nat) :
  (k ≤ max_retries)%nat →
  (∀ j : nat, (j < k)%nat → ∃ e, w_reconnect w j = Err e) →
  (k = max_retries ∨ w_reconnect w k = Ok tt) →
  waiting_positions (trace_of (wait_online w max_retries 0 0 ses))
  = map bar_after_failures (seq 1 k)
  ∧ ∀ j : nat, (8 ≤ j)%nat → 100 < bar_after_failures j.
Proof.
  intros Hk Hfail Hend. split; [|apply bar_after_failures_grows].
  destruct (decide (k = max_retries)) as [->|Hne].
  - rewrite wait_online_all_fail by (intros j Hj; apply Hfail; lia).
    unfold trace_of; simpl. exact (failed_attempts_positions max_retries 0).
  - destruct Hend as [?|Hok]; [done|].
    rewrite (wait_online_first_success w max_retries 0 0 ses k) by (done || lia).
    unfold trace_of; simpl. rewrite waiting_positions_app, app_nil_r.
    exact (failed_attempts_positions k 0).
Qed.

Lemma waiting_bar_overshoots_witness :
  waiting_positions (trace_of (wait_online never_back max_retries 0 0 connected))
  = map bar_after_failures (seq 1 max_retries)
  ∧ ∀ j : nat, (8 ≤ j)%nat → 100 < bar_after_failures j.
Proof.
  refine (waiting_bar_overshoots never_back connected max_retries _ _ _).
  - reflexivity.
  - intros j _. by exists connection_refused.
  - by left.
Defined.

(** ** What the monitor emits *)

Lemma sum_work_quiet p rows a b : quiet p (sum_work rows a b).
Proof.
  intros s. destruct (sum_work_run rows a b s) as [(tw & cw & ->)|(e & ->)]; constructor.
Qed.

Section PollingEvents.
Variable p : event → bool.
Hypothesis p_polling : ∀ e, is_polling_event e = true → p e = false.

Ltac quiet_poll :=
  repeat first
    [ apply quiet_emit; apply p_polling; reflexivity
    | apply sum_work_quiet
    | quiet_step ].

Lemma poll_cycle_quiet smp st : quiet p (poll_cycle smp st).
Proof.
  unfold poll_cycle, poll_no_progress, poll_with_progress, pbar_update, print.
  quiet_poll.
Qed.

Lemma monitor_loop_quiet samples st : quiet p (monitor_loop samples st).
Proof.
  revert st. induction samples as [|smp rest IH]; intros st; simpl.
  - destruct (completed st); [apply quiet_ret|]. intros s. constructor.
  - destruct (completed st); [apply quiet_ret|].
    apply quiet_bind; [apply poll_cycle_quiet|]. intros st'. apply IH.
Qed.
End PollingEvents.

Section MonitoringEvents.
Variable p : event → bool.
Hypothesis p_monitoring : ∀ e, is_monitoring_event e = true → p e = false.

Lemma wait_online_quiet w budget retries n : quiet p (wait_online w budget retries n).
Proof.
  intros s. destruct (wait_online_run w budget retries n s) as (k & b & _ & ->).
  unfold trace_of, none_of; simpl. apply Forall_app. split.
  - revert retries n. induction k as [|k IH]; intros retries n; [constructor|].
    cbn [failed_attempts]. repeat (constructor; [by apply p_monitoring|]). apply IH.
  - destruct b; repeat constructor. by apply p_monitoring.
Qed.

Lemma monitor_quiet w : quiet p (_monitor_clone_progress w).
Proof.
  unfold _monitor_clone_progress, print.
  repeat first
    [ apply quiet_emit; apply p_monitoring; reflexivity
    | apply wait_online_quiet
    | apply monitor_loop_quiet;
      intros [[]| | |[] []| | | | |[]] He; try discriminate He; by apply p_monitoring
    | quiet_step ].
Qed.
End MonitoringEvents.

Lemma monitor_loop_session samples st ses :
  session_of (monitor_loop samples st ses) = ses.
Proof.
  revert st ses. induction samples as [|smp rest IH]; intros st ses; simpl.
  - by destruct (completed st).
  - destruct (completed st); [done|].
    destruct (poll_cycle_diagnostics smp st ses) as (Hs & _).
    unfold mbind, M_bind, bind.
    destruct (poll_cycle smp st ses) as [[t s1] o]. unfold session_of in *; simpl in *.
    subst s1. destruct o as [st'| | |]; try done.
    specialize (IH st' ses). by destruct (monitor_loop rest st' ses) as [[t' s2] o'].
Qed.

Lemma monitor_session w ses : session_of (_monitor_clone_progress w ses) = ses.
Proof.
  unfold _monitor_clone_progress, try_except. munfold.
  destruct (wait_online_run w max_retries 0 0 ses) as (k & b & _ & ->). simpl.
  destruct b; simpl; [|done].
  pose proof (monitor_loop_session (w_samples w) mon_init ses) as Hl.
  destruct (monitor_loop (w_samples w) mon_init ses) as [[t s] o].
  unfold session_of in *; simpl in *. subst s.
  destruct o as [st|e| |]; simpl; try done.
  - by destruct (completed st).
  - by destruct (is_Exception e).
Qed.

(** X10.  [_monitor_clone_progress] only waits, connects for monitoring, reads
    the two clone tables, moves the bars, closes its own connection and
    prints its own lines; it leaves the object's handles unchanged; and no
    [Exception] leaves it. *)
Theorem monitor_only_reads w ses :
  let r := _monitor_clone_progress w ses in
  Forall (λ e, is_monitoring_event e = true) (trace_of r)
  ∧ session_of r = ses
  ∧ ∀ x, outcome_of r = Raise x → is_Exception x = false.
Proof.
  intros r. subst r. split; [|split].
  - pose proof (monitor_quiet (λ e, negb (is_monitoring_event e))) as H.
    unfold quiet, none_of in H.
    eapply Forall_impl; [apply H|].
    + intros e He. by rewrite He.
    + intros e He. simpl in He. by apply negb_false_iff.
  - apply monitor_session.
  - apply monitor_outcome.
Qed.

(** ** Exceptions while monitoring *)

Lemma wait_online_events w budget retries n ses x :
  In x (trace_of (wait_online w budget retries n ses)) →
  is_monitor_connect x = true ∨ (∃ m, x = Bar WaitingBar m) ∨ x = Sleep 2.
Proof.
  destruct (wait_online_run w budget retries n ses) as (k & b & _ & ->).
  unfold trace_of; simpl. intros [Hx|Hx]%in_app_or.
  - revert retries n Hx. induction k as [|k IH]; intros retries n Hx; [done|].
    cbn [failed_attempts] in Hx.
    destruct Hx as [<-|[<-|[<-|Hx]]]; eauto.
  - destruct b; [|done]. destruct Hx as [<-|[]]. by left.
Qed.

Lemma monitor_loop_events samples st ses x :
  In x (trace_of (monitor_loop samples st ses)) → is_polling_event x = true.
Proof.
  pose proof (monitor_loop_quiet (λ x, negb (is_polling_event x))
                ltac:(intros y Hy; simpl; by rewrite Hy) samples st ses) as H.
  unfold none_of in H. rewrite List.Forall_forall in H.
  intros Hx. specialize (H _ Hx). by apply negb_false_iff.
Qed.


(** X11.  An [Exception] raised inside the polling loop is caught by the handler
    of [_monitor_clone_progress]: its text is printed, the monitoring
    connection is not closed, the success line is not printed, and the
    function returns normally, so [execute_clone] still returns [True]. *)
Theorem monitoring_error_is_swallowed cfg w ses0 tw t s e :
  wait_online w max_retries 0 0 (with_ssh ses0) = (tw, with_ssh ses0, Ret true) →
  monitor_loop (w_samples w) mon_init (with_ssh ses0) = (t, s, Raise e) →
  is_Exception e = true →
  let r := _monitor_clone_progress w (with_ssh ses0) in
  r = (Sleep 5 :: tw ++ t ++ [Print (LErrorMonitoring e)], with_ssh ses0, Ret tt)
  ∧ ¬ In (Close MonitoringConn) (trace_of r)
  ∧ ¬ In (Print LCloneCompleted) (trace_of r)
  ∧ (reaches_dispatch w →
     (w_clone w = Ok tt ∨ ∃ e', w_clone w = Err e' ∧ expected_disconnect e' = true) →
     outcome_of (execute_clone cfg w ses0) = Ret true).
Proof.
  intros Hw Hl He r.
  assert (s = with_ssh ses0) as ->.
  { pose proof (monitor_loop_session (w_samples w) mon_init (with_ssh ses0)) as H.
    by rewrite Hl in H. }
  assert (r = (Sleep 5 :: tw ++ t ++ [Print (LErrorMonitoring e)], with_ssh ses0, Ret tt))
    as Hr.
  { subst r. unfold _monitor_clone_progress, try_except. munfold. rewrite Hw. simpl.
    rewrite Hl. simpl. rewrite He. simpl. by rewrite <- !app_assoc. }
  split; [done|].
  assert (∀ x, In x tw → is_monitor_connect x = true
                          ∨ (∃ n, x = Bar WaitingBar n) ∨ x = Sleep 2) as Htw.
  { intros x Hx. apply (wait_online_events w max_retries 0 0 (with_ssh ses0)).
    by rewrite Hw. }
  assert (none_of (λ x, negb (is_polling_event x)) t) as Ht.
  { pose proof (monitor_loop_quiet (λ x, negb (is_polling_event x))
                  ltac:(intros x Hx; simpl; by rewrite Hx) (w_samples w) mon_init (with_ssh ses0)) as H.
    by rewrite Hl in H. }
  unfold none_of in Ht. rewrite List.Forall_forall in Ht.
  split; [|split].
  - rewrite Hr. unfold trace_of; simpl.
    intros [Hx|[Hx|[Hx|[Hx|[]]]%in_app_or]%in_app_or]; try discriminate Hx.
    + destruct (Htw _ Hx) as [H|[[n H]|H]]; discriminate H.
    + specialize (Ht _ Hx). discriminate Ht.
  - rewrite Hr. unfold trace_of; simpl.
    intros [Hx|[Hx|[Hx|[Hx|[]]]%in_app_or]%in_app_or]; try discriminate Hx.
    + destruct (Htw _ Hx) as [H|[[n H]|H]]; discriminate H.
    + specialize (Ht _ Hx). discriminate Ht.
  - intros Hd Hc. rewrite (execute_clone_monitoring cfg w ses0 Hd Hc).
    fold r. rewrite Hr. done.
Qed.

Lemma monitoring_error_is_swallowed_witness :
  is_Exception (unsupported_operand "NoneType") = true
  ∧ outcome_of (_monitor_clone_progress null_stage (with_ssh connected)) = Ret tt
  ∧ ¬ In (Close MonitoringConn)
        (trace_of (_monitor_clone_progress null_stage (with_ssh connected)))
  ∧ outcome_of (execute_clone cfg0 null_stage connected) = Ret true.
Proof.
  pose proof (monitoring_error_is_swallowed cfg0 null_stage connected
                [Connect MonitoringConn]
                [Execute MonitoringConn SelectCloneProgress]
                (with_ssh connected)
                (unsupported_operand "NoneType")
                eq_refl eq_refl eq_refl) as (H1 & H2 & _ & H4).
  split; [reflexivity|]. split; [by rewrite H1|]. split; [exact H2|].
  apply H4.
  - split; [by exists {[ "datadir" := VStr "/var/lib/mysql/" ]}, (VStr "/var/lib/mysql/")|].
    by repeat split.
  - right. by exists lost_connection.
Defined.

Lemma sum_work_bad rows a b ses :
  Exists (λ r, work "WORK_ESTIMATED" r = None ∨ work "WORK_COMPLETED" r = None) rows →
  ∃ e, sum_work rows a b ses = ([], ses, Raise e) ∧ exc_cls e = TypeError.
Proof.
  intros H. revert a b. induction rows as [|r rest IH]; intros a b.
  - by apply Exists_nil in H.
  - unfold sum_work; fold sum_work. unfold work in *. munfold.
    destruct (dict_get_default r "WORK_ESTIMATED" (VInt 0)) as [|z1|s1] eqn:E1; simpl;
      try (eexists; split; [reflexivity|done]).
    destruct (dict_get_default r "WORK_COMPLETED" (VInt 0)) as [|z2|s2] eqn:E2; simpl;
      try (eexists; split; [reflexivity|done]).
    apply Exists_cons in H as [[H|H]|H];
      [by rewrite E1 in H | by rewrite E2 in H |].
    destruct (IH H (a + z1) (b + z2)) as (e & -> & He). by exists e.
Qed.

(** X12.  A progress row whose WORK_ESTIMATED or WORK_COMPLETED is NULL or text
    makes the summation raise [TypeError]: the poll cycle ends right after
    the progress query, before any bar update or status query. *)
Theorem null_work_column_raises smp st ses rows :
  progress smp = Ok rows →
  Exists (λ r, work "WORK_ESTIMATED" r = None ∨ work "WORK_COMPLETED" r = None) rows →
  ∃ e, poll_cycle smp st ses = ([Execute MonitoringConn SelectCloneProgress], ses, Raise e)
       ∧ exc_cls e = TypeError
       ∧ is_Exception e = true.
Proof.
  intros Hp Hbad. destruct rows as [|r rest]; [by apply Exists_nil in Hbad|].
  destruct (sum_work_bad (r :: rest) 0 0 ses Hbad) as (e & Hs & He).
  exists e. split; [|split; [done|]].
  - munfold. rewrite Hp. simpl.
    unfold mbind, M_bind, bind, mret, M_ret, ret in Hs. by rewrite Hs.
  - unfold is_Exception. by rewrite He.
Qed.

Lemma null_work_column_raises_witness :
  progress sample_null = Ok [task 100 40; null_estimate]
  ∧ work "WORK_ESTIMATED" null_estimate = None
  ∧ ∃ e, poll_cycle sample_null mon_init connected
         = ([Execute MonitoringConn SelectCloneProgress], connected, Raise e)
         ∧ exc_cls e = TypeError
         ∧ is_Exception e = true.
Proof.
  split; [reflexivity|]. split; [reflexivity|].
  refine (null_work_column_raises sample_null mon_init connected _ eq_refl _).
  apply Exists_cons_tl, Exists_cons_hd. by left.
Defined.

(** ** Summing the work columns *)

Lemma sum_work_totals rows a b ses :
  Forall (λ r, work "WORK_ESTIMATED" r ≠ None ∧ work "WORK_COMPLETED" r ≠ None) rows →
  sum_work rows a b ses
  = ([], ses, Ret (a + total_of "WORK_ESTIMATED" rows, b + total_of "WORK_COMPLETED" rows)).
Proof.
  intros H. revert a b. induction H as [|r rest [H1 H2] _ IH]; intros a b.
  - unfold sum_work. simpl. by rewrite !Z.add_0_r.
  - unfold sum_work; fold sum_work. unfold total_of, work_or_zero, work in *. munfold.
    destruct (dict_get_default r "WORK_ESTIMATED" (VInt 0)) as [|z1|s1] eqn:E1; try done.
    destruct (dict_get_default r "WORK_COMPLETED" (VInt 0)) as [|z2|s2] eqn:E2; try done.
    simpl. rewrite IH. simpl. rewrite E1, E2. simpl. do 3 f_equal; lia.
Qed.

(** X13.  With progress rows present and all work columns integers, a poll
    cycle does not raise on the sum: when the summed estimate is positive
    the bar is moved to the percentage of the two sums over all rows; when
    it is zero or negative the bar is not moved by the sample (only a
    Completed status moves it, to 100). *)
Theorem percentage_is_of_the_summed_work smp st ses rows p st_row :
  completed st = false →
  progress smp = Ok rows →
  rows ≠ [] →
  Forall (λ r, work "WORK_ESTIMATED" r ≠ None ∧ work "WORK_COMPLETED" r ≠ None) rows →
  status smp = Ok st_row →
  let total_work := total_of "WORK_ESTIMATED" rows in
  let completed_work := total_of "WORK_COMPLETED" rows in
  (0 < total_work →
   progress_percent_of completed_work total_work = Ok p →
   ∃ t st', poll_cycle smp st ses = (t, ses, Ret st')
     ∧ bar_positions t = (if completed st' then [p; 100] else [p]))
  ∧ (total_work ≤ 0 →
     ∃ t st', poll_cycle smp st ses = (t, ses, Ret st')
       ∧ bar_positions t = (if completed st' then [100] else [])
       ∧ (completed st' = false → pbar_n st' = pbar_n st)).
Proof.
  intros Hc Hp Hrows Hgood Hs total_work completed_work.
  pose proof (sum_work_totals rows 0 0 ses Hgood) as Hw. rewrite !Z.add_0_l in Hw.
  subst total_work completed_work.
  remember (total_of "WORK_ESTIMATED" rows) as total_work eqn:Et.
  remember (total_of "WORK_COMPLETED" rows) as completed_work eqn:Ec.
  clear Et Ec Hgood.
  destruct rows as [|r rest]; [done|].
  destruct st as [n c er]. simpl in Hc. subst c.
  split.
  - intros Htw Hpc. apply Z.ltb_lt in Htw.
    munfold. rewrite Hp. simpl. rewrite Hw. simpl. rewrite Htw, Hpc, Hs. simpl.
    destruct (fetched_truthy st_row); simpl;
      [destruct (py_eq_str _ "Completed"); simpl;
         [|destruct (py_eq_str _ "Failed" && negb er); simpl]|];
      eexists _, _; (split; [reflexivity|]); simpl; rewrite ?Zplus_minus; done.
  - intros Htw. apply Z.ltb_ge in Htw.
    munfold. rewrite Hp. simpl. rewrite Hw. simpl. rewrite Htw, Hs. simpl.
    destruct (fetched_truthy st_row); simpl;
      [destruct (py_eq_str _ "Completed"); simpl;
         [|destruct (py_eq_str _ "Failed" && negb er); simpl]|];
      eexists _, _; (split; [reflexivity|]); simpl; rewrite ?Zplus_minus; done.
Qed.

Lemma percentage_is_of_the_summed_work_witness :
  progress sample_40 = Ok [task 100 40]
  ∧ progress_percent_of 40 100 = Ok 40
  ∧ ∃ t st', poll_cycle sample_40 mon_init connected = (t, connected, Ret st')
     ∧ bar_positions t = (if completed st' then [40; 100] else [40]).
Proof.
  assert (progress_percent_of 40 100 = Ok 40) as Hp by (vm_compute; reflexivity).
  split; [reflexivity|]. split; [exact Hp|].
  refine (proj1 (percentage_is_of_the_summed_work sample_40 mon_init connected
                   [task 100 40] 40 in_progress eq_refl eq_refl _ _ eq_refl) _ Hp).
  - discriminate.
  - repeat constructor; discriminate.
  - reflexivity.
Defined.

(** ** The percentage *)

Lemma binary_round_aux_nonneg prec emax m e l :
  nonneg_float (binary_round_aux prec emax false m e l).
Proof.
  unfold binary_round_aux.
  destruct (shr_fexp prec emax m e l) as [mrs e'].
  destruct (shr_fexp prec emax _ e' loc_Exact) as [mrs' e''].
  destruct (shr_m mrs'); simpl; try done.
  by destruct (e'' <=? emax - prec).
Qed.

Lemma int_of_float_nonneg x p : nonneg_float x → int_of_float x = Ok p → 0 ≤ p.
Proof.
  destruct x as [s|s| |[|] m e]; simpl; try done.
  - by intros _ [= <-].
  - intros _ [= <-]. destruct e; [apply Z.shiftl_nonneg|apply Z.shiftl_nonneg|
                                   apply Z.shiftr_nonneg]; lia.
Qed.

(** X14.  For a non-negative completed sum and a positive estimate, the
    percentage [min(int(c / t * 100), 100)], computed in binary64, lies
    between 0 and 100 whenever it is defined, and is 0 for no work done. *)
Theorem percentage_bounds completed_work total_work p :
  0 ≤ completed_work →
  0 < total_work →
  progress_percent_of completed_work total_work = Ok p →
  0 ≤ p ≤ 100 ∧ progress_percent_of 0 total_work = Ok 0.
Proof.
  intros Hc Ht Hp. split.
  - split; [|by eapply progress_percent_le].
    revert Hp. unfold progress_percent_of, int_truediv, float_mul.
    destruct total_work as [|t|t]; try lia.
    destruct completed_work as [|c|c]; try lia; simpl float_of_int.
    + simpl. by intros [= <-].
    + cbn [SFdiv xorb].
      destruct (SFdiv_core_binary prec64 emax64 (Z.pos c) 0 (Z.pos t) 0) as [[mz ez] lz].
      pose proof (binary_round_aux_nonneg prec64 emax64 mz ez lz) as Hq.
      destruct (binary_round_aux prec64 emax64 false mz ez lz) as [s|s| |[|] m e];
        try done.
      * simpl. intros [= <-]. lia.
      * cbn [SFmul xorb].
        pose proof (binary_round_aux_nonneg prec64 emax64 (Z.pos (m * 100)) (e + 0) loc_Exact)
          as Hq'.
        destruct (int_of_float _) as [q|] eqn:Hi; [|done].
        intros [= <-]. apply int_of_float_nonneg in Hi; [lia|done].
  - unfold progress_percent_of, int_truediv, float_mul.
    destruct total_work as [|t|t]; try lia. done.
Qed.

Lemma percentage_bounds_witness :
  progress_percent_of 40 100 = Ok 40
  ∧ 0 ≤ 40 ≤ 100 ∧ progress_percent_of 0 100 = Ok 0.
Proof.
  assert (progress_percent_of 40 100 = Ok 40) as Hp by (vm_compute; reflexivity).
  split; [exact Hp|].
  refine (percentage_bounds 40 100 40 _ _ Hp); lia.
Defined.

(** ** How the loop ends *)

Lemma poll_cycle_completes smp st ses t s' st' :
  completed st = false →
  poll_cycle smp st ses = (t, s', Ret st') →
  completed st' = true →
  pbar_n st' = 100 ∧ ∃ t1, t = t1 ++ [Bar CloneBar 100; Sleep 2].
Proof.
  destruct smp as [pr sr], st as [n c er]. simpl. intros ->. munfold. simpl.
  destruct pr as [[|task rest]|e]; simpl; [| |done].
  - destruct sr as [st_row|e]; simpl; [|done].
    destruct (status_error_free st_row); simpl.
    + intros [= <- <- <-] _. simpl. rewrite Zplus_minus. split; [done|].
      by exists [Execute MonitoringConn SelectCloneProgress;
                 Execute MonitoringConn SelectCloneStatus].
    + destruct er; simpl; by intros [= <- <- <-].
  - destruct (sum_work_run (task :: rest) 0 0 ses) as [(tw & cw & Hs)|(e & Hs)];
      unfold mbind, M_bind, bind, mret, M_ret, ret in Hs; rewrite Hs; simpl; [|done].
    destruct (0 <? tw); simpl;
      [destruct (progress_percent_of cw tw) as [p|e]; simpl; [|done]|];
      (destruct sr as [st_row|e]; simpl; [|done]);
      (destruct (fetched_truthy st_row); simpl; [|by intros [= <- <- <-]]);
      (destruct (py_eq_str _ "Completed"); simpl;
         [|destruct (py_eq_str _ "Failed" && negb er); simpl; by intros [= <- <- <-]]);
      intros [= <- <- <-] _; simpl; rewrite !Zplus_minus; (split; [done|]).
    + by exists [Execute MonitoringConn SelectCloneProgress; Bar CloneBar p;
                 Execute MonitoringConn SelectCloneStatus].
    + by exists [Execute MonitoringConn SelectCloneProgress;
                 Execute MonitoringConn SelectCloneStatus].
Qed.

Lemma monitor_loop_returns samples st ses t s' st' :
  completed st = false →
  monitor_loop samples st ses = (t, s', Ret st') →
  completed st' = true ∧ pbar_n st' = 100 ∧ ∃ t1, t = t1 ++ [Bar CloneBar 100; Sleep 2].
Proof.
  revert st ses t. induction samples as [|smp rest IH]; intros st ses t Hc; simpl; rewrite Hc.
  - done.
  - unfold mbind, M_bind, bind.
    destruct (poll_cycle smp st ses) as [[tc s1] [st1| | |]] eqn:Hp; try done.
    destruct (completed st1) eqn:Hc1.
    + rewrite monitor_loop_completed by done. rewrite app_nil_r. intros [= <- <- <-].
      split; [done|]. by eapply poll_cycle_completes.
    + destruct (monitor_loop rest st1 s1) as [[t' s2] o] eqn:Hl.
      intros [= <- <- ->].
      destruct (IH _ _ _ Hc1 Hl) as (H1 & H2 & t1 & ->).
      split; [done|]. split; [done|]. exists (tc ++ t1). by rewrite app_assoc.
Qed.

Ltac no_success_line :=
  let H := fresh "H" in
  solve [
  intros H; simpl in H; rewrite ?in_app_iff in H; simpl in H;
  repeat match goal with
    | H : _ ∨ _ |- _ => destruct H as [H|H]
    | H : False |- _ => destruct H
    | H : _ = Print LCloneCompleted |- _ => discriminate H
    | Hn : ∀ x, In x ?l → x ≠ Print LCloneCompleted, H : In _ ?l |- _ =>
        by destruct (Hn _ H)
    end ].

(** X15.  Whenever [_monitor_clone_progress] prints the success line, it is
    the last thing it does: it returns normally and the trace ends with the
    clone bar at 100, the two-second sleep, the close of the monitoring
    connection and the line. *)
Theorem success_line_follows_full_bar w ses :
  In (Print LCloneCompleted) (trace_of (_monitor_clone_progress w ses)) →
  outcome_of (_monitor_clone_progress w ses) = Ret tt
  ∧ ∃ t1, trace_of (_monitor_clone_progress w ses)
          = t1 ++ [Bar CloneBar 100; Sleep 2; Close MonitoringConn; Print LCloneCompleted].
Proof.
  unfold _monitor_clone_progress, try_except. munfold.
  pose proof (wait_online_events w max_retries 0 0 ses) as Hw.
  destruct (wait_online w max_retries 0 0 ses) as [[tw s1] o0];
    unfold trace_of in *; simpl in *.
  assert (∀ x, In x tw → x ≠ Print LCloneCompleted) as Hw'.
  { intros x Hx ->. destruct (Hw _ Hx) as [H|[[m H]|H]]; discriminate H. }
  clear Hw.
  destruct o0 as [b|e|c|]; simpl; [|destruct (is_Exception e); simpl| |];
    try no_success_line.
  destruct b; simpl; [|no_success_line].
  pose proof (monitor_loop_events (w_samples w) mon_init s1) as Hl.
  pose proof (monitor_loop_returns (w_samples w) mon_init s1) as Hr.
  destruct (monitor_loop (w_samples w) mon_init s1) as [[t s2] o].
  unfold trace_of in *; simpl in *.
  assert (∀ x, In x t → x ≠ Print LCloneCompleted) as Hl'.
  { intros x Hx ->. specialize (Hl _ Hx). discriminate Hl. }
  clear Hl.
  destruct o as [st|e|c|]; simpl; [|destruct (is_Exception e); simpl| |];
    try no_success_line.
  destruct (Hr _ _ _ eq_refl eq_refl) as (Hc & _ & t1 & ->). rewrite Hc. simpl.
  intros _. split; [done|]. exists (Sleep 5 :: tw ++ t1).
  simpl. by rewrite <- !app_assoc.
Qed.

Lemma success_line_follows_full_bar_witness :
  outcome_of (_monitor_clone_progress healthy (with_ssh connected)) = Ret tt
  ∧ ∃ t1, trace_of (_monitor_clone_progress healthy (with_ssh connected))
          = t1 ++ [Bar CloneBar 100; Sleep 2; Close MonitoringConn; Print LCloneCompleted].
Proof.
  refine (success_line_follows_full_bar healthy (with_ssh connected) _).
  vm_compute. repeat first [left; reflexivity | right].
Defined.

(** ** How computations end *)

Section Ends.
Variable E : Z → Prop.
Variable S : Prop.

Lemma ends_ret {A} (a : A) : ends E S (mret a).
Proof. by intros s. Qed.

Lemma ends_emit e : ends E S (emit e).
Proof. by intros s. Qed.

Lemma ends_raise {A} e : ends E S (raise (A := A) e).
Proof. by intros s. Qed.

Lemma ends_sys_exit {A} c : E c → ends E S (sys_exit (A := A) c).
Proof. by intros H s. Qed.

Lemma ends_call {A} (r : result A) : ends E S (call r).
Proof. intros s. by destruct r. Qed.

Lemma ends_get_session : ends E S get_session.
Proof. by intros s. Qed.

Lemma ends_put_session s' : ends E S (put_session s').
Proof. by intros s. Qed.

Lemma ends_bind {A B} (m : M A) (f : A → M B) :
  ends E S m → (∀ a, ends E S (f a)) → ends E S (m ≫= f).
Proof.
  intros Hm Hf s. specialize (Hm s). unfold mbind, M_bind, bind, outcome_of in *.
  destruct (m s) as [[t s1] [a|e|c|]]; simpl in *; try done.
  specialize (Hf a s1). unfold outcome_of in Hf. by destruct (f a s1) as [[t' s2] o].
Qed.

Lemma ends_try_except {A} (m : M A) catches h :
  ends E S m → (∀ e, ends E S (h e)) → ends E S (try_except m catches h).
Proof.
  intros Hm Hh s. specialize (Hm s). unfold try_except, outcome_of in *.
  destruct (m s) as [[t s1] [a|e|c|]]; simpl in *; try done.
  destruct (catches e); simpl; [|done].
  specialize (Hh e s1). unfold outcome_of in Hh. by destruct (h e s1) as [[t' s2] o].
Qed.
End Ends.

Ltac ends_step :=
  first
    [ apply ends_ret | apply ends_raise | apply ends_call | apply ends_emit
    | apply ends_get_session | apply ends_put_session
    | apply ends_sys_exit; reflexivity
    | apply ends_bind; [|intros ?]
    | apply ends_try_except; [|intros ?]
    | match goal with
      | |- ends _ _ (if ?b then _ else _) => destruct b
      | |- ends _ _ (match ?x with _ => _ end) => destruct x
      end ].

Lemma print_active_connections_ends E S rows : ends E S (print_active_connections rows).
Proof.
  induction rows as [|c rest IH]; intros s.
  - done.
  - rewrite print_active_connections_cons. destruct (missing_key c); [done|].
    specialize (IH s). unfold prepend, outcome_of in *.
    by destruct (print_active_connections rest s) as [[t s'] o].
Qed.

Lemma preflight_ends cfg w force : ends (λ c, c = 1) False (preflight cfg w force).
Proof.
  unfold preflight, connect_to_source, connect_to_target, report_connect_error,
    set_source_conn, set_target_conn, check_plugin_status, check_active_connections,
    fetched_getitem, getitem, print.
  repeat first [apply print_active_connections_ends | ends_step].
Qed.

Lemma monitor_ends w : ends (λ c, c = 1) True (_monitor_clone_progress w).
Proof.
  intros s. pose proof (monitor_outcome w s) as _.
  unfold _monitor_clone_progress, try_except. munfold.
  destruct (wait_online_run w max_retries 0 0 s) as (k & b & _ & ->). simpl.
  destruct b; simpl; [|done].
  assert (∀ samples st s, abnormal_ok (λ c, c = 1) True
                            (outcome_of (monitor_loop samples st s))) as Hl.
  { clear. induction samples as [|smp rest IH]; intros st s; simpl.
    - by destruct (completed st).
    - destruct (completed st); [done|].
      apply (ends_bind (λ c, c = 1) True (poll_cycle smp st) (monitor_loop rest));
        [|intros st'; intros s'; apply IH].
      clear. unfold poll_cycle, poll_no_progress, poll_with_progress, pbar_update, print.
      repeat first
        [ match goal with
          | |- ends _ _ (sum_work ?r ?a ?b) =>
              let s := fresh "s" in
              intros s;
              destruct (sum_work_run r a b s) as [(? & ? & ->)|(? & ->)]; done
          end
        | ends_step ]. }
  specialize (Hl (w_samples w) mon_init s).
  destruct (monitor_loop (w_samples w) mon_init s) as [[t s1] o].
  unfold outcome_of in *; simpl in *.
  destruct o as [st|e|c|]; simpl; try done.
  - by destruct (completed st).
  - by destruct (is_Exception e).
Qed.

Lemma validate_clone_ends w : ends (λ c, c = 1) False (validate_clone w).
Proof.
  unfold validate_clone, fetched_getitem, getitem, print. repeat ends_step.
Qed.

Lemma main_body_ends cfg w force : ends (λ c, c = 1) True (main_body cfg w force).
Proof.
  unfold main_body, clone_and_validate, execute_clone, ssh_connect, dispatch_clone,
    set_ssh_client, fetched_getitem, getitem, print.
  repeat first
    [ apply monitor_ends
    | match goal with
      | |- ends _ _ (preflight _ _ _) =>
          let s := fresh "s" in
          intros s; pose proof (preflight_ends cfg w force s) as H;
          by destruct (outcome_of (preflight cfg w force s))
      | |- ends _ _ (validate_clone _) =>
          let s := fresh "s" in
          intros s; pose proof (validate_clone_ends w s) as H;
          by destruct (outcome_of (validate_clone w s))
      end
    | ends_step ].
Qed.

(** ** How main ends *)

(** X16.  [main] never exits with a status other than 1 through [sys.exit]; an
    exception leaves it only when [cleanup] raised it, every exception of
    the body being turned into exit status 1 by the two handlers; and a run
    is left waiting for a poll answer only inside the body. *)
Theorem main_exit_paths cfg w force ses :
  match outcome_of (main cfg w force ses) with
  | Ret _ => True
  | Exit c => c = 1
  | Raise e => ∃ s, outcome_of (cleanup w s) = Raise e
  | Starved => outcome_of (main_body cfg w force ses) = Starved
  end.
Proof.
  unfold main, finally, try_except.
  pose proof (main_body_ends cfg w force ses) as Hb. unfold outcome_of in *.
  destruct (main_body cfg w force ses) as [[t s1] [[]|e|c|]]; simpl in *.
  - destruct (cleanup_run w s1) as (tc & o & Hc & _ & [->|[e ->]]); rewrite Hc; simpl; [done|].
    exists s1. by rewrite Hc.
  - rewrite main_catches_all. unfold main_handler.
    destruct (is_KeyboardInterrupt e); unfold mbind, M_bind, bind, print, emit, sys_exit;
      simpl;
      (destruct (cleanup_run w s1) as (tc & o & Hc & _ & [->|[e' ->]]); rewrite Hc; simpl;
       [done|exists s1; by rewrite Hc]).
  - destruct (cleanup_run w s1) as (tc & o & Hc & _ & [->|[e ->]]); rewrite Hc; simpl; [done|].
    exists s1. by rewrite Hc.
  - done.
Qed.

(** ** What happens to the handles *)

Section Keeps.
Variable R : session → session → Prop.
Hypothesis R_refl : ∀ s, R s s.
Hypothesis R_trans : ∀ s1 s2 s3, R s1 s2 → R s2 s3 → R s1 s3.

Lemma keeps_ret {A} (a : A) : keeps R (mret a).
Proof. intros s. apply R_refl. Qed.

Lemma keeps_emit e : keeps R (emit e).
Proof. intros s. apply R_refl. Qed.

Lemma keeps_raise {A} e : keeps R (raise (A := A) e).
Proof. intros s. apply R_refl. Qed.

Lemma keeps_sys_exit {A} c : keeps R (sys_exit (A := A) c).
Proof. intros s. apply R_refl. Qed.

Lemma keeps_call {A} (r : result A) : keeps R (call r).
Proof. intros s. destruct r; apply R_refl. Qed.

Lemma keeps_bind {A B} (m : M A) (f : A → M B) :
  keeps R m → (∀ a, keeps R (f a)) → keeps R (m ≫= f).
Proof.
  intros Hm Hf s. specialize (Hm s). unfold mbind, M_bind, bind, session_of in *.
  destruct (m s) as [[t s1] [a|e|c|]]; simpl in *; try done.
  specialize (Hf a s1). unfold session_of in Hf.
  destruct (f a s1) as [[t' s2] o]. simpl in *. by eapply R_trans.
Qed.

Lemma keeps_try_except {A} (m : M A) catches h :
  keeps R m → (∀ e, keeps R (h e)) → keeps R (try_except m catches h).
Proof.
  intros Hm Hh s. specialize (Hm s). unfold try_except, session_of in *.
  destruct (m s) as [[t s1] [a|e|c|]]; simpl in *; try done.
  destruct (catches e); simpl; [|done].
  specialize (Hh e s1). unfold session_of in Hh.
  destruct (h e s1) as [[t' s2] o]. simpl in *. by eapply R_trans.
Qed.

Lemma keeps_eq {A} (m : M A) : (∀ s, session_of (m s) = s) → keeps R m.
Proof. intros H s. rewrite H. apply R_refl. Qed.

Hypothesis R_source :
  ∀ s, R s {| source_conn := true; target_conn := target_conn s; ssh_client := ssh_client s |}.
Hypothesis R_target :
  ∀ s, R s {| source_conn := source_conn s; target_conn := true; ssh_client := ssh_client s |}.

Lemma keeps_set_source_conn : keeps R set_source_conn.
Proof. intros s. apply R_source. Qed.

Lemma keeps_set_target_conn : keeps R set_target_conn.
Proof. intros s. apply R_target. Qed.

Lemma print_active_connections_keeps rows : keeps R (print_active_connections rows).
Proof.
  apply keeps_eq. induction rows as [|c rest IH]; intros s; [done|].
  rewrite print_active_connections_cons. destruct (missing_key c); [done|].
  unfold prepend, session_of in *. apply IH.
Qed.

Ltac keeps_step :=
  first
    [ apply keeps_set_source_conn | apply keeps_set_target_conn
    | apply print_active_connections_keeps
    | apply keeps_ret | apply keeps_raise | apply keeps_call | apply keeps_emit
    | apply keeps_sys_exit
    | apply keeps_bind; [|intros ?]
    | apply keeps_try_except; [|intros ?]
    | match goal with
      | |- keeps _ (if ?b then _ else _) => destruct b
      | |- keeps _ (match ?x with _ => _ end) => destruct x
      end ].

Lemma preflight_keeps cfg w force : keeps R (preflight cfg w force).
Proof.
  unfold preflight, connect_to_source, connect_to_target, report_connect_error,
    check_plugin_status, check_active_connections, fetched_getitem, getitem, print.
  repeat keeps_step.
Qed.

Lemma validate_clone_keeps w : keeps R (validate_clone w).
Proof.
  unfold validate_clone, fetched_getitem, getitem, print. repeat keeps_step.
Qed.

Hypothesis R_ssh :
  ∀ s, R s {| source_conn := source_conn s; target_conn := target_conn s; ssh_client := true |}.

Lemma keeps_set_ssh_client : keeps R set_ssh_client.
Proof. intros s. apply R_ssh. Qed.

Lemma clone_and_validate_keeps cfg w : keeps R (clone_and_validate cfg w).
Proof.
  unfold clone_and_validate, execute_clone, ssh_connect, dispatch_clone,
    fetched_getitem, getitem, print.
  repeat first
    [ apply keeps_set_ssh_client
    | apply validate_clone_keeps
    | apply keeps_eq; apply monitor_session
    | keeps_step ].
Qed.
End Keeps.

(** ** Pre-flight is observational *)

(** X17.  The pre-flight checks only connect to the two databases, run the
    plugin and process-list queries and print; they never touch the SSH
    client, and when they exit it is with status 1. *)
Theorem preflight_only_observes cfg w force ses :
  let r := preflight cfg w force ses in
  Forall (λ e, is_preflight_event e = true) (trace_of r)
  ∧ ssh_client (session_of r) = ssh_client ses
  ∧ match outcome_of r with
    | Exit c => c = 1
    | Starved => False
    | _ => True
    end.
Proof.
  intros r. subst r. split; [|split].
  - pose proof (preflight_quiet (λ e, negb (is_preflight_event e))
                  ltac:(intros e He; simpl; by rewrite He) cfg w force ses) as H.
    unfold none_of in H. eapply Forall_impl; [exact H|].
    intros e He. simpl in He. by apply negb_false_iff.
  - apply (preflight_keeps (λ s s', ssh_client s' = ssh_client s)); try done.
    intros s1 s2 s3 H1 H2. congruence.
  - exact (preflight_ends cfg w force ses).
Qed.

Lemma main_body_preflight_raise cfg w force ses t s1 e :
  preflight cfg w force ses = (t, s1, Raise e) →
  main_body cfg w force ses = (Print LPreflightChecks :: t, s1, Raise e).
Proof.
  intros H. unfold main_body, mbind, M_bind, bind, print, emit. by rewrite H.
Qed.

(** X18.  Unless the pre-flight checks all pass, the whole run of [main]
    consists of pre-flight events and the closes of [cleanup] (no donor
    list, no clone statement, no SSH, no monitoring), and the process ends
    with status 1. *)
Theorem nothing_is_sent_unless_preflight_passes cfg w force ses :
  outcome_of (preflight cfg w force ses) ≠ Ret tt →
  Forall (λ e, is_preflight_event e = true ∨ is_cleanup_event e = true)
         (trace_of (main cfg w force ses))
  ∧ exit_status (outcome_of (main cfg w force ses)) = Some 1.
Proof.
  intros Hne.
  pose proof (preflight_ends cfg w force ses) as He.
  pose proof (preflight_quiet (λ e, negb (is_preflight_event e))
                ltac:(intros e H; simpl; by rewrite H) cfg w force ses) as Hq.
  unfold none_of in Hq.
  destruct (preflight cfg w force ses) as [[tp s1] o] eqn:Hp.
  unfold outcome_of, trace_of in *; simpl in *.
  assert (Forall (λ e, is_preflight_event e = true ∨ is_cleanup_event e = true) tp) as Htp.
  { eapply Forall_impl; [exact Hq|]. intros e H. simpl in H. left. by apply negb_false_iff. }
  assert (∀ tc, none_of (λ e, negb (is_cleanup_event e)) tc →
                Forall (λ e, is_preflight_event e = true ∨ is_cleanup_event e = true) tc) as Hc.
  { intros tc H. eapply Forall_impl; [exact H|]. intros e H'. simpl in H'. right.
    by apply negb_false_iff. }
  destruct o as [[]|e|c|]; try done.
  - destruct (main_body_raise _ _ _ _ _ _ _ (main_body_preflight_raise _ _ _ _ _ _ _ Hp))
      as (Hx & tc & Ht & Hcl).
    split; [|done]. unfold trace_of in Ht. rewrite Ht.
    apply Forall_app. split; [by constructor; [left|]|].
    constructor; [by left|]. by apply Hc.
  - simpl in He. subst c.
    destruct (main_body_exit _ _ _ _ _ _ (main_body_preflight_exit _ _ _ _ _ _ _ Hp))
      as (_ & Hx & tc & Ht & Hcl).
    split; [|done]. unfold trace_of in Ht. rewrite Ht.
    apply Forall_app. split; [by constructor; [left|]|]. by apply Hc.
Qed.

Lemma nothing_is_sent_unless_preflight_passes_witness :
  outcome_of (preflight cfg0 all_down false fresh_session) = Exit 1
  ∧ Forall (λ e, is_preflight_event e = true ∨ is_cleanup_event e = true)
           (trace_of (main cfg0 all_down false fresh_session))
  ∧ exit_status (outcome_of (main cfg0 all_down false fresh_session)) = Some 1.
Proof.
  split; [reflexivity|].
  refine (nothing_is_sent_unless_preflight_passes cfg0 all_down false fresh_session _).
  vm_compute. discriminate.
Defined.

(** ** Connections opened and closed *)

Lemma session_le_refl s : session_le s s.
Proof. by repeat split. Qed.

Lemma session_le_trans s1 s2 s3 : session_le s1 s2 → session_le s2 s3 → session_le s1 s3.
Proof. intros (A1 & A2 & A3) (B1 & B2 & B3). repeat split; auto. Qed.

Lemma validate_clone_session w ses : session_of (validate_clone w ses) = ses.
Proof.
  apply (validate_clone_keeps (λ s s', s' = s)); [done|congruence].
Qed.

Lemma session_le_source s :
  session_le s {| source_conn := true; target_conn := target_conn s;
                  ssh_client := ssh_client s |}.
Proof. by repeat split. Qed.

Lemma session_le_target s :
  session_le s {| source_conn := source_conn s; target_conn := true;
                  ssh_client := ssh_client s |}.
Proof. by repeat split. Qed.

Lemma session_le_ssh s :
  session_le s {| source_conn := source_conn s; target_conn := target_conn s;
                  ssh_client := true |}.
Proof. by repeat split. Qed.

(** Once the source connection is up, it is still set when the body of
    [main] ends. *)
Lemma main_body_keeps_source cfg w force ses :
  w_connect_source w = Ok tt →
  source_conn (session_of (main_body cfg w force ses)) = true.
Proof.
  intros Hsrc.
  assert (connect_to_source cfg w ses
          = ([Connect SourceConn; Print (LConnected Source (source_host cfg) (source_port cfg))],
             {| source_conn := true; target_conn := target_conn ses;
                ssh_client := ssh_client ses |}, Ret true)) as Hc.
  { unfold connect_to_source, set_source_conn, get_session, put_session, try_except.
    munfold. by rewrite Hsrc. }
  set (s1 := {| source_conn := true; target_conn := target_conn ses;
                ssh_client := ssh_client ses |}) in *.
  assert (source_conn (session_of (preflight cfg w force ses)) = true) as Hp.
  { unfold preflight. rewrite (bind_run_ret _ _ _ _ _ _ Hc).
    unfold prepend, session_of at 1. cbn [fst snd].
    match goal with |- source_conn (session_of (?k s1)) = true =>
      assert (keeps session_le k) as Hk end.
    { unfold connect_to_target, report_connect_error, check_plugin_status,
        check_active_connections, fetched_getitem, getitem, print.
      repeat first
        [ apply (keeps_set_target_conn session_le); apply session_le_target
        | apply (print_active_connections_keeps session_le); apply session_le_refl
        | apply (keeps_ret session_le session_le_refl)
        | apply (keeps_raise session_le session_le_refl)
        | apply (keeps_call session_le session_le_refl)
        | apply (keeps_emit session_le session_le_refl)
        | apply (keeps_sys_exit session_le session_le_refl)
        | apply (keeps_bind session_le session_le_trans); [|intros ?]
        | apply (keeps_try_except session_le session_le_trans); [|intros ?]
        | match goal with
          | |- keeps _ (if ?b then _ else _) => destruct b
          | |- keeps _ (match ?x with _ => _ end) => destruct x
          end ]. }
    by apply (Hk s1). }
  unfold main_body, mbind at 1 2, M_bind, bind, print, emit. simpl.
  destruct (preflight cfg w force ses) as [[tp sp] [[]|e|c|]]; unfold session_of in *;
    simpl in *; try done.
  pose proof (clone_and_validate_keeps session_le session_le_refl session_le_trans
                session_le_ssh cfg w sp) as (H & _).
  unfold session_of in H.
  destruct (clone_and_validate cfg w sp) as [[t s2] o]. simpl in *. by apply H.
Qed.

(** X19.  In a run of [main] that ends, starting with no handle set, the source
    connection is closed by [cleanup] exactly when it was opened: no step
    of the run ever clears the handle, and [cleanup] closes it first. *)
Theorem source_connection_closed_iff_opened cfg w force :
  outcome_of (main cfg w force fresh_session) ≠ Starved →
  (In (Close SourceConn) (trace_of (main cfg w force fresh_session))
   ↔ w_connect_source w = Ok tt).
Proof.
  intros Hne. split.
  - destruct (w_connect_source w) as [[]|e] eqn:Hsrc; [done|]. intros Hin. exfalso.
    revert Hin.
    unfold main, finally, main_body, preflight, connect_to_source, report_connect_error,
      main_handler, cleanup, get_session, set_source_conn, put_session, try_except.
    munfold. rewrite Hsrc. simpl.
    destruct (is_MySQLError e); simpl.
    + destruct (py_eq_int (exc_arg0 e) 1045); simpl;
        [|destruct (py_eq_int (exc_arg0 e) 2003); simpl];
        unfold trace_of; simpl; intuition discriminate.
    + rewrite main_catches_all.
      destruct (is_KeyboardInterrupt e); simpl; unfold trace_of; simpl;
        intuition discriminate.
  - intros Hsrc. pose proof (main_body_keeps_source cfg w force fresh_session Hsrc) as Hs.
    revert Hne. unfold main, finally, try_except.
    destruct (main_body cfg w force fresh_session) as [[t s1] o].
    unfold session_of in Hs; simpl in Hs.
    assert (∃ tc s2 oc, cleanup w s1 = (Close SourceConn :: tc, s2, oc)) as (tc & s2 & oc & Hc).
    { unfold cleanup, get_session. munfold. simpl. rewrite Hs.
      destruct (w_close w SourceConn); simpl; [|by eexists _, _, _].
      destruct (target_conn s1); simpl;
        [destruct (w_close w TargetConn); simpl; [|by eexists _, _, _]|];
        (destruct (ssh_client s1); simpl;
           [destruct (w_ssh_close w); simpl|]; by eexists _, _, _). }
    destruct o as [[]|e|c|]; simpl.
    + rewrite Hc. intros _. unfold trace_of; simpl.
      destruct oc; simpl; apply in_or_app; right; by left.
    + rewrite main_catches_all. unfold main_handler.
      destruct (is_KeyboardInterrupt e); unfold mbind, M_bind, bind, print, emit, sys_exit;
        simpl; rewrite Hc; intros _; unfold trace_of; simpl;
        destruct oc; simpl; apply in_or_app; right; by left.
    + rewrite Hc. intros _. unfold trace_of; simpl.
      destruct oc; simpl; apply in_or_app; right; by left.
    + unfold outcome_of. simpl. done.
Qed.

Lemma source_connection_closed_iff_opened_witness :
  In (Close SourceConn) (trace_of (main cfg0 healthy false fresh_session))
  ↔ w_connect_source healthy = Ok tt.
Proof.
  refine (source_connection_closed_iff_opened cfg0 healthy false _).
  vm_compute. discriminate.
Defined.

(** ** validate_clone *)

Ltac in_trace :=
  unfold trace_of, outcome_of, session_of, none_of; simpl;
  rewrite ?Exists_cons, ?Exists_nil, ?Forall_cons, ?Forall_nil; simpl.

Ltac in_disj H := repeat (destruct H as [H|H]; try discriminate H); try done.

Ltac val_close :=
  in_trace;
  split; [first [done | by intros ? [= <-] ] |];
  split; [done|]; split; [done|];
  split;
  [ intros H;
    first [ solve [in_disj H]
          | split; [by eexists | repeat split; done] ]
  | intros ([b Hb] & Hq);
    first [ discriminate Hb
          | solve [decompose [and] Hq; discriminate]
          | solve [repeat first [left; reflexivity | right]] ] ].

(** X20.  [validate_clone] leaves the object's handles unchanged, never exits
    and never lets a [MySQLError] out; the connection it opens is closed
    exactly on the two paths that reach a verdict without an exception: it
    is not closed when the handler reports an error, nor when another
    exception (a missing server-info row or column) propagates. *)
Theorem validation_error_handling w ses :
  let r := validate_clone w ses in
  session_of r = ses
  ∧ (∀ e, outcome_of r = Raise e → is_MySQLError e = false)
  ∧ (∀ c, outcome_of r ≠ Exit c)
  ∧ outcome_of r ≠ Starved
  ∧ (In (Close NewConn) (trace_of r)
     ↔ (∃ b, outcome_of r = Ret b) ∧ none_of is_validation_error (trace_of r)).
Proof.
  intros r. subst r. split; [apply validate_clone_session|].
  validate_unfold.
  destruct (w_validate_connect w) as [[]|e0]; simpl;
    [|destruct (is_MySQLError e0) eqn:E; val_close].
  destruct (w_validate_status w) as [st|e1]; simpl;
    [|destruct (is_MySQLError e1) eqn:E; val_close].
  destruct (status_successful st); simpl; [|val_close].
  destruct (w_server_info w) as [si|e2]; simpl;
    [|destruct (is_MySQLError e2) eqn:E; val_close].
  destruct si as [d|]; simpl; [|val_close].
  destruct (d !! "version") as [v|]; simpl; [|val_close].
  destruct (d !! "server_id") as [i|]; simpl; val_close.
Qed.

(** ** A failed validation and the exit status *)

Lemma print_active_connections_no_validation_line rows :
  quiet is_validation_failure (print_active_connections rows).
Proof.
  induction rows as [|c rest IH]; simpl; [apply quiet_ret|].
  unfold print.
  repeat first
    [ apply quiet_emit; reflexivity
    | apply getitem_quiet | apply fetched_getitem_quiet
    | exact IH
    | quiet_step ].
Qed.

Lemma preflight_no_validation_line cfg w force :
  quiet is_validation_failure (preflight cfg w force).
Proof.
  unfold preflight, connect_to_source, connect_to_target, report_connect_error,
    set_source_conn, set_target_conn, check_plugin_status, check_active_connections, print.
  repeat first
    [ apply print_active_connections_no_validation_line
    | apply quiet_emit; reflexivity
    | apply getitem_quiet | apply fetched_getitem_quiet
    | quiet_step ].
Qed.

Lemma monitoring_event_not_validation e :
  is_monitoring_event e = true → is_validation_failure e = false.
Proof. by destruct e as [[]| | | | | | | |]. Qed.

Lemma execute_clone_no_validation_line cfg w :
  quiet is_validation_failure (execute_clone cfg w).
Proof.
  unfold execute_clone, ssh_connect, dispatch_clone, set_ssh_client, print.
  repeat first
    [ apply quiet_emit; reflexivity
    | apply getitem_quiet | apply fetched_getitem_quiet
    | apply monitor_quiet; apply monitoring_event_not_validation
    | quiet_step ].
Qed.

Lemma validation_failure_returns w ses :
  Exists (λ e, is_validation_failure e = true) (trace_of (validate_clone w ses)) →
  outcome_of (validate_clone w ses) = Ret false.
Proof.
  validate_unfold.
  destruct (w_validate_connect w) as [[]|e0]; simpl;
    [|destruct (is_MySQLError e0); in_trace; intuition discriminate].
  destruct (w_validate_status w) as [st|e1]; simpl;
    [|destruct (is_MySQLError e1); in_trace; intuition discriminate].
  destruct (status_successful st); simpl; [|in_trace; intuition discriminate].
  destruct (w_server_info w) as [si|e2]; simpl;
    [|destruct (is_MySQLError e2); in_trace; intuition discriminate].
  destruct si as [d|]; simpl; [|in_trace; intuition discriminate].
  destruct (d !! "version") as [v|]; simpl; [|in_trace; intuition discriminate].
  destruct (d !! "server_id") as [i|]; simpl; in_trace; intuition discriminate.
Qed.

Lemma quiet_not_exists {A} p (m : M A) s :
  quiet p m → ¬ Exists (λ e, p e = true) (trace_of (m s)).
Proof.
  intros Hq Hex. specialize (Hq s). unfold none_of in Hq.
  apply Exists_exists in Hex as (e & Hin & He).
  rewrite Forall_forall in Hq. specialize (Hq e Hin). congruence.
Qed.

Lemma cleanup_no_validation_line w : quiet is_validation_failure (cleanup w).
Proof. apply cleanup_quiet. by intros [[]| | | | | | | |]. Qed.

(** X21.  The result of [validate_clone] is discarded by [main]: in a run that
    printed a validation failure (the failed verdict or the handler's
    line) and whose closes succeed, the process ends with status 0. *)
Theorem failed_validation_exits_zero cfg w force ses :
  closes_fine w →
  Exists (λ e, is_validation_failure e = true) (trace_of (main cfg w force ses)) →
  exit_status (outcome_of (main cfg w force ses)) = Some 0.
Proof.
  intros [Hc Hs] Hex.
  assert (∀ s, cleanup w s = (close_events s, s, Ret tt)) as Hclean.
  { intros s. unfold cleanup, get_session, close_events. munfold. simpl.
    rewrite !Hc, Hs. by destruct s as [[|] [|] [|]]. }
  pose proof (quiet_not_exists _ _ ses
                (preflight_no_validation_line cfg w force)) as Hp.
  assert (∀ s, ¬ Exists (λ e, is_validation_failure e = true) (close_events s)) as Hcl.
  { intros s. pose proof (quiet_not_exists _ _ s (cleanup_no_validation_line w)) as H.
    by rewrite Hclean in H. }
  revert Hex. unfold main, finally, try_except, main_body, clone_and_validate, sys_exit.
  munfold. simpl.
  destruct (preflight cfg w force ses) as [[tp sp] op]. unfold trace_of in Hp; simpl in Hp.
  destruct op as [[]|e|c|]; simpl.
  2: { rewrite main_catches_all. unfold main_handler.
       destruct (is_KeyboardInterrupt e); unfold mbind, M_bind, bind, print, emit, sys_exit;
         simpl; rewrite Hclean; unfold trace_of; simpl;
         rewrite Exists_cons, !Exists_app, ?Exists_cons, Exists_nil; simpl;
         specialize (Hcl sp); intuition discriminate. }
  2: { rewrite Hclean. unfold trace_of; simpl.
       rewrite Exists_cons, !Exists_app; simpl. specialize (Hcl sp). intuition discriminate. }
  2: { unfold trace_of; simpl. rewrite Exists_cons, ?Exists_app, ?Exists_nil; simpl.
       intuition discriminate. }
  pose proof (quiet_not_exists _ _ sp (execute_clone_no_validation_line cfg w)) as He.
  destruct (execute_clone cfg w sp) as [[te se] oe]. unfold trace_of in He; simpl in He.
  destruct oe as [[|]|e|c|]; simpl.
  - pose proof (validation_failure_returns w se) as Hv.
    destruct (validate_clone w se) as [[tv sv] ov]. unfold trace_of, outcome_of in Hv.
    simpl in Hv.
    destruct ov as [b|e|c|]; simpl.
    + rewrite Hclean. by unfold outcome_of.
    + rewrite main_catches_all. unfold main_handler.
      destruct (is_KeyboardInterrupt e); unfold mbind, M_bind, bind, print, emit, sys_exit;
        simpl; rewrite Hclean; unfold trace_of; simpl;
        rewrite Exists_cons, !Exists_app, ?Exists_cons, ?Exists_app, Exists_nil; simpl;
        specialize (Hcl sv); intros H; exfalso;
        (assert (Exists (λ e, is_validation_failure e = true) tv) as Htv
           by intuition discriminate); by specialize (Hv Htv).
    + rewrite Hclean. unfold trace_of; simpl.
      rewrite Exists_cons, !Exists_app; simpl. specialize (Hcl sv). intros H; exfalso.
      (assert (Exists (λ e, is_validation_failure e = true) tv) as Htv
         by intuition discriminate); by specialize (Hv Htv).
    + unfold trace_of; simpl. rewrite Exists_cons, !Exists_app; simpl. intros H; exfalso.
      (assert (Exists (λ e, is_validation_failure e = true) tv) as Htv
         by intuition discriminate); by specialize (Hv Htv).
  - unfold mbind, M_bind, bind, print, emit, sys_exit. simpl. rewrite Hclean.
    unfold trace_of; simpl.
    rewrite Exists_cons, !Exists_app, ?Exists_cons, ?Exists_nil; simpl.
    specialize (Hcl se). intuition discriminate.
  - rewrite main_catches_all. unfold main_handler.
    destruct (is_KeyboardInterrupt e); unfold mbind, M_bind, bind, print, emit, sys_exit;
      simpl; rewrite Hclean; unfold trace_of; simpl;
      rewrite Exists_cons, !Exists_app, ?Exists_cons, ?Exists_app, Exists_nil; simpl;
      specialize (Hcl se); intuition discriminate.
  - rewrite Hclean. unfold trace_of; simpl.
    rewrite Exists_cons, !Exists_app; simpl. specialize (Hcl se). intuition discriminate.
  - unfold trace_of; simpl. rewrite Exists_cons, ?Exists_app, ?Exists_nil; simpl.
    intuition discriminate.
Qed.

Lemma failed_validation_exits_zero_witness :
  In (Print (LValidationFailed "disk full"))
     (trace_of (main cfg0 validation_fails false fresh_session))
  ∧ exit_status (outcome_of (main cfg0 validation_fails false fresh_session)) = Some 0.
Proof.
  assert (In (Print (LValidationFailed "disk full"))
             (trace_of (main cfg0 validation_fails false fresh_session))) as Hin.
  { vm_compute. repeat first [left; reflexivity | right]. }
  split; [exact Hin|].
  refine (failed_validation_exits_zero cfg0 validation_fails false fresh_session _ _).
  - by split.
  - apply Exists_exists. exists (Print (LValidationFailed "disk full")).
    split; [by apply list_elem_of_In|reflexivity].
Defined.

(** ** The order of the statements of execute_clone *)

Lemma monitoring_event_not_dispatch e :
  is_monitoring_event e = true → is_dispatch e = false.
Proof.
  destruct e as [l|n|c|c q|c|h|cmd| |b n]; try done.
  by destruct c, q.
Qed.

(** X22.  In every run of [execute_clone], either no clone statement is sent
    and the function does not return [True], or the trace begins with the
    data-directory query, the donor list, the SSH connection, the watcher
    command and the clone statement, in this order, and neither the donor
    list nor the clone statement is sent again. *)
Theorem clone_statement_follows_setup cfg w ses :
  let r := execute_clone cfg w ses in
  (none_of is_clone_directive (trace_of r) ∧ outcome_of r ≠ Ret true)
  ∨ ∃ rest, trace_of r = dispatch_trace cfg ++ rest ∧ none_of is_dispatch rest.
Proof.
  intros r. subst r.
  clone_unfold. simpl.
  destruct (w_datadir w) as [fetched|e]; simpl.
  2: { left. destruct (is_MySQLError e); in_trace; by repeat split. }
  destruct fetched as [d|]; simpl; [|left; in_trace; by repeat split].
  destruct (d !! "datadir") as [v|]; simpl; [|left; in_trace; by repeat split].
  destruct (w_set_donor w) as [[]|e]; simpl.
  2: { left. destruct (is_MySQLError e); in_trace; by repeat split. }
  destruct (w_ssh_connect w) as [[]|e]; simpl.
  2: { left. destruct (is_Exception e); simpl; [|destruct (is_MySQLError e)];
         in_trace; by repeat split. }
  destruct (w_ssh_exec w) as [[]|e]; simpl.
  2: { left. destruct (is_MySQLError e); in_trace; by repeat split. }
  right.
  destruct (w_clone w) as [[]|e]; simpl;
    [|destruct (is_OperationalError e); simpl;
      [destruct (str_contains "Lost connection" (exc_str e)); simpl|]];
    try match goal with
    | |- context [_monitor_clone_progress w ?s] =>
        pose proof (monitor_quiet _ monitoring_event_not_dispatch w s) as Hm;
        destruct (_monitor_clone_progress w s) as [[tm sm] om];
        unfold trace_of in Hm; simpl in Hm;
        destruct om as [[]|e'|c|]; simpl; [| destruct (is_MySQLError e'); simpl | |]
    end;
    try (destruct (is_MySQLError e); simpl);
    unfold trace_of; simpl; eexists; (split; [reflexivity|]);
    repeat first [ apply Forall_cons; split; [reflexivity|]
                 | apply Forall_app; split
                 | apply Forall_nil_2 | exact Hm ].
Qed.
